(** * Vowel formant extraction (01_extract_formants.ipynb)

    A shallow embedding of the notebook's processing cell: the loop over the
    audio files of a directory, over the tiers and intervals of each paired
    TextGrid, and over the fixed-step samples of every vowel interval.

    - [Py]    : the Python values the cell manipulates (str, slices, [re]).
    - [Num]   : the numeric operations of the cell, with two instances:
                IEEE binary64 (what CPython computes) and exact rationals
                (the values those operations approximate).
    - [Praat] : the TextGrid and Formant queries reached through
                [parselmouth.praat.call].
    - [Run]   : the notebook state ([data], [file_counter]), the printed lines
                and the sequence of requests, threaded through a state and
                exception monad.
    - [Cell]  : the processing cell itself.
    - [Obs]   : the vocabulary of the statements.
    - [Words] : the vocabulary of the word lookup.
    - [Out]   : the rows of the cell as a function of its inputs.
    - [Demo], [DemoQ], [Demo2], [Demo3] : sample inputs.

    Statements about the structure of the output hold for any arithmetic,
    binary64 included. Statements about the order of sample times and about
    the floor of a quotient are made for exact arithmetic; where binary64
    departs from them, a sample input shows it. *)

From Stdlib Require Import ZArith QArith Qround String Ascii List Bool Lia Floats.
Import ListNotations.

Set Implicit Arguments.
Set Warnings "-inexact-float".
Local Open Scope Z_scope.
Local Open Scope list_scope.

(* ===================================================================== *)
(** ** Python strings, slices and the [re] fragment the cell uses *)
(* ===================================================================== *)

Module Py.

(** A Python [str] is a sequence of Unicode code points. *)
Definition char := N.
Definition str := list char.

(** String literals of the source. *)
Definition lit (s : string) : str := map N_of_ascii (list_ascii_of_string s).

(** Exceptions the cell can raise. *)
Inductive exn : Type :=
| ZeroDivisionError     (* float division by zero *)
| ValueError            (* int(nan) *)
| OverflowError         (* int(inf) *)
| IndexError            (* s[i] out of range *)
| OSError               (* refused by the operating system *)
| PraatError.           (* a Praat command refused its arguments *)

Inductive result (A : Type) : Type :=
| Ok (a : A)
| Raise (e : exn).
Arguments Ok {A} a.
Arguments Raise {A} e.

Fixpoint str_eqb (a b : str) : bool :=
  match a, b with
  | [], [] => true
  | x :: a', y :: b' => N.eqb x y && str_eqb a' b'
  | _, _ => false
  end.

(** [bool(s)]: a string is true when it is not empty. *)
Definition truthy (s : str) : bool :=
  match s with [] => false | _ :: _ => true end.

(** [x in l] for a list of strings. *)
Definition contains (l : list str) (x : str) : bool := existsb (str_eqb x) l.

(** A slice bound is clipped as CPython's [PySlice_AdjustIndices] does for
    step 1: a negative bound counts from the end, and both are clamped to
    [0 .. len]. *)
Definition adjust (len i : Z) : Z :=
  if i <? 0 then Z.max 0 (i + len) else Z.min i len.

(** [s[start:stop]]; [None] is an omitted bound. *)
Definition slice (s : str) (start stop : option Z) : str :=
  let len := Z.of_nat (length s) in
  let lo := match start with None => 0 | Some i => adjust len i end in
  let hi := match stop with None => len | Some j => adjust len j end in
  skipn (Z.to_nat lo) (firstn (Z.to_nat hi) s).

(** [s[i]] for a non-negative [i]. *)
Definition item (s : str) (i : nat) : result str :=
  match nth_error s i with
  | Some c => Ok [c]
  | None => Raise IndexError
  end.

(** [s.endswith(suffix)]. *)
Definition endswith (s suffix : str) : bool :=
  (length suffix <=? length s)%nat
  && str_eqb (skipn (length s - length suffix) s) suffix.

(** [range(lo, hi)]. *)
Definition range (lo hi : Z) : list Z :=
  map (fun i => lo + Z.of_nat i) (seq 0 (Z.to_nat (hi - lo))).

(** *** Regular expressions

    The constructs the pattern of the cell is built from, named after the
    opcodes of CPython's [sre] parser, with a backtracking matcher. *)
Inductive regex : Type :=
| At_beginning                       (* ^            *)
| In_set (members : str)             (* [ ... ]      *)
| Literal (c : char)                 (* an escaped or plain character *)
| Max_repeat_0_1 (r : regex)         (* r?  (greedy) *)
| Seq (r1 r2 : regex).               (* r1 r2        *)

(** [match_here r s pos k]: match [r] at [pos], then continue with [k] on
    the position reached; a greedy [?] first tries its body and falls back
    to the empty match when the continuation fails. *)
Fixpoint match_here (r : regex) (s : str) (pos : nat)
         (k : nat -> option nat) : option nat :=
  match r with
  | At_beginning => if (pos =? 0)%nat then k pos else None
  | In_set members =>
      match nth_error s pos with
      | Some c => if existsb (N.eqb c) members then k (S pos) else None
      | None => None
      end
  | Literal c =>
      match nth_error s pos with
      | Some c' => if N.eqb c' c then k (S pos) else None
      | None => None
      end
  | Max_repeat_0_1 r' =>
      match match_here r' s pos k with
      | Some e => Some e
      | None => k pos
      end
  | Seq r1 r2 => match_here r1 s pos (fun p => match_here r2 s p k)
  end.

(** The first start position among [pos, pos+1, ...] (at most [fuel] of
    them) at which the pattern matches, with the end of the match. *)
Fixpoint scan (r : regex) (s : str) (pos fuel : nat) : option (nat * nat) :=
  match fuel with
  | O => None
  | S fuel' =>
      match match_here r s pos Some with
      | Some e => Some (pos, e)
      | None => scan r s (S pos) fuel'
      end
  end.

(** [re.search(r, s)]: the span of the leftmost match, if any; every start
    position from 0 to [len(s)] is tried. *)
Definition search (r : regex) (s : str) : option (nat * nat) :=
  scan r s 0 (S (length s)).

(** A match object is true, [None] is false. *)
Definition matched (m : option (nat * nat)) : bool :=
  match m with Some _ => true | None => false end.

End Py.
Import Py.

Definition plus_sign : char := N_of_ascii "+"%char.

(** The pattern [r'^[a,e,i,o,u,j,w]\+?'] of the vowel test. The set is
    written with its members separated by commas, and inside brackets a
    comma is a member like any other character. *)
Definition vowel_pattern : regex :=
  Seq At_beginning
      (Seq (In_set (lit "a,e,i,o,u,j,w")) (Max_repeat_0_1 (Literal plus_sign))).

(** The test of the cell:
    [if label and re.search(r'^[a,e,i,o,u,j,w]\+?', label)]. *)
Definition is_vowel_label (label : str) : bool :=
  truthy label && matched (search vowel_pattern label).

(** The seven characters the comment above the test names:
    "it is a, e, i, o or u (or with +), also glides j and w". *)
Definition vowel_chars : str := lit "aeioujw".

(** The vowel test as the specification words it: the label is not empty
    and its first character is one of the seven. *)
Definition starts_with_vowel_char (label : str) : Prop :=
  exists c rest, label = c :: rest /\ In c vowel_chars.

(* ===================================================================== *)
(** ** Numbers *)
(* ===================================================================== *)

Module Num.

(** The operations the cell applies to times and frequencies. [div] is the
    quotient for a non-zero divisor and [is_zero] the test CPython makes
    before dividing; [of_int] converts the [int] operand of a mixed
    operation; [trunc] is [int(x)], which discards the fractional part;
    [le] and [lt] are the comparisons Praat makes when it looks a time up,
    and [defined] tells a number from Praat's undefined value: a command
    refuses an undefined number where it expects a time. *)
Class Arith (F : Type) : Type := {
  add : F -> F -> F;
  sub : F -> F -> F;
  mul : F -> F -> F;
  div : F -> F -> F;
  is_zero : F -> bool;
  of_int : Z -> F;
  trunc : F -> result Z;
  le : F -> F -> bool;
  lt : F -> F -> bool;
  defined : F -> bool;
  two_is_not_zero : is_zero (of_int 2) = false
}.

(** [x / y] on floats. *)
Definition truediv {F} `{Arith F} (x y : F) : result F :=
  if is_zero y then Raise ZeroDivisionError else Ok (div x y).

(** *** IEEE binary64, the [float] of CPython *)

(** [float(n)]: the nearest double, ties to even. CPython raises
    OverflowError from 2^1024 on; the cell only converts the literal 2 and
    loop indices bounded by the [int()] of a finite double. *)
Definition float_of_Z (n : Z) : float :=
  SF2Prim (binary_normalize prec emax n 0 false).

(** [int(x)]: the integer part of a finite double; NaN and the infinities
    are refused. *)
Definition float_to_Z (x : float) : result Z :=
  match Prim2SF x with
  | S754_zero _ => Ok 0
  | S754_infinity _ => Raise OverflowError
  | S754_nan => Raise ValueError
  | S754_finite s m e =>
      let magnitude :=
        if 0 <=? e then Z.pos m * 2 ^ e else Z.pos m / 2 ^ (- e) in
      Ok (if s then - magnitude else magnitude)
  end.

#[export] Instance binary64 : Arith float := {
  add := PrimFloat.add;
  sub := PrimFloat.sub;
  mul := PrimFloat.mul;
  div := PrimFloat.div;
  is_zero := fun y => PrimFloat.eqb y 0%float;
  of_int := float_of_Z;
  trunc := float_to_Z;
  le := PrimFloat.leb;
  lt := PrimFloat.ltb;
  defined := PrimFloat.is_finite;
  two_is_not_zero := eq_refl
}.

(** *** Exact rationals: the arithmetic the floats approximate *)

(** [int(x)] of a rational: the quotient truncated toward zero. *)
Definition Qtruncate (q : Q) : Z := Z.quot (Qnum q) (Z.pos (Qden q)).

#[export] Instance exact : Arith Q := {
  add := Qplus;
  sub := Qminus;
  mul := Qmult;
  div := Qdiv;
  is_zero := fun y => Qeq_bool y 0%Q;
  of_int := inject_Z;
  trunc := fun x => Ok (Qtruncate x);
  le := Qle_bool;
  lt := fun x y => negb (Qle_bool y x);
  defined := fun _ => true;
  two_is_not_zero := eq_refl
}.

End Num.
Import Num.

(* ===================================================================== *)
(** ** Praat objects and the queries the cell sends them *)
(* ===================================================================== *)

Module Praat.

Section Objects.
Variable F : Type.
Context `{Arith F}.

(** An interval of an interval tier: its time span and its label. *)
Record Interval : Type := {
  xmin : F;
  xmax : F;
  text : str
}.

(** A point of a point tier: its time and its mark. *)
Record Point : Type := {
  number : F;
  mark : str
}.

(** A tier is an interval tier or a point tier (Praat's IntervalTier and
    TextTier). *)
Inductive Tier : Type :=
| IntervalTier (tierName : str) (tierIntervals : list Interval)
| TextTier (tierName : str) (tierPoints : list Point).

Definition name (tier : Tier) : str :=
  match tier with
  | IntervalTier tierName _ => tierName
  | TextTier tierName _ => tierName
  end.

(** The intervals of an interval tier; a point tier has none. *)
Definition intervals (tier : Tier) : list Interval :=
  match tier with
  | IntervalTier _ tierIntervals => tierIntervals
  | TextTier _ _ => []
  end.

(** A TextGrid is its sequence of tiers; Praat numbers tiers and intervals
    from 1. *)
Record TextGrid : Type := {
  tiers : list Tier
}.

(** A Formant object, seen through "Get value at time" with unit Hertz and
    linear interpolation: formant number and time to frequency. Where Praat
    has no value the result is its undefined number (NaN in Python). *)
Definition Formant : Type := Z -> F -> F.

(** The [n]-th element, counted from 1; Praat refuses a number that is not
    positive (the argument is a NATURAL) or is too large. *)
Definition peek {A : Type} (l : list A) (n : Z) : result A :=
  if n <? 1 then Raise PraatError
  else match nth_error l (Z.to_nat (n - 1)) with
       | Some a => Ok a
       | None => Raise PraatError
       end.

Definition peek_tier (tg : TextGrid) (tierIdx : Z) : result Tier :=
  peek (tiers tg) tierIdx.

(** The intervals of tier [tierIdx]; a command about intervals refuses a
    tier that is not an interval tier. *)
Definition peek_interval_tier (tg : TextGrid) (tierIdx : Z)
  : result (list Interval) :=
  match peek_tier tg tierIdx with
  | Ok (IntervalTier _ tierIntervals) => Ok tierIntervals
  | Ok (TextTier _ _) => Raise PraatError
  | Raise e => Raise e
  end.

Definition peek_interval (tg : TextGrid) (tierIdx intervalIdx : Z)
  : result Interval :=
  match peek_interval_tier tg tierIdx with
  | Ok tierIntervals => peek tierIntervals intervalIdx
  | Raise e => Raise e
  end.

(** "Get number of tiers" *)
Definition get_number_of_tiers (tg : TextGrid) : result Z :=
  Ok (Z.of_nat (length (tiers tg))).

(** "Get tier name" *)
Definition get_tier_name (tg : TextGrid) (tierIdx : Z) : result str :=
  match peek_tier tg tierIdx with
  | Ok tier => Ok (name tier)
  | Raise e => Raise e
  end.

(** "Get number of intervals" *)
Definition get_number_of_intervals (tg : TextGrid) (tierIdx : Z) : result Z :=
  match peek_interval_tier tg tierIdx with
  | Ok tierIntervals => Ok (Z.of_nat (length tierIntervals))
  | Raise e => Raise e
  end.

(** "Get label of interval" *)
Definition get_label_of_interval (tg : TextGrid) (tierIdx intervalIdx : Z)
  : result str :=
  match peek_interval tg tierIdx intervalIdx with
  | Ok iv => Ok (text iv)
  | Raise e => Raise e
  end.

(** "Get starting point" *)
Definition get_starting_point (tg : TextGrid) (tierIdx intervalIdx : Z)
  : result F :=
  match peek_interval tg tierIdx intervalIdx with
  | Ok iv => Ok (xmin iv)
  | Raise e => Raise e
  end.

(** "Get end point" *)
Definition get_end_point (tg : TextGrid) (tierIdx intervalIdx : Z)
  : result F :=
  match peek_interval tg tierIdx intervalIdx with
  | Ok iv => Ok (xmax iv)
  | Raise e => Raise e
  end.

(** The search of an interval tier for a time, between the intervals
    numbered [ileft] and [iright]: the middle interval is compared by its
    end, [t < xmax], and the search goes on in the half that can hold the
    time, until one interval is left. *)
Fixpoint bisect (l : list Interval) (t : F) (ileft iright : Z) (fuel : nat)
  : Z :=
  match fuel with
  | O => ileft
  | S fuel' =>
      if ileft <? iright then
        let imid := (ileft + iright) / 2 in
        match peek l imid with
        | Ok iv =>
            if lt t (xmax iv) then bisect l t ileft imid fuel'
            else bisect l t (imid + 1) iright fuel'
        | Raise _ => ileft
        end
      else ileft
  end.

(** The number Praat gives the interval of a time. A tier spans from the
    start of its first interval to the end of its last one: the answer is 0
    for a tier without intervals and for a time before that start or after
    that end, and otherwise the result of the search. On a tier whose
    intervals follow one another this is the interval that holds the time,
    the last one when the time is the end of the tier; in a hole between
    two intervals it is the interval after the hole. *)
Definition time_to_index (l : list Interval) (t : F) : Z :=
  match l with
  | [] => 0
  | first :: _ =>
      if lt t (xmin first) || lt (xmax (last l first)) t then 0
      else bisect l t 1 (Z.of_nat (length l)) (length l)
  end.

(** "Get interval at time": the tier is an interval tier and the time is
    a defined number, or the command is refused. *)
Definition get_interval_at_time (tg : TextGrid) (tierIdx : Z) (time : F)
  : result Z :=
  match peek_interval_tier tg tierIdx with
  | Ok tierIntervals =>
      if defined time then Ok (time_to_index tierIntervals time)
      else Raise PraatError
  | Raise e => Raise e
  end.

(** "Get value at time" with "Hertz" and "Linear" *)
Definition get_value_at_time (formant : Formant) (formantNumber : Z)
           (time : F) : result F :=
  Ok (formant formantNumber time).

End Objects.

Arguments peek {A} l n.
Arguments Build_Interval {F} _ _ _.
Arguments Build_Point {F} _ _.
Arguments IntervalTier {F} tierName tierIntervals.
Arguments TextTier {F} tierName tierPoints.
Arguments Build_TextGrid {F} _.

End Praat.
Import Praat.

(* ===================================================================== *)
(** ** The notebook state and its effects *)
(* ===================================================================== *)

Module Run.

Section Effects.
Variable F : Type.

(** One dictionary appended to [data]; the keys of the source, with the
    blank of 'Video ID' written as an underscore. *)
Record Row : Type := {
  Video_ID : str;
  Vowel : str;
  Vowel_onset_time : F;
  Time_of_formant_measurements : F;
  Time_from_vowel_onset : F;
  F1 : F;
  F2 : F;
  Participant : str;
  Task : str;
  Word : str
}.

(** What the cell asks of the file system, of parselmouth and, through
    [call], of Praat; each request is recorded with its arguments. *)
Inductive Event : Type :=
| Path_exists (path : str)
| Sound (path : str)
| To_formant_burg
| Data_read (path : str)
| Get_number_of_tiers
| Get_tier_name (tierIdx : Z)
| Get_number_of_intervals (tierIdx : Z)
| Get_label_of_interval (tierIdx intervalIdx : Z)
| Get_starting_point (tierIdx intervalIdx : Z)
| Get_end_point (tierIdx intervalIdx : Z)
| Get_interval_at_time (tierIdx : Z) (time : F)
| Get_value_at_time (formantNumber : Z) (time : F).

(** A printed line. *)
Inductive Line : Type :=
| Processing_file (counter : Z) (file : str)
| Done.

(** The globals [data] and [file_counter], the standard output and the
    requests made so far. *)
Record State : Type := {
  data : list Row;
  file_counter : Z;
  stdout : list Line;
  calls : list Event
}.

(** A statement runs from a state to a state and either a value or the
    exception that stopped it; what was appended before an exception stays
    in [data]. *)
Definition M (A : Type) : Type := State -> State * result A.

Definition ret {A} (a : A) : M A := fun st => (st, Ok a).

Definition bind {A B} (m : M A) (k : A -> M B) : M B :=
  fun st =>
    match m st with
    | (st', Ok a) => k a st'
    | (st', Raise e) => (st', Raise e)
    end.

(** A pure computation that may raise. *)
Definition lift {A} (r : result A) : M A := fun st => (st, r).

(** A recorded request and its answer. *)
Definition request {A} (e : Event) (r : result A) : M A :=
  fun st =>
    ({| data := data st; file_counter := file_counter st;
        stdout := stdout st; calls := calls st ++ [e] |}, r).

(** [data.append(row)] *)
Definition append (row : Row) : M unit :=
  fun st =>
    ({| data := data st ++ [row]; file_counter := file_counter st;
        stdout := stdout st; calls := calls st |}, Ok tt).

(** [print(...)] *)
Definition print (l : Line) : M unit :=
  fun st =>
    ({| data := data st; file_counter := file_counter st;
        stdout := stdout st ++ [l]; calls := calls st |}, Ok tt).

Definition read_file_counter : M Z := fun st => (st, Ok (file_counter st)).

Definition write_file_counter (n : Z) : M unit :=
  fun st =>
    ({| data := data st; file_counter := n;
        stdout := stdout st; calls := calls st |}, Ok tt).

(** [data = []] *)
Definition reset_data : M unit :=
  fun st =>
    ({| data := []; file_counter := file_counter st;
        stdout := stdout st; calls := calls st |}, Ok tt).

(** [for x in l: body]; an exception in the body ends the loop. *)
Fixpoint for_each {X} (l : list X) (body : X -> M unit) : M unit :=
  match l with
  | [] => ret tt
  | x :: l' => bind (body x) (fun _ => for_each l' body)
  end.

End Effects.

Arguments ret {F A} a.
Arguments lift {F A} r.
Arguments To_formant_burg {F}.
Arguments Get_number_of_tiers {F}.
Arguments Get_tier_name {F} tierIdx.
Arguments Get_number_of_intervals {F} tierIdx.
Arguments Get_label_of_interval {F} tierIdx intervalIdx.
Arguments Get_starting_point {F} tierIdx intervalIdx.
Arguments Get_end_point {F} tierIdx intervalIdx.
Arguments Path_exists {F} path.
Arguments Sound {F} path.
Arguments Data_read {F} path.
Arguments read_file_counter {F}.
Arguments reset_data {F}.

End Run.
Import Run.

Declare Scope run_scope.
Notation "x <- m ;; k" := (bind m (fun x => k))
  (at level 61, m at next level, right associativity) : run_scope.
Notation "m ;; k" := (bind m (fun _ => k))
  (at level 61, right associativity) : run_scope.
Local Open Scope run_scope.

(* ===================================================================== *)
(** ** The processing cell *)
(* ===================================================================== *)

Module Cell.

Section Program.
Variable F : Type.
Context `{Arith F}.

(** The parameters of the third cell. *)
Record Config : Type := {
  tg_path : str;
  wav_path : str;
  phones_tiers : list str;
  time_step : F;
  maximum_number_of_formants : Z;
  maximum_formant : Z;
  window_length : F;
  preemphasis_from : Z;
  segment_window : F
}.

(** A Sound object, seen through [to_formant_burg]: the five analysis
    parameters to the Formant object. *)
Definition SoundObject : Type := F -> Z -> Z -> F -> Z -> Formant F.

(** The directory listing, the files that exist, and what parselmouth
    reads from a path. *)
Record World : Type := {
  listdir : str -> list str;
  path_exists : str -> bool;
  open_sound : str -> result SoundObject;
  read_data : str -> result (TextGrid F)
}.

(** ['PROBLEM'] *)
Definition PROBLEM : str := lit "PROBLEM".

(** The body of [for segmentIdx in range(1, numSegments + 1)]. *)
Definition segment_step (cfg : Config) (file : str) (formant : Formant F)
           (label : str) (start : F) (word : str) (segmentIdx : Z)
  : M F unit :=
  let spot := add start (mul (of_int segmentIdx) (segment_window cfg)) in
  let tim_int := sub spot start in
  f1 <- request (Get_value_at_time 1 spot)
                (get_value_at_time formant 1 spot) ;;
  f2 <- request (Get_value_at_time 2 spot)
                (get_value_at_time formant 2 spot) ;;
  vowel <- lift (item label 0) ;;
  append {| Video_ID := slice file None (Some (-4));
            Vowel := vowel;
            Vowel_onset_time := start;
            Time_of_formant_measurements := spot;
            Time_from_vowel_onset := tim_int;
            F1 := f1;
            F2 := f2;
            Participant := slice file None (Some 4);
            Task := slice file (Some 5) (Some (-4));
            Word := if truthy word then word else PROBLEM |}.

(** The body of [for intervalIdx in range(1, numIntervals + 1)]. *)
Definition interval_step (cfg : Config) (file : str) (formant : Formant F)
           (tg : TextGrid F) (tierIdx intervalIdx : Z) : M F unit :=
  label <- request (Get_label_of_interval tierIdx intervalIdx)
                   (get_label_of_interval tg tierIdx intervalIdx) ;;
  if is_vowel_label label then
    start <- request (Get_starting_point tierIdx intervalIdx)
                     (get_starting_point tg tierIdx intervalIdx) ;;
    end_ <- request (Get_end_point tierIdx intervalIdx)
                    (get_end_point tg tierIdx intervalIdx) ;;
    let dur := sub end_ start in
    let word_tier_idx := 1 in
    midpoint <- lift (truediv (add end_ start) (of_int 2)) ;;
    word_interval <- request (Get_interval_at_time word_tier_idx midpoint)
                       (get_interval_at_time tg word_tier_idx midpoint) ;;
    word <- request (Get_label_of_interval word_tier_idx word_interval)
                    (get_label_of_interval tg word_tier_idx word_interval) ;;
    quotient <- lift (truediv dur (segment_window cfg)) ;;
    numSegments <- lift (trunc quotient) ;;
    for_each (range 1 (numSegments + 1))
             (segment_step cfg file formant label start word)
  else ret tt.

(** The body of [for tierIdx in range(1, numTiers + 1)]. *)
Definition tier_step (cfg : Config) (file : str) (formant : Formant F)
           (tg : TextGrid F) (tierIdx : Z) : M F unit :=
  tierName <- request (Get_tier_name tierIdx) (get_tier_name tg tierIdx) ;;
  if contains (phones_tiers cfg) tierName then
    numIntervals <- request (Get_number_of_intervals tierIdx)
                            (get_number_of_intervals tg tierIdx) ;;
    for_each (range 1 (numIntervals + 1))
             (interval_step cfg file formant tg tierIdx)
  else ret tt.

(** [tg_path + file[:-4] + '.TextGrid'] *)
Definition textgrid_of (cfg : Config) (file : str) : str :=
  tg_path cfg ++ slice file None (Some (-4)) ++ lit ".TextGrid".

(** The body of [for file in os.listdir(wav_path)]. *)
Definition file_step (cfg : Config) (w : World) (file : str) : M F unit :=
  if endswith file (lit ".wav") then
    paired <- request (Path_exists (textgrid_of cfg file))
                      (Ok (path_exists w (textgrid_of cfg file))) ;;
    if paired : bool then
      counter <- read_file_counter ;;
      print (Processing_file counter file) ;;
      write_file_counter (counter + 1) ;;
      wav <- request (Sound (wav_path cfg ++ file))
                     (open_sound w (wav_path cfg ++ file)) ;;
      formant <- request To_formant_burg
                   (Ok (wav (time_step cfg) (maximum_number_of_formants cfg)
                            (maximum_formant cfg) (window_length cfg)
                            (preemphasis_from cfg))) ;;
      tg <- request (Data_read (textgrid_of cfg file))
                    (read_data w (textgrid_of cfg file)) ;;
      numTiers <- request Get_number_of_tiers (get_number_of_tiers tg) ;;
      for_each (range 1 (numTiers + 1)) (tier_step cfg file formant tg)
    else ret tt
  else ret tt.

(** The fourth cell. *)
Definition extract_formants (cfg : Config) (w : World) : M F unit :=
  reset_data ;;
  write_file_counter 1 ;;
  for_each (listdir w (wav_path cfg)) (file_step cfg w) ;;
  print Done.

(** The state a fresh kernel starts the cell in. *)
Definition fresh : State F :=
  {| data := []; file_counter := 0; stdout := []; calls := [] |}.

End Program.

Arguments fresh : clear implicits.

End Cell.
Import Cell.

(* ===================================================================== *)
(** ** Vocabulary of the statements *)
(* ===================================================================== *)

Module Obs.

Section Vocabulary.
Variable F : Type.
Context `{Arith F}.

(** A state with rows appended to [data] and requests to [calls]. *)
Definition extend (st : State F) (rows : list (Row F)) (evs : list (Event F))
  : State F :=
  {| data := data st ++ rows; file_counter := file_counter st;
     stdout := stdout st; calls := calls st ++ evs |}.

(** [st'] is [st] with rows satisfying [R] and requests satisfying [P]
    appended, and nothing else changed. *)
Definition grows (R : Row F -> Prop) (P : Event F -> Prop)
           (st st' : State F) : Prop :=
  exists rows evs, st' = extend st rows evs /\ Forall R rows /\ Forall P evs.

(** Every run of [m] only appends such rows and requests. *)
Definition steps {A} (R : Row F -> Prop) (P : Event F -> Prop)
           (m : M F A) : Prop :=
  forall st, grows R P st (fst (m st)).

(** The sample time of segment [k] of a token that starts at [start]. *)
Definition spot_of (cfg : Config F) (start : F) (k : Z) : F :=
  add start (mul (of_int k) (segment_window cfg)).

(** The row of segment [k] of a token. *)
Definition sample_row (cfg : Config F) (file : str) (formant : Formant F)
           (label : str) (start : F) (word : str) (k : Z) : Row F :=
  {| Video_ID := slice file None (Some (-4));
     Vowel := firstn 1 label;
     Vowel_onset_time := start;
     Time_of_formant_measurements := spot_of cfg start k;
     Time_from_vowel_onset := sub (spot_of cfg start k) start;
     F1 := formant 1 (spot_of cfg start k);
     F2 := formant 2 (spot_of cfg start k);
     Participant := slice file None (Some 4);
     Task := slice file (Some 5) (Some (-4));
     Word := if truthy word then word else PROBLEM |}.

(** The two requests of segment [k]. *)
Definition sample_calls (cfg : Config F) (start : F) (k : Z)
  : list (Event F) :=
  [Get_value_at_time 1 (spot_of cfg start k);
   Get_value_at_time 2 (spot_of cfg start k)].

(** The midpoint of an interval, [(end + start)/2]. *)
Definition midpoint (iv : Interval F) : F :=
  div (add (xmax iv) (xmin iv)) (of_int 2).

(** [int(dur / segment_window)] of an interval. *)
Definition segment_count (cfg : Config F) (iv : Interval F) : result Z :=
  match truediv (sub (xmax iv) (xmin iv)) (segment_window cfg) with
  | Ok q => trunc q
  | Raise e => Raise e
  end.

(** The requests made for a vowel interval before its segment loop. *)
Definition token_calls (tierIdx intervalIdx : Z) (iv : Interval F)
           (word_interval : Z) : list (Event F) :=
  [Get_label_of_interval tierIdx intervalIdx;
   Get_starting_point tierIdx intervalIdx;
   Get_end_point tierIdx intervalIdx;
   Get_interval_at_time 1 (midpoint iv);
   Get_label_of_interval 1 word_interval].

(** The "Get interval at time" requests of a sequence, in order. *)
Fixpoint lookups (evs : list (Event F)) : list (Z * F) :=
  match evs with
  | [] => []
  | Get_interval_at_time tierIdx time :: evs' =>
      (tierIdx, time) :: lookups evs'
  | _ :: evs' => lookups evs'
  end.

(** The tier a request looks a time up on, when it is such a request, is
    the first. *)
Definition on_first_tier (e : Event F) : Prop :=
  match e with
  | Get_interval_at_time tierIdx _ => tierIdx = 1
  | _ => True
  end.

(** The interval of the first tier that contains a time, as the
    specification reads the lookup: the first interval with
    [xmin <= t < xmax], if there is one. *)
Definition word_interval_at (tg : TextGrid F) (t : F)
  : option (Interval F) :=
  match tiers tg with
  | [] => None
  | tier :: _ =>
      find (fun iv => le (xmin iv) t && lt t (xmax iv)) (intervals tier)
  end.

(** The word context as the specification words it: the label of the
    interval of the word tier that contains the time, and the sentinel
    when there is no such interval or its label is empty. *)
Definition word_context (tg : TextGrid F) (t : F) : str :=
  match word_interval_at tg t with
  | Some iv => if truthy (text iv) then text iv else PROBLEM
  | None => PROBLEM
  end.

(** The specification's reading of the word lookup: every vowel interval
    with a segment count emits that many rows, each with the word context
    of the midpoint, whether or not an interval holds the midpoint. *)
Definition rows_always_carry_word_context : Prop :=
  forall (cfg : Config F) (file : str) (formant : Formant F)
         (tg : TextGrid F) (tierIdx intervalIdx : Z) (iv : Interval F)
         (n : Z) (st : State F),
    peek_interval tg tierIdx intervalIdx = Ok iv ->
    is_vowel_label (text iv) = true ->
    segment_count cfg iv = Ok n ->
    exists rows evs,
      interval_step cfg file formant tg tierIdx intervalIdx st
      = (extend st rows evs, Ok tt)
      /\ length rows = Z.to_nat n
      /\ Forall (fun r => Word r = word_context tg (midpoint iv)) rows.

(** [r] is the row of a segment of the vowel interval [intervalIdx] of
    tier [tierIdx]: the interval passes the vowel test, its word was looked
    up, and [r] is the row of one of its [int(dur / segment_window)]
    segments. *)
Definition token_row (cfg : Config F) (file : str) (formant : Formant F)
           (tg : TextGrid F) (tierIdx intervalIdx : Z) (r : Row F) : Prop :=
  exists iv wi word n k,
    peek_interval tg tierIdx intervalIdx = Ok iv
    /\ is_vowel_label (text iv) = true
    /\ get_interval_at_time tg 1 (midpoint iv) = Ok wi
    /\ get_label_of_interval tg 1 wi = Ok word
    /\ segment_count cfg iv = Ok n
    /\ 1 <= k <= n
    /\ r = sample_row cfg file formant (text iv) (xmin iv) word k.

(** The Formant object [to_formant_burg] makes of a Sound. *)
Definition formant_of (cfg : Config F) (wav : SoundObject F) : Formant F :=
  wav (time_step cfg) (maximum_number_of_formants cfg) (maximum_formant cfg)
      (window_length cfg) (preemphasis_from cfg).

(** An audio file with its TextGrid: the two tests of the file loop. *)
Definition paired (cfg : Config F) (w : World F) (file : str) : bool :=
  endswith file (lit ".wav") && path_exists w (textgrid_of cfg file).

(** [r] is a row of [file]: the file is paired, its Sound and TextGrid were
    read, and [r] is a row of a vowel interval of a tier named in
    [phones_tiers]. *)
Definition file_row (cfg : Config F) (w : World F) (file : str) (r : Row F)
  : Prop :=
  exists wav tg tier tierIdx intervalIdx,
    paired cfg w file = true
    /\ open_sound w (wav_path cfg ++ file) = Ok wav
    /\ read_data w (textgrid_of cfg file) = Ok tg
    /\ peek_tier tg tierIdx = Ok tier
    /\ contains (phones_tiers cfg) (name tier) = true
    /\ token_row cfg file (formant_of cfg wav) tg tierIdx intervalIdx r.

(** [r] is a row of some file of the listing. *)
Definition batch_row (cfg : Config F) (w : World F) (r : Row F) : Prop :=
  exists file, In file (listdir w (wav_path cfg)) /\ file_row cfg w file r.

(** The lines printed for files processed in this order, the counter
    starting at [n]. *)
Fixpoint progress (n : Z) (files : list str) : list Line :=
  match files with
  | [] => []
  | file :: files' => Processing_file n file :: progress (n + 1) files'
  end.

(** The state once "Processing file" is printed and the counter advanced. *)
Definition announced (file : str) (st : State F) : State F :=
  {| data := data st;
     file_counter := file_counter st + 1;
     stdout := stdout st ++ [Processing_file (file_counter st) file];
     calls := calls st |}.

(** The state after [j] more files were announced and rows and requests
    were appended. *)
Definition advanced (files : list str) (j : nat) (rows : list (Row F))
           (evs : list (Event F)) (st : State F) : State F :=
  {| data := data st ++ rows;
     file_counter := file_counter st + Z.of_nat j;
     stdout := stdout st ++ progress (file_counter st) (firstn j files);
     calls := calls st ++ evs |}.

End Vocabulary.

End Obs.
Import Obs.

(* ===================================================================== *)
(** ** Sample inputs, in binary64 *)
(* ===================================================================== *)

Module Demo.

(** The parameters as the third cell sets them. *)
Definition notebook : Config float :=
  {| tg_path := lit "data/";
     wav_path := lit "data/";
     phones_tiers := [lit "phones"];
     time_step := 0.1%float;
     maximum_number_of_formants := 5;
     maximum_formant := 5500;
     window_length := 0.025%float;
     preemphasis_from := 50;
     segment_window := 0.005%float |}.

(** The same with another segment window. *)
Definition every (window : float) : Config float :=
  {| tg_path := tg_path notebook;
     wav_path := wav_path notebook;
     phones_tiers := phones_tiers notebook;
     time_step := time_step notebook;
     maximum_number_of_formants := maximum_number_of_formants notebook;
     maximum_formant := maximum_formant notebook;
     window_length := window_length notebook;
     preemphasis_from := preemphasis_from notebook;
     segment_window := window |}.

(** A Sound whose first formant is steady and whose second is undefined
    everywhere. *)
Definition half_voiced : SoundObject float :=
  fun _ _ _ _ _ formantNumber _ =>
    if formantNumber =? 1 then 438.5%float else nan.

Definition half_voiced_formant : Formant float :=
  formant_of notebook half_voiced.

(** A grid with the word "no" on its first tier and the phone "o" from
    0.19 s to 0.22 s on its second, as in the first row of the notebook's
    output. *)
Definition no_grid : TextGrid float :=
  Build_TextGrid
    [ IntervalTier (lit "words")
        [ Build_Interval 0%float 0.15%float (lit "");
          Build_Interval 0.15%float 0.25%float (lit "no") ];
      IntervalTier (lit "phones")
        [ Build_Interval 0.15%float 0.19%float (lit "n");
          Build_Interval 0.19%float 0.22%float (lit "o");
          Build_Interval 0.22%float 0.25%float (lit "") ] ].

(** Two audio files and a text file; only the first audio file has its
    TextGrid. *)
Definition one_pair : World float :=
  {| listdir := fun _ =>
       [lit "p113_int.wav"; lit "notes.txt"; lit "p113_wd.wav"];
     path_exists := fun path => str_eqb path (lit "data/p113_int.TextGrid");
     open_sound := fun _ => Ok half_voiced;
     read_data := fun _ => Ok no_grid |}.

(** The phone "o" lies in a silence of the word tier, an interval with an
    empty label. *)
Definition silence_grid : TextGrid float :=
  Build_TextGrid
    [ IntervalTier (lit "words") [ Build_Interval 0%float 4%float (lit "") ];
      IntervalTier (lit "phones") [ Build_Interval 2%float 3%float (lit "o") ] ].

(** The first tier ends at 1 s; the phone "o" on the second runs from 2 s
    to 3 s, so its midpoint lies after the last interval of the first tier
    and no interval there holds it. *)
Definition short_tier_grid : TextGrid float :=
  Build_TextGrid
    [ IntervalTier (lit "words") [ Build_Interval 0%float 1%float (lit "no") ];
      IntervalTier (lit "phones") [ Build_Interval 2%float 3%float (lit "o") ] ].

(** One phone spanning two words: "o" from 0 s to 4 s under "a" (0 s to
    1.5 s) and "b" (1.5 s to 5 s). *)
Definition two_words_grid : TextGrid float :=
  Build_TextGrid
    [ IntervalTier (lit "words")
        [ Build_Interval 0%float 1.5%float (lit "a");
          Build_Interval 1.5%float 5%float (lit "b") ];
      IntervalTier (lit "phones") [ Build_Interval 0%float 4%float (lit "o") ] ].

(** A phone tier with an interval labelled with a comma. *)
Definition comma_grid : TextGrid float :=
  Build_TextGrid
    [ IntervalTier (lit "words") [ Build_Interval 0%float 4%float (lit "no") ];
      IntervalTier (lit "phones") [ Build_Interval 2%float 3%float (lit ",") ] ].

(** Phone labels with a marker and with trailing digits. *)
Definition marked_grid : TextGrid float :=
  Build_TextGrid
    [ IntervalTier (lit "words") [ Build_Interval 0%float 4%float (lit "no") ];
      IntervalTier (lit "phones")
        [ Build_Interval 1%float 2%float (lit "p");
          Build_Interval 2%float 3%float (lit "o+");
          Build_Interval 3%float 4%float (lit "e12") ] ].

(** The tiers the other way round: phones first, words second. *)
Definition swapped_grid : TextGrid float :=
  Build_TextGrid
    [ IntervalTier (lit "phones") [ Build_Interval 2%float 3%float (lit "o") ];
      IntervalTier (lit "words") [ Build_Interval 0%float 4%float (lit "no") ] ].

(** A world whose every TextGrid is the given grid. *)
Definition reading (tg : TextGrid float) : World float :=
  {| listdir := fun _ => [lit "p113_int.wav"];
     path_exists := fun _ => true;
     open_sound := fun _ => Ok half_voiced;
     read_data := fun _ => Ok tg |}.


End Demo.

(** The same token in exact arithmetic: "o" from 19/100 to 22/100, the
    word "no" around it, and a window of 5/1000. *)
Module DemoQ.

Definition notebook : Config Q :=
  {| tg_path := lit "data/";
     wav_path := lit "data/";
     phones_tiers := [lit "phones"];
     time_step := (1 # 10)%Q;
     maximum_number_of_formants := 5;
     maximum_formant := 5500;
     window_length := (25 # 1000)%Q;
     preemphasis_from := 50;
     segment_window := (5 # 1000)%Q |}.

Definition flat : Formant Q := fun formantNumber _ => inject_Z formantNumber.

Definition no_grid : TextGrid Q :=
  Build_TextGrid
    [ IntervalTier (lit "words")
        [ Build_Interval 0%Q (15 # 100)%Q (lit "");
          Build_Interval (15 # 100)%Q (25 # 100)%Q (lit "no") ];
      IntervalTier (lit "phones")
        [ Build_Interval (15 # 100)%Q (19 # 100)%Q (lit "n");
          Build_Interval (19 # 100)%Q (22 # 100)%Q (lit "o");
          Build_Interval (22 # 100)%Q (25 # 100)%Q (lit "") ] ].

Definition o_interval : Interval Q :=
  Build_Interval (19 # 100)%Q (22 # 100)%Q (lit "o").

End DemoQ.

(* ===================================================================== *)
(** ** Vocabulary of the word lookup and of the readings it is held to *)
(* ===================================================================== *)

Module Words.

Section Lookup.
Variable F : Type.
Context `{Arith F}.

(** The time lies off the tier: the tier has no interval, or the time is
    before the start of its first interval or after the end of its last. *)
Definition off_tier (l : list (Interval F)) (t : F) : bool :=
  match l with
  | [] => true
  | first :: _ => lt t (xmin first) || lt (xmax (last l first)) t
  end.

(** The intervals follow one another, as Praat keeps them: each starts
    where the one before it ends. *)
Definition contiguous (l : list (Interval F)) : Prop :=
  forall i a b,
    nth_error l i = Some a -> nth_error l (S i) = Some b -> xmin b = xmax a.

(** Interval [wi] of the tier holds the time: the time is not before its
    start, and it is before its end or, for the last interval of the tier,
    not after its end. *)
Definition holds (l : list (Interval F)) (wi : Z) (wiv : Interval F)
           (t : F) : Prop :=
  lt t (xmin wiv) = false
  /\ if wi <? Z.of_nat (length l) then lt t (xmax wiv) = true
     else lt (xmax wiv) t = false.

(** The Word of the rows of a token, given the intervals of the first tier
    and the midpoint of the token: the label of the interval the lookup
    answers, 'PROBLEM' when that label is empty, and no word when the
    lookup answers 0. *)
Definition word_on (l : list (Interval F)) (t : F) : option str :=
  match peek l (time_to_index l t) with
  | Ok wiv => Some (if truthy (text wiv) then text wiv else PROBLEM)
  | Raise _ => None
  end.

(** [r] is a row of a token whose Word was read on the first tier of the
    grid of its file, whatever the name of that tier: the grid of [file]
    starts with an interval tier, the row is one of interval [intervalIdx]
    of tier [tierIdx], and its Word is the word on the first tier at the
    midpoint of that interval. *)
Definition word_from_first_tier (cfg : Config F) (w : World F) (r : Row F)
  : Prop :=
  exists file tg first_name first_intervals others tierIdx intervalIdx iv,
    In file (listdir w (wav_path cfg))
    /\ Video_ID r = slice file None (Some (-4))
    /\ read_data w (textgrid_of cfg file) = Ok tg
    /\ tiers tg = IntervalTier first_name first_intervals :: others
    /\ peek_interval tg tierIdx intervalIdx = Ok iv
    /\ Vowel r = firstn 1 (text iv)
    /\ Vowel_onset_time r = xmin iv
    /\ word_on first_intervals (midpoint iv) = Some (Word r).

End Lookup.

(** *** Readings of the specification, in binary64 *)


(** With a positive window, every sample of a token is taken after its
    start, and a later sample at a later time. *)
Definition samples_move_forward : Prop :=
  forall (cfg : Config float) (iv : Interval float) (n j k : Z),
    PrimFloat.ltb 0%float (segment_window cfg) = true ->
    segment_count cfg iv = Ok n ->
    1 <= j -> j < k -> k <= n ->
    PrimFloat.ltb (xmin iv) (spot_of cfg (xmin iv) j) = true
    /\ PrimFloat.ltb (spot_of cfg (xmin iv) j) (spot_of cfg (xmin iv) k)
       = true.

End Words.
Import Words.

(** Sample inputs for the count, the sample times and the lookup. *)
Module Demo3.


(** The start of the last double before 1. *)
Definition below_one : float := 0x1.fffffffffffffp-1%float.

(** A phone from the last double before 1 to 1, to be sampled every
    2^-55 s: four windows, each a quarter of the distance between the two
    doubles. *)
Definition tight_grid : TextGrid float :=
  Build_TextGrid
    [ IntervalTier (lit "words") [ Build_Interval 0%float 2%float (lit "no") ];
      IntervalTier (lit "phones")
        [ Build_Interval below_one 1%float (lit "o") ] ].

(** A phone from 0.002 s to 0.027 s: five windows of 0.005 s. *)
Definition late_grid : TextGrid float :=
  Build_TextGrid
    [ IntervalTier (lit "words") [ Build_Interval 0%float 1%float (lit "no") ];
      IntervalTier (lit "phones")
        [ Build_Interval 0.002%float 0.027%float (lit "o") ] ].

(** A first tier with a hole between 1 s and 2 s; the phone "o" on the
    second tier has its midpoint, 1.5 s, in the hole. *)
Definition hole_grid : TextGrid float :=
  Build_TextGrid
    [ IntervalTier (lit "words")
        [ Build_Interval 0%float 1%float (lit "a");
          Build_Interval 2%float 4%float (lit "b") ];
      IntervalTier (lit "phones")
        [ Build_Interval 1%float 2%float (lit "o") ] ].

(** The midpoint of the phone "o", 3 s, is the end of the first tier. *)
Definition end_grid : TextGrid float :=
  Build_TextGrid
    [ IntervalTier (lit "words")
        [ Build_Interval 0%float 2%float (lit "a");
          Build_Interval 2%float 3%float (lit "b") ];
      IntervalTier (lit "phones")
        [ Build_Interval 2%float 4%float (lit "o") ] ].

(** The first tier is a point tier. *)
Definition point_grid : TextGrid float :=
  Build_TextGrid
    [ TextTier (lit "words") [ Build_Point 2.5%float (lit "no") ];
      IntervalTier (lit "phones")
        [ Build_Interval 2%float 3%float (lit "o") ] ].

(** A phone so late that the sum of its bounds overflows: its duration is
    finite and its midpoint is infinite, which Praat holds for undefined. *)
Definition overflow_grid : TextGrid float :=
  Build_TextGrid
    [ IntervalTier (lit "words")
        [ Build_Interval 0%float 1.7e308%float (lit "no") ];
      IntervalTier (lit "phones")
        [ Build_Interval 1e308%float 1.5e308%float (lit "o") ] ].

(** A tier of comments before the tier named "words": the first tier is
    not the one with the words. *)
Definition comments_grid : TextGrid float :=
  Build_TextGrid
    [ IntervalTier (lit "comments")
        [ Build_Interval 0%float 4%float (lit "noisy") ];
      IntervalTier (lit "words")
        [ Build_Interval 0%float 4%float (lit "no") ];
      IntervalTier (lit "phones")
        [ Build_Interval 1%float 2%float (lit "n");
          Build_Interval 2%float 3%float (lit "o") ] ].

(** The same first tier under another name, the tier of words gone, and
    the phone "o" alone on its tier. *)
Definition comments_grid' : TextGrid float :=
  Build_TextGrid
    [ IntervalTier (lit "words")
        [ Build_Interval 0%float 4%float (lit "noisy") ];
      IntervalTier (lit "phones")
        [ Build_Interval 2%float 3%float (lit "o") ] ].

(** Three paired audio files; the Sound of the second cannot be read. *)
Definition second_unreadable : World float :=
  {| listdir := fun _ =>
       [lit "p113_int.wav"; lit "notes.txt"; lit "p115_int.wav";
        lit "p120_int.wav"];
     path_exists := fun _ => true;
     open_sound := fun path =>
       if str_eqb path (lit "data/p115_int.wav") then Raise PraatError
       else Ok Demo.half_voiced;
     read_data := fun _ => Ok Demo.marked_grid |}.

End Demo3.

(* ===================================================================== *)
(** ** The output of the cell as a function of its inputs *)
(* ===================================================================== *)

Module Out.

Section Outputs.
Variable F : Type.
Context `{Arith F}.

(** [m] appends [rows] and [evs] and ends in [r], whatever the state it
    starts from. *)
Definition denotes {A} (m : M F A) (rows : list (Row F))
           (evs : list (Event F)) (r : result A) : Prop :=
  forall st, m st = (extend st rows evs, r).

(** [m] appends state-independent rows: all of [full] when it ends without
    an exception, and a prefix of [full] otherwise. *)
Definition yields (m : M F unit) (full : list (Row F)) : Prop :=
  exists rows evs r,
    denotes m rows evs r
    /\ (r = Ok tt -> rows = full)
    /\ exists rest, full = rows ++ rest.

(** The rows of interval [intervalIdx] of tier [tierIdx]: one per segment
    when the label passes the vowel test, the word is found and the
    segment count is defined, none otherwise. *)
Definition interval_rows (cfg : Config F) (file : str) (formant : Formant F)
           (tg : TextGrid F) (tierIdx intervalIdx : Z) : list (Row F) :=
  match peek_interval tg tierIdx intervalIdx with
  | Ok iv =>
      if is_vowel_label (text iv) then
        match get_interval_at_time tg 1 (midpoint iv) with
        | Ok wi =>
            match get_label_of_interval tg 1 wi, segment_count cfg iv with
            | Ok word, Ok n =>
                map (sample_row cfg file formant (text iv) (xmin iv) word)
                    (range 1 (n + 1))
            | _, _ => []
            end
        | Raise _ => []
        end
      else []
  | Raise _ => []
  end.

(** The rows of tier [tierIdx]: those of its intervals, in order, when its
    name is one of [phones_tiers]. *)
Definition tier_rows (cfg : Config F) (file : str) (formant : Formant F)
           (tg : TextGrid F) (tierIdx : Z) : list (Row F) :=
  match peek_tier tg tierIdx with
  | Ok tier =>
      if contains (phones_tiers cfg) (name tier) then
        flat_map (interval_rows cfg file formant tg tierIdx)
                 (range 1 (Z.of_nat (length (intervals tier)) + 1))
      else []
  | Raise _ => []
  end.

(** The rows of a grid: those of its tiers, in order. *)
Definition grid_rows (cfg : Config F) (file : str) (formant : Formant F)
           (tg : TextGrid F) : list (Row F) :=
  flat_map (tier_rows cfg file formant tg)
           (range 1 (Z.of_nat (length (tiers tg)) + 1)).

(** The rows of a directory entry: those of its grid when it is a paired
    audio file whose Sound and TextGrid can be read. *)
Definition file_rows (cfg : Config F) (w : World F) (file : str)
  : list (Row F) :=
  if paired cfg w file then
    match open_sound w (wav_path cfg ++ file),
          read_data w (textgrid_of cfg file) with
    | Ok wav, Ok tg => grid_rows cfg file (formant_of cfg wav) tg
    | _, _ => []
    end
  else [].

(** The rows of the listing: those of its entries, in order. *)
Definition all_rows (cfg : Config F) (w : World F) : list (Row F) :=
  flat_map (file_rows cfg w) (listdir w (wav_path cfg)).

(** The requests below the file level: queries to a TextGrid or a Formant
    object, never a file. *)
Definition object_query (e : Event F) : Prop :=
  match e with
  | Path_exists _ | Sound _ | To_formant_burg | Data_read _ => False
  | _ => True
  end.

(** A request that names a path names it for an entry of the listing: the
    TextGrid of an entry ending in ".wav" is tested for existence, and a
    Sound or a TextGrid is read only for a paired audio file. *)
Definition file_request (cfg : Config F) (w : World F) (e : Event F)
  : Prop :=
  match e with
  | Path_exists path =>
      exists file, In file (listdir w (wav_path cfg))
                   /\ endswith file (lit ".wav") = true
                   /\ path = textgrid_of cfg file
  | Sound path =>
      exists file, In file (listdir w (wav_path cfg))
                   /\ paired cfg w file = true
                   /\ path = wav_path cfg ++ file
  | Data_read path =>
      exists file, In file (listdir w (wav_path cfg))
                   /\ paired cfg w file = true
                   /\ path = textgrid_of cfg file
  | _ => True
  end.

(** Every run of [m] only adds requests that satisfy [P]. *)
Definition asks {A} (P : Event F -> Prop) (m : M F A) : Prop :=
  forall st, exists evs,
    calls (fst (m st)) = calls st ++ evs /\ Forall P evs.

(** The number of "Processing file" lines among printed lines. *)
Fixpoint announcements (lines : list Line) : nat :=
  match lines with
  | [] => 0
  | Processing_file _ _ :: lines' => S (announcements lines')
  | Done :: lines' => announcements lines'
  end.

End Outputs.

End Out.
Import Out.

(** More sample inputs. *)
Module Demo2.

(** A grid none of whose tiers is named "phones". *)
Definition other_names_grid : TextGrid float :=
  Build_TextGrid
    [ IntervalTier (lit "words") [ Build_Interval 0%float 4%float (lit "no") ];
      IntervalTier (lit "segments")
        [ Build_Interval 2%float 3%float (lit "o") ] ].

(** Two paired audio files with the same grid, between a text file and an
    audio file without TextGrid. *)
Definition two_pairs : World float :=
  {| listdir := fun _ =>
       [lit "notes.txt"; lit "p113_int.wav"; lit "p115_int.wav";
        lit "p120_int.wav"];
     path_exists := fun path =>
       str_eqb path (lit "data/p113_int.TextGrid")
       || str_eqb path (lit "data/p115_int.TextGrid");
     open_sound := fun _ => Ok Demo.half_voiced;
     read_data := fun _ => Ok Demo.marked_grid |}.

(** A listing without any paired audio file. *)
Definition no_pair : World float :=
  {| listdir := fun _ => [lit "notes.txt"; lit "p113_wd.wav"];
     path_exists := fun _ => false;
     open_sound := fun _ => Ok Demo.half_voiced;
     read_data := fun _ => Ok Demo.no_grid |}.

End Demo2.

(* ===================================================================== *)
(** ** Strings, slices and the vowel test *)
(* ===================================================================== *)

Lemma str_eqb_eq (a b : str) : str_eqb a b = true <-> a = b.
Proof.
  revert b; induction a as [|x a IH]; intros [|y b]; simpl; try easy.
  rewrite andb_true_iff, N.eqb_eq, IH.
  split; [intros [-> ->]; reflexivity | intros E; inversion E; auto].
Qed.

Lemma adjust_nonneg (len i : Z) : 0 <= i -> adjust len i = Z.min i len.
Proof. intros Hi; unfold adjust. destruct (Z.ltb_spec i 0); [lia | reflexivity]. Qed.

Lemma adjust_neg (len i : Z) : i < 0 -> adjust len i = Z.max 0 (i + len).
Proof. intros Hi; unfold adjust. destruct (Z.ltb_spec i 0); [reflexivity | lia]. Qed.

(** [s[:n]] for a non-negative [n] is the first [n] characters. *)
Lemma slice_prefix (s : str) (n : nat) :
  slice s None (Some (Z.of_nat n)) = firstn n s.
Proof.
  unfold slice; simpl. rewrite adjust_nonneg by lia.
  destruct (Nat.le_gt_cases n (length s)).
  - rewrite Z.min_l by lia. rewrite Nat2Z.id; reflexivity.
  - rewrite Z.min_r by lia. rewrite Nat2Z.id.
    rewrite !firstn_all2 by lia; reflexivity.
Qed.

(** [s[:-n]] drops the last [n] characters. *)
Lemma slice_drop_last (s : str) (n : nat) :
  (0 < n)%nat ->
  slice s None (Some (- Z.of_nat n)) = firstn (length s - n) s.
Proof.
  intros Hn. unfold slice; simpl. rewrite adjust_neg by lia.
  f_equal. lia.
Qed.

(** [s[a:-n]] is [s[:-n]] without its first [a] characters. *)
Lemma slice_middle (s : str) (a n : nat) :
  (0 < n)%nat ->
  slice s (Some (Z.of_nat a)) (Some (- Z.of_nat n))
  = skipn a (firstn (length s - n) s).
Proof.
  intros Hn. unfold slice. rewrite adjust_nonneg by lia.
  rewrite adjust_neg by lia.
  replace (Z.to_nat (Z.max 0 (- Z.of_nat n + Z.of_nat (length s))))
    with (length s - n)%nat by lia.
  destruct (Nat.le_gt_cases a (length s)).
  - rewrite Z.min_l by lia. rewrite Nat2Z.id; reflexivity.
  - rewrite Z.min_r by lia. rewrite Nat2Z.id.
    rewrite !skipn_all2; try reflexivity; rewrite length_firstn; lia.
Qed.

Lemma endswith_app (s suffix : str) :
  endswith s suffix = true <-> exists stem, s = stem ++ suffix.
Proof.
  unfold endswith. rewrite andb_true_iff, Nat.leb_le, str_eqb_eq. split.
  - intros [Hlen Hs]. exists (firstn (length s - length suffix) s).
    rewrite <- (firstn_skipn (length s - length suffix) s) at 1.
    f_equal; exact Hs.
  - intros [stem ->]. rewrite length_app. split; [lia|].
    replace (length stem + length suffix - length suffix)%nat
      with (length stem + 0)%nat by lia.
    rewrite skipn_app, skipn_all2 by lia.
    replace (length stem + 0 - length stem)%nat with 0%nat by lia.
    reflexivity.
Qed.

(** The stem of a name that ends in a four-character extension. *)
Lemma stem_of_app (stem ext : str) :
  length ext = 4%nat -> slice (stem ++ ext) None (Some (-4)) = stem.
Proof.
  intros Hext. change (-4) with (- Z.of_nat 4).
  rewrite slice_drop_last by lia. rewrite length_app, Hext.
  replace (length stem + 4 - 4)%nat with (length stem + 0)%nat by lia.
  rewrite firstn_app_2. simpl. apply app_nil_r.
Qed.

Lemma length_range (lo hi : Z) : length (range lo hi) = Z.to_nat (hi - lo).
Proof. unfold range. rewrite length_map, length_seq; reflexivity. Qed.

Lemma range_count (n : Z) : length (range 1 (n + 1)) = Z.to_nat n.
Proof. rewrite length_range. f_equal; lia. Qed.

Lemma nth_error_range (lo hi : Z) (i : nat) :
  (i < Z.to_nat (hi - lo))%nat ->
  nth_error (range lo hi) i = Some (lo + Z.of_nat i).
Proof.
  intros Hi. unfold range. rewrite nth_error_map.
  rewrite nth_error_seq. destruct (Nat.ltb_spec i (Z.to_nat (hi - lo))); [|lia].
  reflexivity.
Qed.

Lemma in_range (lo hi k : Z) : In k (range lo hi) <-> lo <= k < hi.
Proof.
  unfold range. rewrite in_map_iff. split.
  - intros (i & <- & Hi). apply in_seq in Hi. lia.
  - intros Hk. exists (Z.to_nat (k - lo)). split; [lia|].
    apply in_seq. lia.
Qed.

(** Past position 0 the anchored pattern matches nowhere. *)
Lemma scan_vowel_pattern_later (s : str) (fuel pos : nat) :
  scan vowel_pattern s (S pos) fuel = None.
Proof.
  revert pos; induction fuel as [|fuel IH]; intros pos; simpl; [reflexivity|].
  apply IH.
Qed.

(** The optional [+] never makes a match fail. *)
Lemma optional_plus_matches (s : str) (pos : nat) :
  match_here (Max_repeat_0_1 (Literal plus_sign)) s pos Some <> None.
Proof.
  simpl. destruct (nth_error s pos) as [c|]; [|discriminate].
  destruct (N.eqb c plus_sign); discriminate.
Qed.

(** The test of the cell, read off the matcher: the label has a first
    character and it is a member of the bracketed set. *)
Lemma is_vowel_label_first (label : str) :
  is_vowel_label label = true <->
  exists c rest, label = c :: rest /\ In c (lit "a,e,i,o,u,j,w").
Proof.
  unfold is_vowel_label, search. split.
  - destruct label as [|c rest]; [discriminate|].
    intros Hm. exists c, rest. split; [reflexivity|].
    cbn [truthy andb scan] in Hm.
    destruct (match_here vowel_pattern (c :: rest) 0 Some) eqn:E.
    + cbn in E.
      destruct (existsb (N.eqb c) (lit "a,e,i,o,u,j,w")) eqn:Ex;
        [|cbn in Ex; rewrite Ex in E; discriminate].
      apply existsb_exists in Ex. destruct Ex as (x & Hx & Hcx).
      apply N.eqb_eq in Hcx; subst x; exact Hx.
    + rewrite scan_vowel_pattern_later in Hm. discriminate.
  - intros (c & rest & -> & Hc).
    assert (Ex : existsb (N.eqb c) (lit "a,e,i,o,u,j,w") = true).
    { apply existsb_exists. exists c. split; [exact Hc | apply N.eqb_refl]. }
    cbn [truthy andb scan].
    destruct (match_here vowel_pattern (c :: rest) 0 Some) eqn:E;
      [reflexivity|].
    exfalso. cbn [vowel_pattern match_here Nat.eqb nth_error] in E.
    rewrite Ex in E.
    exact (optional_plus_matches (c :: rest) 1 E).
Qed.

(** The members of the bracketed set: the seven letters, and the comma. *)
Lemma bracket_members (c : char) :
  In c (lit "a,e,i,o,u,j,w") <-> In c vowel_chars \/ c = N_of_ascii ","%char.
Proof. cbn. intuition. Qed.

Lemma vowel_label_nonempty (label : str) :
  is_vowel_label label = true -> truthy label = true.
Proof. unfold is_vowel_label. intros Hv; apply andb_true_iff in Hv; tauto. Qed.

Lemma item_first (label : str) :
  truthy label = true -> item label 0 = Ok (firstn 1 label).
Proof. destruct label; [discriminate | reflexivity]. Qed.

(* ===================================================================== *)
(** ** Runs: what a statement appends *)
(* ===================================================================== *)

Section Frame.
Variable F : Type.
Implicit Types (st : State F) (rows : list (Row F)) (evs : list (Event F)).

Lemma extend_nil st : extend st [] [] = st.
Proof. destruct st; unfold extend; simpl. rewrite !app_nil_r; reflexivity. Qed.

Lemma extend_extend st rows evs rows' evs' :
  extend (extend st rows evs) rows' evs'
  = extend st (rows ++ rows') (evs ++ evs').
Proof. unfold extend; simpl. rewrite !app_assoc; reflexivity. Qed.

Lemma grows_refl R P st : grows R P st st.
Proof. exists [], []. rewrite extend_nil. auto. Qed.

Lemma grows_trans R P st1 st2 st3 :
  grows R P st1 st2 -> grows R P st2 st3 -> grows R P st1 st3.
Proof.
  intros (r1 & e1 & -> & HR1 & HP1) (r2 & e2 & -> & HR2 & HP2).
  exists (r1 ++ r2), (e1 ++ e2). rewrite extend_extend.
  repeat split; apply Forall_app; auto.
Qed.

Lemma grows_weaken (R R' : Row F -> Prop) (P P' : Event F -> Prop) st st' :
  (forall r, R r -> R' r) -> (forall e, P e -> P' e) ->
  grows R P st st' -> grows R' P' st st'.
Proof.
  intros HR HP (rows & evs & -> & H1 & H2). exists rows, evs.
  repeat split; eapply Forall_impl; eauto.
Qed.

Lemma steps_ret {A} R P (a : A) : steps R P (ret (F := F) a).
Proof. intros st. apply grows_refl. Qed.

Lemma steps_lift {A} R P (r : result A) : steps R P (lift (F := F) r).
Proof. intros st. apply grows_refl. Qed.

Lemma steps_request {A} R (P : Event F -> Prop) e (r : result A) :
  P e -> steps R P (request e r).
Proof.
  intros He st. exists [], [e]. unfold extend; simpl. rewrite app_nil_r. auto.
Qed.

Lemma steps_bind {A B} R P (m : M F A) (k : A -> M F B) :
  steps R P m ->
  (forall a st, snd (m st) = Ok a -> grows R P (fst (m st)) (fst (k a (fst (m st))))) ->
  steps R P (bind m k).
Proof.
  intros Hm Hk st. unfold bind. specialize (Hm st).
  assert (Hk' := fun a => Hk a st).
  destruct (m st) as [st' [a|e]]; simpl in *; [|exact Hm].
  eapply grows_trans; [exact Hm | apply Hk'; reflexivity].
Qed.

Lemma steps_seq {A B} R P (m : M F A) (k : A -> M F B) :
  steps R P m -> (forall a, steps R P (k a)) -> steps R P (bind m k).
Proof. intros Hm Hk. apply steps_bind; [exact Hm | intros a st _; apply Hk]. Qed.

(** After a request, the rest runs on the answer that was given. *)
Lemma steps_request_bind {A B} R (P : Event F -> Prop) e (r : result A)
      (k : A -> M F B) :
  P e -> (forall a, r = Ok a -> steps R P (k a)) ->
  steps R P (bind (request e r) k).
Proof.
  intros He Hk. apply steps_bind; [apply steps_request; exact He|].
  intros a st Ha. apply Hk. exact Ha.
Qed.

Lemma steps_lift_bind {A B} R P (r : result A) (k : A -> M F B) :
  (forall a, r = Ok a -> steps R P (k a)) -> steps R P (bind (lift r) k).
Proof.
  intros Hk. apply steps_bind; [apply steps_lift|].
  intros a st Ha. apply Hk. exact Ha.
Qed.

Lemma steps_for_each {X} R P (l : list X) (body : X -> M F unit) :
  (forall x, In x l -> steps R P (body x)) -> steps R P (for_each l body).
Proof.
  induction l as [|x l IH]; intros Hb; simpl.
  - apply steps_ret.
  - apply steps_seq; [apply Hb; left; reflexivity|].
    intros _. apply IH. intros y Hy; apply Hb; right; exact Hy.
Qed.

End Frame.

(** Passing one request, or one pure step, of a body under [steps]: the
    side condition on the request is closed and the answer is named. *)
Ltac ask x Hx :=
  apply steps_request_bind; [first [exact I | reflexivity] |]; intros x Hx.
Ltac pure x Hx := apply steps_lift_bind; intros x Hx.

(* ===================================================================== *)
(** ** The segment loop and the interval step *)
(* ===================================================================== *)

Section Token.
Variable F : Type.
Context `{Arith F}.
Variables (cfg : Config F) (file : str) (formant : Formant F).

Lemma segment_step_run label start word k (st : State F) :
  truthy label = true ->
  segment_step cfg file formant label start word k st
  = (extend st [sample_row cfg file formant label start word k]
            (sample_calls cfg start k), Ok tt).
Proof.
  intros Hl. unfold segment_step, bind, request, lift, append.
  cbn. rewrite (item_first label Hl). cbn. unfold extend; cbn.
  rewrite <- !app_assoc. reflexivity.
Qed.

(** The whole loop appends one row per index, in order, and does not fail. *)
Lemma segment_loop_run label start word ks (st : State F) :
  truthy label = true ->
  for_each ks (segment_step cfg file formant label start word) st
  = (extend st (map (sample_row cfg file formant label start word) ks)
            (flat_map (sample_calls cfg start) ks), Ok tt).
Proof.
  intros Hl. revert st; induction ks as [|k ks IH]; intros st.
  - simpl. unfold ret. rewrite extend_nil. reflexivity.
  - cbn [for_each]. unfold bind. rewrite segment_step_run by exact Hl.
    rewrite IH, extend_extend. reflexivity.
Qed.

Variable tg : TextGrid F.

Lemma peek_interval_queries tierIdx intervalIdx iv :
  peek_interval tg tierIdx intervalIdx = Ok iv ->
  get_label_of_interval tg tierIdx intervalIdx = Ok (text iv)
  /\ get_starting_point tg tierIdx intervalIdx = Ok (xmin iv)
  /\ get_end_point tg tierIdx intervalIdx = Ok (xmax iv).
Proof.
  intros Hp. unfold get_label_of_interval, get_starting_point, get_end_point.
  rewrite Hp. auto.
Qed.

(** An interval whose label fails the test: one request, nothing else. *)
Lemma interval_step_other tierIdx intervalIdx iv (st : State F) :
  peek_interval tg tierIdx intervalIdx = Ok iv ->
  is_vowel_label (text iv) = false ->
  interval_step cfg file formant tg tierIdx intervalIdx st
  = (extend st [] [Get_label_of_interval tierIdx intervalIdx], Ok tt).
Proof.
  intros Hp Hv. destruct (peek_interval_queries _ _ Hp) as (Hl & _ & _).
  unfold interval_step, bind, request. rewrite Hl, Hv.
  unfold ret, extend; cbn. rewrite app_nil_r. reflexivity.
Qed.

(** A vowel interval whose word is found: the five requests, then the
    loop. *)
Lemma interval_step_vowel tierIdx intervalIdx iv wi word n (st : State F) :
  peek_interval tg tierIdx intervalIdx = Ok iv ->
  is_vowel_label (text iv) = true ->
  get_interval_at_time tg 1 (midpoint iv) = Ok wi ->
  get_label_of_interval tg 1 wi = Ok word ->
  segment_count cfg iv = Ok n ->
  interval_step cfg file formant tg tierIdx intervalIdx st
  = (extend st
       (map (sample_row cfg file formant (text iv) (xmin iv) word)
            (range 1 (n + 1)))
       (token_calls tierIdx intervalIdx iv wi
        ++ flat_map (sample_calls cfg (xmin iv)) (range 1 (n + 1))),
     Ok tt).
Proof.
  intros Hp Hv Hwi Hword Hn.
  destruct (peek_interval_queries _ _ Hp) as (Hl & Hs & He).
  unfold segment_count in Hn.
  destruct (truediv (sub (xmax iv) (xmin iv)) (segment_window cfg))
    as [q|] eqn:Hq; [|discriminate].
  unfold interval_step, bind, request, lift. rewrite Hl, Hv, Hs, He.
  cbn. unfold truediv at 1. rewrite two_is_not_zero. cbn.
  fold (midpoint iv). rewrite Hwi, Hword. cbn. rewrite Hq, Hn.
  rewrite segment_loop_run by (apply vowel_label_nonempty; exact Hv).
  unfold extend, token_calls; cbn. rewrite <- !app_assoc. reflexivity.
Qed.

(** A vowel interval whose word lookup is refused: the requests up to the
    refusal, no row, and the exception. *)
Lemma interval_step_refused tierIdx intervalIdx iv wi e (st : State F) :
  peek_interval tg tierIdx intervalIdx = Ok iv ->
  is_vowel_label (text iv) = true ->
  get_interval_at_time tg 1 (midpoint iv) = Ok wi ->
  get_label_of_interval tg 1 wi = Raise e ->
  interval_step cfg file formant tg tierIdx intervalIdx st
  = (extend st [] (token_calls tierIdx intervalIdx iv wi), Raise e).
Proof.
  intros Hp Hv Hwi Hword.
  destruct (peek_interval_queries _ _ Hp) as (Hl & Hs & He).
  unfold interval_step, bind, request, lift. rewrite Hl, Hv, Hs, He.
  cbn. unfold truediv at 1. rewrite two_is_not_zero. cbn.
  fold (midpoint iv). rewrite Hwi, Hword. cbn.
  unfold extend, token_calls; cbn. rewrite app_nil_r, <- !app_assoc.
  reflexivity.
Qed.

End Token.

(* ===================================================================== *)
(** ** What each loop body appends, whatever its outcome *)
(* ===================================================================== *)

Section Loops.
Variable F : Type.
Context `{Arith F}.
Variables (cfg : Config F) (file : str).

Lemma interval_step_steps formant tg tierIdx intervalIdx :
  steps (token_row cfg file formant tg tierIdx intervalIdx)
        (@on_first_tier F)
        (interval_step cfg file formant tg tierIdx intervalIdx).
Proof.
  unfold interval_step.
  ask label Hlabel.
  destruct (is_vowel_label label) eqn:Hv; [|apply steps_ret].
  ask start Hstart.
  ask end_ Hend.
  assert (Hiv : exists iv, peek_interval tg tierIdx intervalIdx = Ok iv
                  /\ label = text iv /\ start = xmin iv /\ end_ = xmax iv).
  { unfold get_label_of_interval, get_starting_point, get_end_point in *.
    destruct (peek_interval tg tierIdx intervalIdx) as [iv|]; [|discriminate].
    exists iv. inversion Hlabel; inversion Hstart; inversion Hend. auto. }
  destruct Hiv as (iv & Hp & -> & -> & ->).
  pure mid Hmid.
  unfold truediv in Hmid. rewrite two_is_not_zero in Hmid.
  inversion Hmid; subst mid. fold (midpoint iv).
  ask wi Hwi.
  ask word Hword.
  pure q Hq.
  pure n Hn.
  apply steps_for_each. intros k Hk. apply in_range in Hk.
  intros st. rewrite segment_step_run by (apply vowel_label_nonempty; exact Hv).
  exists [sample_row cfg file formant (text iv) (xmin iv) word k],
         (sample_calls cfg (xmin iv) k).
  split; [reflexivity|]. split.
  - constructor; [|constructor].
    exists iv, wi, word, n, k. repeat split; try assumption; try lia.
    unfold segment_count. rewrite Hq. exact Hn.
  - repeat constructor.
Qed.

Lemma tier_step_steps formant tg tierIdx :
  steps (fun r => exists tier intervalIdx,
             peek_tier tg tierIdx = Ok tier
             /\ contains (phones_tiers cfg) (name tier) = true
             /\ token_row cfg file formant tg tierIdx intervalIdx r)
        (@on_first_tier F)
        (tier_step cfg file formant tg tierIdx).
Proof.
  unfold tier_step.
  ask tierName Hname.
  destruct (contains (phones_tiers cfg) tierName) eqn:Hin; [|apply steps_ret].
  unfold get_tier_name in Hname.
  destruct (peek_tier tg tierIdx) as [tier|] eqn:Ht; [|discriminate].
  inversion Hname; subst tierName.
  ask numIntervals Hnum.
  apply steps_for_each. intros intervalIdx _ st.
  eapply grows_weaken; [| |apply interval_step_steps].
  - intros r Hr. exists tier, intervalIdx. auto.
  - auto.
Qed.

End Loops.

(* ===================================================================== *)
(** ** The file loop and the whole cell *)
(* ===================================================================== *)

Section Files.
Variable F : Type.
Context `{Arith F}.
Variables (cfg : Config F) (w : World F).

(** A file that is not a paired audio file: no row, no line, no exception;
    at most the test for its TextGrid is recorded. *)
Lemma file_step_skip file (st : State F) :
  paired cfg w file = false ->
  exists evs,
    file_step cfg w file st = (extend st [] evs, Ok tt)
    /\ Forall (@on_first_tier F) evs.
Proof.
  unfold paired, file_step. intros Hp.
  destruct (endswith file (lit ".wav")); simpl in Hp.
  - exists [Path_exists (textgrid_of cfg file)].
    unfold bind, request. rewrite Hp. unfold ret, extend; cbn.
    rewrite app_nil_r. split; [reflexivity | repeat constructor].
  - exists []. unfold ret. rewrite extend_nil. split; [reflexivity | constructor].
Qed.

(** A paired audio file: its line is printed, the counter advances, and
    rows of that file are appended until the end or an exception. *)
Lemma file_step_paired file (st : State F) :
  paired cfg w file = true ->
  exists rows evs r,
    file_step cfg w file st = (extend (announced file st) rows evs, r)
    /\ Forall (file_row cfg w file) rows
    /\ Forall (@on_first_tier F) evs.
Proof.
  intros Hp. pose proof Hp as Hp'. unfold paired in Hp'.
  apply andb_true_iff in Hp'. destruct Hp' as [Hwav Hex].
  unfold file_step. rewrite Hwav.
  unfold bind at 1. unfold request at 1. rewrite Hex.
  unfold bind at 1. unfold read_file_counter at 1.
  unfold bind at 1. unfold print at 1.
  unfold bind at 1. unfold write_file_counter at 1.
  cbn [data file_counter stdout calls].
  match goal with |- context [ ?m ?s = _ ] =>
    match m with bind _ _ =>
      assert (Hsteps : steps (file_row cfg w file) (@on_first_tier F) m)
    end
  end.
  { ask wav Hwavobj.
    ask formant Hformant.
    inversion Hformant; subst formant. fold (formant_of cfg wav).
    ask tg Htg.
    ask numTiers Hnum.
    apply steps_for_each. intros tierIdx _ st'.
    eapply grows_weaken; [| |apply tier_step_steps].
    - intros r (tier & intervalIdx & Ht & Hin & Hrow).
      exists wav, tg, tier, tierIdx, intervalIdx. auto 10.
    - auto. }
  match goal with |- context [ ?m ?s = _ ] =>
    match m with bind _ _ =>
      destruct (Hsteps s) as (rows & evs & Hst & HR & HP);
      destruct (m s) as [st' r] eqn:Hrun
    end
  end.
  simpl in Hst. subst st'.
  exists rows, (Path_exists (textgrid_of cfg file) :: evs), r.
  split; [|split; [exact HR | constructor; [exact I | exact HP]]].
  f_equal. unfold extend, announced; cbn. rewrite <- app_assoc. reflexivity.
Qed.

Lemma file_loop_run files (st : State F) :
  exists rows evs j r,
    for_each files (file_step cfg w) st
    = (advanced (filter (paired cfg w) files) j rows evs st, r)
    /\ Forall (fun row => exists file, In file files /\ file_row cfg w file row)
              rows
    /\ Forall (@on_first_tier F) evs
    /\ (j <= length (filter (paired cfg w) files))%nat
    /\ (r = Ok tt -> j = length (filter (paired cfg w) files)).
Proof.
  revert st; induction files as [|file files IH]; intros st.
  - exists [], [], 0%nat, (Ok tt). simpl. unfold ret, advanced; simpl.
    rewrite Z.add_0_r, !app_nil_r. destruct st; simpl. auto.
  - cbn [for_each filter]. unfold bind.
    destruct (paired cfg w file) eqn:Hp.
    + destruct (file_step_paired file st Hp) as (rows & evs & r & Hrun & HR & HP).
      rewrite Hrun. destruct r as [[]|e].
      * destruct (IH (extend (announced file st) rows evs))
          as (rows' & evs' & j & r' & Hrun' & HR' & HP' & Hj & Hok).
        rewrite Hrun'.
        exists (rows ++ rows'), (evs ++ evs'), (S j), r'.
        split; [|split; [|split; [|split]]].
        -- f_equal. unfold advanced, extend, announced; cbn.
           rewrite <- !app_assoc. f_equal. lia.
        -- apply Forall_app; split.
           ++ eapply Forall_impl; [|exact HR]. intros r Hr.
              exists file; split; [left; reflexivity | exact Hr].
           ++ eapply Forall_impl; [|exact HR']. intros r (f & Hf & Hr).
              exists f; split; [right; exact Hf | exact Hr].
        -- apply Forall_app; auto.
        -- simpl; lia.
        -- intros E. simpl. f_equal. auto.
      * exists rows, evs, 1%nat, (Raise e).
        split; [|split; [|split; [|split]]].
        -- f_equal.
        -- eapply Forall_impl; [|exact HR]. intros r Hr.
           exists file; split; [left; reflexivity | exact Hr].
        -- exact HP.
        -- simpl; lia.
        -- discriminate.
    + destruct (file_step_skip file st Hp) as (evs & Hrun & HP). rewrite Hrun.
      destruct (IH (extend st [] evs))
        as (rows' & evs' & j & r' & Hrun' & HR' & HP' & Hj & Hok).
      rewrite Hrun'. exists rows', (evs ++ evs'), j, r'.
      split; [|split; [|split; [|split]]]; auto.
      * f_equal. unfold advanced, extend; cbn. rewrite <- !app_assoc.
        reflexivity.
      * eapply Forall_impl; [|exact HR']. intros r (f & Hf & Hr).
        exists f; split; [right; exact Hf | exact Hr].
      * apply Forall_app; split; assumption.
Qed.

(** The whole cell: [data] holds rows of files of the listing only, every
    time lookup went to the first tier, and the lines printed are those of
    the paired files, in the order of the listing, then "Done" unless an
    exception stopped the run. *)
Lemma extract_formants_run (st : State F) :
  exists rows evs j r,
    extract_formants cfg w st
    = ({| data := rows;
          file_counter := 1 + Z.of_nat j;
          stdout := stdout st
                    ++ progress 1 (firstn j (filter (paired cfg w)
                                                    (listdir w (wav_path cfg))))
                    ++ match r with Ok _ => [Done] | Raise _ => [] end;
          calls := calls st ++ evs |}, r)
    /\ Forall (batch_row cfg w) rows
    /\ Forall (@on_first_tier F) evs
    /\ (j <= length (filter (paired cfg w) (listdir w (wav_path cfg))))%nat
    /\ (r = Ok tt
        -> j = length (filter (paired cfg w) (listdir w (wav_path cfg)))).
Proof.
  unfold extract_formants.
  unfold bind at 1. unfold reset_data at 1.
  unfold bind at 1. unfold write_file_counter at 1.
  cbn [data file_counter stdout calls].
  match goal with |- context [ for_each ?l ?b ] =>
    match goal with |- context [ bind (for_each l b) ?k ?s ] =>
      destruct (file_loop_run l s)
        as (rows & evs & j & r & Hrun & HR & HP & Hj & Hok);
      unfold bind; rewrite Hrun
    end
  end.
  exists rows, evs, j, r. unfold advanced; cbn.
  split; [|auto].
  destruct r as [[]|e]; unfold print; cbn; rewrite <- ?app_assoc, ?app_nil_r;
    reflexivity.
Qed.

End Files.

(* ===================================================================== *)
(** ** Exact arithmetic: truncation and sample times *)
(* ===================================================================== *)

Section Exact.
Local Open Scope Q_scope.

(** As a number of loop iterations, truncation and floor agree. *)
Lemma Qtruncate_floor (q : Q) : Z.to_nat (Qtruncate q) = Z.to_nat (Qfloor q).
Proof.
  destruct q as [a d]. unfold Qtruncate, Qfloor; simpl.
  destruct (Z.le_gt_cases 0 a) as [Ha|Ha].
  - rewrite Z.quot_div_nonneg by lia. reflexivity.
  - assert (Z.quot a (Z.pos d) <= 0)%Z.
    { rewrite <- (Z.opp_involutive a), Z.quot_opp_l by lia.
      assert (0 <= Z.quot (- a) (Z.pos d))%Z by (apply Z.quot_pos; lia). lia. }
    assert (a / Z.pos d < 0)%Z by (apply Z.div_lt_upper_bound; lia).
    lia.
Qed.


Lemma Qtruncate_below_one (q : Q) : q < 1 -> Z.to_nat (Qtruncate q) = 0%nat.
Proof.
  intros Hq. rewrite Qtruncate_floor.
  assert (Qfloor q < 1)%Z.
  { destruct (Z.lt_ge_cases (Qfloor q) 1) as [Hlt|Hge]; [exact Hlt|].
    exfalso. assert (H1 : inject_Z 1 <= q).
    { eapply Qle_trans; [|apply Qfloor_le].
      rewrite <- Zle_Qle. exact Hge. }
    change (inject_Z 1) with 1 in H1. apply (Qlt_irrefl q).
    eapply Qlt_le_trans; eassumption. }
  lia.
Qed.

Variable cfg : Config Q.
Hypothesis window_positive : 0 < segment_window cfg.

Lemma window_nonzero : is_zero (segment_window cfg) = false.
Proof.
  cbn. destruct (Qeq_bool (segment_window cfg) 0) eqn:E; [|reflexivity].
  apply Qeq_bool_eq in E. rewrite E in window_positive.
  exfalso; exact (Qlt_irrefl 0 window_positive).
Qed.

Lemma exact_segment_count (iv : Interval Q) :
  segment_count cfg iv
  = Ok (Qtruncate ((xmax iv - xmin iv) / segment_window cfg)).
Proof.
  unfold segment_count, truediv. rewrite window_nonzero. reflexivity.
Qed.


Lemma quotient_below_one (dur : Q) :
  dur < segment_window cfg -> dur / segment_window cfg < 1.
Proof.
  intros Hlt. apply Qlt_shift_div_r; [exact window_positive|].
  rewrite Qmult_1_l. exact Hlt.
Qed.

(** Sample times grow with the segment index. *)
Lemma spot_of_increasing (start : Q) (j k : Z) :
  (j < k)%Z -> spot_of cfg start j < spot_of cfg start k.
Proof.
  intros Hjk. unfold spot_of; cbn.
  apply Qplus_lt_r. apply Qmult_lt_compat_r; [exact window_positive|].
  rewrite <- Zlt_Qlt. exact Hjk.
Qed.

Lemma spot_of_first (start : Q) :
  spot_of cfg start 1 == start + segment_window cfg.
Proof. unfold spot_of; cbn. ring. Qed.

Lemma spot_of_after_start (start : Q) (k : Z) :
  (1 <= k)%Z -> start < spot_of cfg start k.
Proof.
  intros Hk. unfold spot_of; cbn.
  rewrite <- (Qplus_0_r start) at 1. apply Qplus_lt_r.
  apply Qmult_lt_0_compat; [|exact window_positive].
  change 0 with (inject_Z 0). rewrite <- Zlt_Qlt. lia.
Qed.

End Exact.

(* ===================================================================== *)
(** ** The vowel test and the Vowel field (C1, C6) *)
(* ===================================================================== *)

(** C1. The claim reads the vowel test as: a token is produced if and only
    if the label starts with one of the seven characters a, e, i, o, u, j,
    w. The test of the cell accepts one more first character, the comma
    that separates the letters inside the brackets of its pattern: a label
    passes exactly when its first character is one of the seven or a
    comma, whatever follows. So the test is not the one the claim states:
    the label "," passes, and on a phone tier it yields rows whose Vowel is
    ",". The labels "p", "" and "A" do not pass, and an interval whose
    label does not pass yields no row. *)
Theorem C1_comma_passes_the_vowel_test :
  (forall label,
      is_vowel_label label = true <->
      exists c rest,
        label = c :: rest /\ (In c vowel_chars \/ c = N_of_ascii ","%char))
  /\ ~ (forall label,
          is_vowel_label label = true <-> starts_with_vowel_char label)
  /\ is_vowel_label (lit ",") = true
  /\ ~ starts_with_vowel_char (lit ",")
  /\ is_vowel_label (lit "p") = false
  /\ is_vowel_label (lit "") = false
  /\ is_vowel_label (lit "A") = false
  /\ map (@Vowel float)
         (data (fst (interval_step (Demo.every 0.5%float) (lit "p113_int.wav")
                                   Demo.half_voiced_formant Demo.comma_grid
                                   2 1 (fresh float))))
     = [lit ","; lit ","]
  /\ (forall (F : Type) (A : Arith F) (cfg : Config F) (file : str)
             (formant : Formant F) (tg : TextGrid F) (tierIdx intervalIdx : Z)
             (iv : Interval F) (st : State F),
         peek_interval tg tierIdx intervalIdx = Ok iv ->
         is_vowel_label (text iv) = false ->
         interval_step cfg file formant tg tierIdx intervalIdx st
         = (extend st [] [Get_label_of_interval tierIdx intervalIdx], Ok tt)).
Proof.
  assert (Hcomma : ~ starts_with_vowel_char (lit ",")).
  { intros (c & rest & E & Hc). injection E as <- _.
    cbn in Hc. intuition discriminate. }
  split; [|split; [|split; [|split; [|split; [|split; [|split; [|split]]]]]]].
  - intros label. rewrite is_vowel_label_first.
    split; intros (c & rest & E & Hc); exists c, rest; split; auto;
      apply bracket_members; exact Hc.
  - intros Hclaim. apply Hcomma. apply Hclaim. reflexivity.
  - reflexivity.
  - exact Hcomma.
  - reflexivity.
  - reflexivity.
  - reflexivity.
  - vm_compute. reflexivity.
  - intros F A cfg file formant tg tierIdx intervalIdx iv st Hp Hv.
    apply (interval_step_other cfg file formant tg tierIdx intervalIdx st Hp Hv).
Qed.

(** C6. For an interval whose label passes the vowel test, every row the
    interval step appends has as its Vowel exactly the first character of
    the label; when the word lookup succeeds there are [int(dur /
    segment_window)] such rows. So "o", "o+" and "e12" give "o", "o" and
    "e". *)
Theorem C6_vowel_is_first_character :
  forall (F : Type) (A : Arith F) (cfg : Config F) (file : str)
         (formant : Formant F) (tg : TextGrid F) (tierIdx intervalIdx : Z)
         (iv : Interval F) (st : State F),
    peek_interval tg tierIdx intervalIdx = Ok iv ->
    is_vowel_label (text iv) = true ->
    (exists rows evs,
        fst (interval_step cfg file formant tg tierIdx intervalIdx st)
        = extend st rows evs
        /\ Forall (fun r => Vowel r = firstn 1 (text iv)
                            /\ exists rest, text iv = Vowel r ++ rest) rows)
    /\ (forall wi word n,
           get_interval_at_time tg 1 (midpoint iv) = Ok wi ->
           get_label_of_interval tg 1 wi = Ok word ->
           segment_count cfg iv = Ok n ->
           map (@Vowel F)
               (data (fst (interval_step cfg file formant tg tierIdx
                                         intervalIdx st)))
           = map (@Vowel F) (data st)
             ++ repeat (firstn 1 (text iv)) (Z.to_nat n))
    /\ firstn 1 (lit "o") = lit "o"
    /\ firstn 1 (lit "o+") = lit "o"
    /\ firstn 1 (lit "e12") = lit "e".
Proof.
  intros F A cfg file formant tg tierIdx intervalIdx iv st Hp Hv.
  split; [|split; [|repeat split]].
  - destruct (interval_step_steps cfg file formant tg tierIdx intervalIdx st)
      as (rows & evs & Hst & HR & _).
    exists rows, evs. split; [exact Hst|].
    eapply Forall_impl; [|exact HR].
    intros r (iv' & wi & word & n & k & Hp' & _ & _ & _ & _ & _ & ->).
    rewrite Hp in Hp'. inversion Hp'; subst iv'.
    split; [reflexivity|]. exists (skipn 1 (text iv)).
    symmetry; exact (firstn_skipn 1 (text iv)).
  - intros wi word n Hwi Hword Hn.
    rewrite (interval_step_vowel cfg file formant tg tierIdx intervalIdx
               st Hp Hv Hwi Hword Hn).
    cbn. rewrite map_app, map_map. f_equal.
    rewrite <- range_count.
    induction (range 1 (n + 1)) as [|k ks IH]; [reflexivity|].
    cbn. f_equal. exact IH.
Qed.

(** The labels "o+" and "e12" of a phone tier: one row each, with Vowel
    "o" and "e"; "p" gives none. *)
Lemma C6_witness :
  (exists rows evs,
      fst (interval_step (Demo.every 1%float) (lit "p113_int.wav")
                         Demo.half_voiced_formant Demo.marked_grid 2 2
                         (fresh float))
      = extend (fresh float) rows evs
      /\ Forall (fun r => Vowel r = firstn 1 (lit "o+")
                          /\ exists rest, lit "o+" = Vowel r ++ rest) rows)
  /\ map (@Vowel float)
         (data (fst (interval_step (Demo.every 1%float) (lit "p113_int.wav")
                                   Demo.half_voiced_formant Demo.marked_grid
                                   2 2 (fresh float))))
     = [lit "o"].
Proof.
  pose proof (@C6_vowel_is_first_character float binary64
                (Demo.every 1%float) (lit "p113_int.wav")
                Demo.half_voiced_formant Demo.marked_grid 2 2
                (Build_Interval 2%float 3%float (lit "o+"))
                (fresh float) eq_refl eq_refl) as (H1 & H2 & _).
  split; [exact H1|].
  exact (H2 1 (lit "no") 1 eq_refl eq_refl eq_refl).
Defined.

(* ===================================================================== *)
(** ** The time lookup of an interval tier *)
(* ===================================================================== *)

Lemma peek_in_range {X} (l : list X) (k : Z) :
  1 <= k <= Z.of_nat (length l) -> exists a, peek l k = Ok a /\ In a l.
Proof.
  intros Hk. unfold peek. destruct (Z.ltb_spec k 1); [lia|].
  destruct (nth_error l (Z.to_nat (k - 1))) as [a|] eqn:E.
  - exists a. split; [reflexivity|]. eapply nth_error_In; eassumption.
  - apply nth_error_None in E. lia.
Qed.

Lemma peek_ok_range {X} (l : list X) (k : Z) (a : X) :
  peek l k = Ok a ->
  1 <= k <= Z.of_nat (length l) /\ nth_error l (Z.to_nat (k - 1)) = Some a.
Proof.
  unfold peek. destruct (Z.ltb_spec k 1); [discriminate|].
  destruct (nth_error l (Z.to_nat (k - 1))) as [a'|] eqn:E; [|discriminate].
  intros E'. injection E' as ->. split; [|reflexivity].
  assert (Hlt : (Z.to_nat (k - 1) < length l)%nat)
    by (apply nth_error_Some; congruence).
  lia.
Qed.

Lemma peek_first {X} (a : X) (l : list X) : peek (a :: l) 1 = Ok a.
Proof. reflexivity. Qed.

Lemma nth_error_last {X} (l : list X) (a d : X) :
  nth_error (a :: l) (length l) = Some (last (a :: l) d).
Proof.
  revert a. induction l as [|b l IH]; intros a; [reflexivity|].
  change (nth_error (a :: b :: l) (length (b :: l)))
    with (nth_error (b :: l) (length l)).
  rewrite IH. reflexivity.
Qed.

Lemma peek_last {X} (a : X) (l : list X) :
  peek (a :: l) (Z.of_nat (length (a :: l))) = Ok (last (a :: l) a).
Proof.
  unfold peek. destruct (Z.ltb_spec (Z.of_nat (length (a :: l))) 1) as [Hlt|_].
  { simpl length in Hlt. lia. }
  replace (Z.to_nat (Z.of_nat (length (a :: l)) - 1)) with (length l)
    by (simpl length; lia).
  rewrite (nth_error_last l a a). reflexivity.
Qed.

Section Search.
Variable F : Type.
Context `{Arith F}.

(** The search ends between its bounds, on an interval whose predecessor,
    if the search passed it, ends at or before the time, and which itself,
    if the search stopped short of its right bound, ends after the time. *)
Lemma bisect_spec (l : list (Interval F)) (t : F) (fuel : nat) :
  forall ileft iright,
    1 <= ileft -> ileft <= iright -> iright <= Z.of_nat (length l) ->
    (Z.to_nat (iright - ileft) <= fuel)%nat ->
    ileft <= bisect l t ileft iright fuel <= iright
    /\ (forall a, ileft < bisect l t ileft iright fuel ->
                  peek l (bisect l t ileft iright fuel - 1) = Ok a ->
                  lt t (xmax a) = false)
    /\ (forall a, bisect l t ileft iright fuel < iright ->
                  peek l (bisect l t ileft iright fuel) = Ok a ->
                  lt t (xmax a) = true).
Proof.
  induction fuel as [|fuel IH]; intros ileft iright H1 H2 H3 Hfuel.
  - simpl. assert (iright = ileft) by lia. subst iright.
    split; [lia|]. split; intros a Hlt; lia.
  - cbn [bisect]. destruct (Z.ltb_spec ileft iright) as [Hlt|Hge].
    2:{ split; [lia|]. split; intros a Hlt; lia. }
    assert (Hmid : ileft <= (ileft + iright) / 2 < iright).
    { split.
      - apply Z.div_le_lower_bound; lia.
      - apply Z.div_lt_upper_bound; lia. }
    remember ((ileft + iright) / 2) as imid eqn:Eimid.
    destruct (peek_in_range l (k := imid) ltac:(lia)) as (iv & Hiv & _).
    rewrite Hiv. destruct (lt t (xmax iv)) eqn:Hcmp.
    + destruct (IH ileft imid ltac:(lia) ltac:(lia) ltac:(lia) ltac:(lia))
        as (Hr & Hl & Hu).
      split; [lia|]. split; [exact Hl|].
      intros a Hlt' Hp.
      destruct (Z.eq_dec (bisect l t ileft imid fuel) imid) as [E|NE].
      * rewrite E in Hp. rewrite Hiv in Hp. injection Hp as <-. exact Hcmp.
      * apply Hu; [lia | exact Hp].
    + destruct (IH (imid + 1) iright ltac:(lia) ltac:(lia) ltac:(lia)
                   ltac:(lia)) as (Hr & Hl & Hu).
      split; [lia|]. split; [|exact Hu].
      intros a Hlt' Hp.
      destruct (Z.eq_dec (bisect l t (imid + 1) iright fuel) (imid + 1))
        as [E|NE].
      * rewrite E in Hp. replace (imid + 1 - 1) with imid in Hp by lia.
        rewrite Hiv in Hp. injection Hp as <-. exact Hcmp.
      * apply Hl; [lia | exact Hp].
Qed.

(** Off the tier the lookup answers 0. *)
Lemma time_to_index_off (l : list (Interval F)) (t : F) :
  off_tier l t = true -> time_to_index l t = 0.
Proof.
  unfold off_tier, time_to_index. destruct l as [|first l]; [reflexivity|].
  intros ->. reflexivity.
Qed.

(** On the tier it answers the number of an interval. *)
Lemma time_to_index_on (l : list (Interval F)) (t : F) :
  off_tier l t = false ->
  1 <= time_to_index l t <= Z.of_nat (length l)
  /\ exists wiv, peek l (time_to_index l t) = Ok wiv /\ In wiv l.
Proof.
  unfold off_tier, time_to_index. destruct l as [|first l]; [discriminate|].
  intros ->.
  destruct (@bisect_spec (first :: l) t (length (first :: l)) 1
              (Z.of_nat (length (first :: l))))
    as (Hr & _); try lia.
  { simpl length. lia. }
  split; [exact Hr|]. apply peek_in_range. exact Hr.
Qed.

(** On a tier whose intervals follow one another, the interval it answers
    holds the time. *)
Lemma time_to_index_holds (l : list (Interval F)) (t : F)
      (wiv : Interval F) :
  contiguous l ->
  off_tier l t = false ->
  peek l (time_to_index l t) = Ok wiv ->
  holds l (time_to_index l t) wiv t.
Proof.
  intros Hc Hoff Hp. pose proof (time_to_index_on l t Hoff) as [Hr _].
  revert Hoff Hp Hr. unfold off_tier, time_to_index.
  destruct l as [|first l]; [discriminate|].
  intros Hoff. rewrite Hoff. apply orb_false_iff in Hoff.
  destruct Hoff as [Hstart Hend].
  destruct (@bisect_spec (first :: l) t (length (first :: l)) 1
              (Z.of_nat (length (first :: l))))
    as (_ & Hl & Hu); try lia.
  { simpl length. lia. }
  remember (bisect (first :: l) t 1 (Z.of_nat (length (first :: l)))
                   (length (first :: l))) as wi eqn:Ewi.
  intros Hp Hr. split.
  - destruct (Z.eq_dec wi 1) as [E1|N1].
    + rewrite E1, peek_first in Hp. injection Hp as <-. exact Hstart.
    + destruct (peek_in_range (first :: l) (k := wi - 1) ltac:(lia))
        as (a & Ha & _).
      pose proof (Hl a ltac:(lia) Ha) as Hbefore.
      apply peek_ok_range in Ha. apply peek_ok_range in Hp.
      destruct Ha as [_ Ha]. destruct Hp as [_ Hp].
      replace (Z.to_nat (wi - 1)) with (S (Z.to_nat (wi - 1 - 1))) in Hp
        by lia.
      rewrite (Hc _ _ _ Ha Hp). exact Hbefore.
  - destruct (Z.ltb_spec wi (Z.of_nat (length (first :: l)))) as [Hlt|Hge].
    + apply Hu; assumption.
    + assert (E : wi = Z.of_nat (length (first :: l))) by lia.
      rewrite E, peek_last in Hp. injection Hp as <-. exact Hend.
Qed.

(** The lookup and the label query on a tier see its intervals only. *)
Lemma lookup_on_tier (tg : TextGrid F) (tierIdx : Z)
      (l : list (Interval F)) (t : F) :
  peek_interval_tier tg tierIdx = Ok l ->
  get_interval_at_time tg tierIdx t
  = if defined t then Ok (time_to_index l t) else Raise PraatError.
Proof. unfold get_interval_at_time. intros ->. reflexivity. Qed.

Lemma label_on_tier (tg : TextGrid F) (tierIdx wi : Z)
      (l : list (Interval F)) :
  peek_interval_tier tg tierIdx = Ok l ->
  get_label_of_interval tg tierIdx wi
  = match peek l wi with Ok iv => Ok (text iv) | Raise e => Raise e end.
Proof.
  unfold get_label_of_interval, peek_interval. intros ->. reflexivity.
Qed.

(** What any failing lookup or label query raises. *)
Lemma lookup_raises (tg : TextGrid F) (tierIdx : Z) (t : F) (e : exn) :
  get_interval_at_time tg tierIdx t = Raise e -> e = PraatError.
Proof.
  unfold get_interval_at_time, peek_interval_tier, peek_tier, peek.
  destruct (tierIdx <? 1); [congruence|].
  destruct (nth_error (tiers tg) (Z.to_nat (tierIdx - 1))) as [[? ?|? ?]|];
    try congruence.
  destruct (defined t); congruence.
Qed.

Lemma first_tier_found (tg : TextGrid F) (l : list (Interval F)) :
  peek_interval_tier tg 1 = Ok l ->
  exists first_name others, tiers tg = IntervalTier first_name l :: others.
Proof.
  unfold peek_interval_tier, peek_tier.
  destruct (tiers tg) as [|[first_name l'|first_name points] others];
    cbn; try discriminate.
  intros E. injection E as ->. eauto.
Qed.

End Search.

(* ===================================================================== *)
(** ** The interval step, case by case *)
(* ===================================================================== *)

Section Cases.
Variable F : Type.
Context `{Arith F}.
Variables (cfg : Config F) (file : str) (formant : Formant F)
          (tg : TextGrid F).

(** An interval number Praat refuses: the label query raises at once. *)
Lemma interval_step_no_interval tierIdx intervalIdx e (st : State F) :
  peek_interval tg tierIdx intervalIdx = Raise e ->
  interval_step cfg file formant tg tierIdx intervalIdx st
  = (extend st [] [Get_label_of_interval tierIdx intervalIdx], Raise e).
Proof.
  intros Hp. unfold interval_step, bind, request, get_label_of_interval.
  rewrite Hp. unfold extend; cbn. rewrite app_nil_r. reflexivity.
Qed.

(** A vowel interval whose time lookup is refused: the requests up to the
    lookup, no row, and the exception. *)
Lemma interval_step_unanswered tierIdx intervalIdx iv e (st : State F) :
  peek_interval tg tierIdx intervalIdx = Ok iv ->
  is_vowel_label (text iv) = true ->
  get_interval_at_time tg 1 (midpoint iv) = Raise e ->
  interval_step cfg file formant tg tierIdx intervalIdx st
  = (extend st []
            [Get_label_of_interval tierIdx intervalIdx;
             Get_starting_point tierIdx intervalIdx;
             Get_end_point tierIdx intervalIdx;
             Get_interval_at_time 1 (midpoint iv)], Raise e).
Proof.
  intros Hp Hv Hwi.
  destruct (peek_interval_queries tg _ _ Hp) as (Hl & Hs & He).
  unfold interval_step, bind, request, lift. rewrite Hl, Hv, Hs, He.
  cbn. unfold truediv at 1. rewrite two_is_not_zero. cbn.
  fold (midpoint iv). rewrite Hwi. cbn.
  unfold extend; cbn. rewrite app_nil_r, <- !app_assoc. reflexivity.
Qed.

(** A vowel interval whose word is found and whose segment count is not
    defined: the five requests, no row, and the exception of the count. *)
Lemma interval_step_no_count tierIdx intervalIdx iv wi word e
      (st : State F) :
  peek_interval tg tierIdx intervalIdx = Ok iv ->
  is_vowel_label (text iv) = true ->
  get_interval_at_time tg 1 (midpoint iv) = Ok wi ->
  get_label_of_interval tg 1 wi = Ok word ->
  segment_count cfg iv = Raise e ->
  interval_step cfg file formant tg tierIdx intervalIdx st
  = (extend st [] (token_calls tierIdx intervalIdx iv wi), Raise e).
Proof.
  intros Hp Hv Hwi Hword Hn.
  destruct (peek_interval_queries tg _ _ Hp) as (Hl & Hs & He).
  unfold interval_step, bind, request, lift. rewrite Hl, Hv, Hs, He.
  cbn. unfold truediv at 1. rewrite two_is_not_zero. cbn.
  fold (midpoint iv). rewrite Hwi, Hword. cbn.
  unfold segment_count in Hn.
  destruct (truediv (sub (xmax iv) (xmin iv)) (segment_window cfg))
    as [q|e'] eqn:Hq.
  - rewrite Hn. unfold extend, token_calls; cbn.
    rewrite app_nil_r, <- !app_assoc. reflexivity.
  - injection Hn as <-. unfold extend, token_calls; cbn.
    rewrite app_nil_r, <- !app_assoc. reflexivity.
Qed.


End Cases.

(* ===================================================================== *)
(** ** Segment count and sample times (C2, C3) *)
(* ===================================================================== *)

Lemma nth_error_sample_rows (F : Type) (f : Z -> Row F) (n : Z) (i : nat) :
  nth_error (map f (range 1 (n + 1))) i
  = if (i <? Z.to_nat n)%nat then Some (f (1 + Z.of_nat i)) else None.
Proof.
  rewrite nth_error_map.
  destruct (Nat.ltb_spec i (Z.to_nat n)) as [Hi|Hi].
  - rewrite nth_error_range by lia. reflexivity.
  - assert (E : nth_error (range 1 (n + 1)) i = None).
    { apply nth_error_None. rewrite range_count. exact Hi. }
    rewrite E. reflexivity.
Qed.





(** C3, as amended. For a vowel interval whose word lookup succeeds, the
    row of segment [k], for [k] from 1 to the segment count, is the [k]-th
    row appended; its sample time is [start + k * segment_window] and its
    offset is that sample time minus [start], in the arithmetic of the
    cell, where each operation is rounded. In binary64 the phone "o" of the
    notebook's first rows, from 0.19 s with a window of 0.005 s, is sampled
    at the six times listed. In exact arithmetic with a positive window the
    sample times of a token are strictly increasing, the first is
    [start + segment_window], and every one of them lies after [start]. *)
Theorem C3_sample_times :
  (forall (F : Type) (A : Arith F) (cfg : Config F) (file : str)
          (formant : Formant F) (tg : TextGrid F) (tierIdx intervalIdx : Z)
          (iv : Interval F) (wi : Z) (word : str) (n : Z) (st : State F),
      peek_interval tg tierIdx intervalIdx = Ok iv ->
      is_vowel_label (text iv) = true ->
      get_interval_at_time tg 1 (midpoint iv) = Ok wi ->
      get_label_of_interval tg 1 wi = Ok word ->
      segment_count cfg iv = Ok n ->
      exists rows evs,
        interval_step cfg file formant tg tierIdx intervalIdx st
        = (extend st rows evs, Ok tt)
        /\ length rows = Z.to_nat n
        /\ forall k, 1 <= k <= n ->
             exists r,
               nth_error rows (Z.to_nat (k - 1)) = Some r
               /\ Time_of_formant_measurements r
                  = add (xmin iv) (mul (of_int k) (segment_window cfg))
               /\ Time_from_vowel_onset r
                  = sub (Time_of_formant_measurements r) (xmin iv)
               /\ Vowel_onset_time r = xmin iv)
  /\ map (@Time_of_formant_measurements float)
         (data (fst (interval_step Demo.notebook (lit "p113_int.wav")
                                   Demo.half_voiced_formant Demo.no_grid 2 2
                                   (fresh float))))
     = [0.195%float; 0.2%float; 0.20500000000000002%float;
        0.21%float; 0.215%float; 0.22%float]
  /\ (forall (cfg : Config Q) (file : str) (formant : Formant Q)
             (tg : TextGrid Q) (tierIdx intervalIdx : Z) (iv : Interval Q)
             (wi : Z) (word : str) (st : State Q),
         peek_interval tg tierIdx intervalIdx = Ok iv ->
         is_vowel_label (text iv) = true ->
         get_interval_at_time tg 1 (midpoint iv) = Ok wi ->
         get_label_of_interval tg 1 wi = Ok word ->
         (0 < segment_window cfg)%Q ->
         exists rows evs,
           interval_step cfg file formant tg tierIdx intervalIdx st
           = (extend st rows evs, Ok tt)
           /\ (forall i j r r',
                  (i < j)%nat ->
                  nth_error rows i = Some r -> nth_error rows j = Some r' ->
                  (Time_of_formant_measurements r
                   < Time_of_formant_measurements r')%Q)
           /\ (forall r,
                  nth_error rows 0 = Some r ->
                  (Time_of_formant_measurements r
                   == xmin iv + segment_window cfg)%Q)
           /\ (forall r,
                  In r rows ->
                  (xmin iv < Time_of_formant_measurements r)%Q
                  /\ ~ (Time_of_formant_measurements r == xmin iv)%Q)).
Proof.
  split; [|split; [vm_compute; reflexivity|]].
  - intros F A cfg file formant tg tierIdx intervalIdx iv wi word n st
           Hp Hv Hwi Hword Hn.
    eexists _, _. split; [|split].
    + apply (interval_step_vowel cfg file formant tg tierIdx intervalIdx
               st Hp Hv Hwi Hword Hn).
    + rewrite length_map. apply range_count.
    + intros k Hk. rewrite nth_error_sample_rows.
      destruct (Nat.ltb_spec (Z.to_nat (k - 1)) (Z.to_nat n)); [|lia].
      eexists. split; [reflexivity|].
      replace (1 + Z.of_nat (Z.to_nat (k - 1))) with k by lia.
      split; [reflexivity|]. split; reflexivity.
  - intros cfg file formant tg tierIdx intervalIdx iv wi word st
           Hp Hv Hwi Hword Hw.
    pose proof (@exact_segment_count cfg Hw iv) as Hn.
    eexists _, _. split; [|split; [|split]].
    + apply (interval_step_vowel cfg file formant tg tierIdx intervalIdx
               st Hp Hv Hwi Hword Hn).
    + intros i j r r' Hij Hi Hj. rewrite nth_error_sample_rows in Hi, Hj.
      destruct (i <? _)%nat; [|discriminate].
      destruct (j <? _)%nat; [|discriminate].
      remember (1 + Z.of_nat i) as ki eqn:Eki.
      remember (1 + Z.of_nat j) as kj eqn:Ekj.
      injection Hi as <-; injection Hj as <-.
      cbn [Time_of_formant_measurements sample_row].
      apply (@spot_of_increasing cfg Hw); lia.
    + intros r Hr. rewrite nth_error_sample_rows in Hr.
      destruct (0 <? _)%nat; [|discriminate].
      injection Hr as <-. cbn [Time_of_formant_measurements sample_row].
      apply (@spot_of_first cfg).
    + intros r Hr. apply in_map_iff in Hr. destruct Hr as (k & <- & Hk).
      apply in_range in Hk. cbn [Time_of_formant_measurements sample_row].
      assert (Hlt : (xmin iv < spot_of cfg (xmin iv) k)%Q)
        by (apply (@spot_of_after_start cfg Hw); lia).
      split; [exact Hlt|]. intros E. rewrite E in Hlt.
      exact (Qlt_irrefl _ Hlt).
Qed.

(** The notebook's first row: segment 1 of the phone "o" is sampled at
    0.19 + 1 * 0.005 and its offset is that time minus 0.19, which in
    binary64 is 0.0050000000000000044. In exact arithmetic the first
    sample of the same phone is taken at 19/100 + 5/1000. *)
Lemma C3_witness :
  (exists r,
      nth_error
        (data (fst (interval_step Demo.notebook (lit "p113_int.wav")
                                  Demo.half_voiced_formant Demo.no_grid 2 2
                                  (fresh float)))) 0
      = Some r
      /\ Time_of_formant_measurements r
         = PrimFloat.add 0.19%float (PrimFloat.mul 1%float 0.005%float)
      /\ Time_from_vowel_onset r = 0.0050000000000000044%float)
  /\ (exists rows evs,
         interval_step DemoQ.notebook (lit "p113_int.wav") DemoQ.flat
                       DemoQ.no_grid 2 2 (fresh Q)
         = (extend (fresh Q) rows evs, Ok tt)
         /\ forall r, nth_error rows 0 = Some r ->
                      (Time_of_formant_measurements r
                       == (19 # 100) + (5 # 1000))%Q).
Proof.
  split.
  - destruct (proj1 C3_sample_times float binary64
                Demo.notebook (lit "p113_int.wav") Demo.half_voiced_formant
                Demo.no_grid 2 2
                (Build_Interval 0.19%float 0.22%float (lit "o")) 2 (lit "no")
                6 (fresh float) eq_refl eq_refl eq_refl eq_refl eq_refl)
      as (rows & evs & Hrun & Hlen & Hk).
    destruct (Hk 1 ltac:(lia)) as (r & Hr & Ht & Ho & _).
    exists r. rewrite Hrun. cbn [fst extend data fresh app].
    split; [exact Hr|]. split; [exact Ht|].
    rewrite Ho, Ht. vm_compute. reflexivity.
  - destruct (proj2 (proj2 C3_sample_times)
                DemoQ.notebook (lit "p113_int.wav") DemoQ.flat
                DemoQ.no_grid 2 2 DemoQ.o_interval 2 (lit "no")
                (fresh Q) eq_refl eq_refl eq_refl eq_refl eq_refl)
      as (rows & evs & Hrun & _ & Hfirst & _).
    exists rows, evs. split; [exact Hrun | exact Hfirst].
Defined.

(** C3 as stated fails in binary64 when the window is lost in the rounding
    of the sum. The phone "o" runs from the last double before 1 to 1, a
    duration of 2^-53 s, and is sampled every 2^-55 s: it has four
    segments; the first sample time is the start itself, and the three
    others are the same time, 1 s. *)
Lemma C3_window_lost_in_rounding :
  ~ samples_move_forward
  /\ PrimFloat.ltb 0%float 0x1p-55%float = true
  /\ segment_count (Demo.every 0x1p-55%float)
                   (Build_Interval Demo3.below_one 1%float (lit "o")) = Ok 4
  /\ snd (interval_step (Demo.every 0x1p-55%float) (lit "p113_int.wav")
                        Demo.half_voiced_formant Demo3.tight_grid 2 1
                        (fresh float))
     = Ok tt
  /\ map (fun r => (Vowel_onset_time r, Time_of_formant_measurements r))
         (data (fst (interval_step (Demo.every 0x1p-55%float)
                                   (lit "p113_int.wav")
                                   Demo.half_voiced_formant Demo3.tight_grid
                                   2 1 (fresh float))))
     = [(Demo3.below_one, Demo3.below_one); (Demo3.below_one, 1%float);
        (Demo3.below_one, 1%float); (Demo3.below_one, 1%float)].
Proof.
  split; [|repeat split; vm_compute; reflexivity].
  intros Hclaim.
  destruct (Hclaim (Demo.every 0x1p-55%float)
                   (Build_Interval Demo3.below_one 1%float (lit "o"))
                   4 1 2 eq_refl eq_refl ltac:(lia) ltac:(lia) ltac:(lia))
    as [Hafter _].
  vm_compute in Hafter. discriminate.
Qed.

(* ===================================================================== *)
(** ** The word lookup (C4, C5, C10) *)
(* ===================================================================== *)

Section Answers.
Variable F : Type.
Context `{Arith F}.

(** An answered lookup was made on an interval tier at a defined time. *)
Lemma lookup_answered (tg : TextGrid F) (tierIdx wi : Z) (t : F) :
  get_interval_at_time tg tierIdx t = Ok wi ->
  exists l, peek_interval_tier tg tierIdx = Ok l
            /\ defined t = true /\ wi = time_to_index l t.
Proof.
  unfold get_interval_at_time.
  destruct (peek_interval_tier tg tierIdx) as [l|]; [|discriminate].
  destruct (defined t); [|discriminate].
  intros E. injection E as <-. eauto.
Qed.

(** Interval 0 has no label. *)
Lemma word_interval_missing (tg : TextGrid F) (l : list (Interval F)) :
  peek_interval_tier tg 1 = Ok l ->
  get_label_of_interval tg 1 0 = Raise PraatError.
Proof. intros Hl. rewrite (@label_on_tier _ tg 1 0 l Hl). reflexivity. Qed.

End Answers.

(** C4, as amended. For a vowel interval with a segment count [n], the
    first tier being an interval tier and the midpoint a defined number,
    the lookup answers Praat's number for the midpoint on the first tier.
    When that is the number of an interval, [n] rows are appended and the
    Word of each is the label of that interval if it is not empty and
    'PROBLEM' if it is empty; on a tier whose intervals follow one another
    that interval holds the midpoint. The lookup finds an interval unless
    the midpoint lies off the tier, before its start or after its end, or
    the tier has no interval; then it answers 0, Praat refuses the label
    query, and the step stops with that exception and appends no row. When
    the first tier is not an interval tier or the midpoint is undefined,
    the lookup itself is refused, with the same outcome. *)
Theorem C4_word_or_problem :
  forall (F : Type) (A : Arith F) (cfg : Config F) (file : str)
         (formant : Formant F) (tg : TextGrid F) (tierIdx intervalIdx : Z)
         (iv : Interval F) (n : Z) (st : State F),
    peek_interval tg tierIdx intervalIdx = Ok iv ->
    is_vowel_label (text iv) = true ->
    segment_count cfg iv = Ok n ->
    (forall l,
        peek_interval_tier tg 1 = Ok l ->
        defined (midpoint iv) = true ->
        get_interval_at_time tg 1 (midpoint iv)
        = Ok (time_to_index l (midpoint iv))
        /\ (forall wiv,
               peek l (time_to_index l (midpoint iv)) = Ok wiv ->
               (contiguous l ->
                holds l (time_to_index l (midpoint iv)) wiv (midpoint iv))
               /\ exists rows evs,
                    interval_step cfg file formant tg tierIdx intervalIdx st
                    = (extend st rows evs, Ok tt)
                    /\ length rows = Z.to_nat n
                    /\ Forall (fun r => Word r = (if truthy (text wiv)
                                                  then text wiv
                                                  else PROBLEM)) rows)
        /\ (off_tier l (midpoint iv) = false ->
            exists wiv, peek l (time_to_index l (midpoint iv)) = Ok wiv)
        /\ (off_tier l (midpoint iv) = true ->
            time_to_index l (midpoint iv) = 0
            /\ exists evs,
                 interval_step cfg file formant tg tierIdx intervalIdx st
                 = (extend st [] evs, Raise PraatError)))
    /\ ((forall l, peek_interval_tier tg 1 <> Ok l)
        \/ defined (midpoint iv) = false ->
        exists evs,
          interval_step cfg file formant tg tierIdx intervalIdx st
          = (extend st [] evs, Raise PraatError)).
Proof.
  intros F A cfg file formant tg tierIdx intervalIdx iv n st Hp Hv Hn.
  split.
  - intros l Hl Hdef.
    pose proof (@lookup_on_tier _ _ tg 1 l (midpoint iv) Hl) as Hwi.
    rewrite Hdef in Hwi.
    split; [exact Hwi|]. split; [|split].
    + intros wiv Hwiv. split.
      * intros Hc.
        destruct (off_tier l (midpoint iv)) eqn:Hoff.
        -- rewrite (@time_to_index_off _ _ l _ Hoff) in Hwiv. discriminate.
        -- apply time_to_index_holds; assumption.
      * assert (Hword : get_label_of_interval tg 1
                          (time_to_index l (midpoint iv)) = Ok (text wiv)).
        { rewrite (@label_on_tier _ tg 1 _ l Hl), Hwiv. reflexivity. }
        eexists _, _. split; [|split].
        -- apply (interval_step_vowel cfg file formant tg tierIdx
                    intervalIdx st Hp Hv Hwi Hword Hn).
        -- rewrite length_map. apply range_count.
        -- apply Forall_map. apply Forall_forall. intros k _. reflexivity.
    + intros Hoff.
      destruct (@time_to_index_on _ _ l _ Hoff) as (_ & wiv & Hwiv & _).
      exists wiv. exact Hwiv.
    + intros Hoff. pose proof (@time_to_index_off _ _ l _ Hoff) as Hzero.
      split; [exact Hzero|]. rewrite Hzero in Hwi. eexists.
      apply (interval_step_refused cfg file formant tg tierIdx intervalIdx
               st Hp Hv Hwi (@word_interval_missing _ tg l Hl)).
  - intros Hwhy.
    assert (Hwi : get_interval_at_time tg 1 (midpoint iv) = Raise PraatError).
    { destruct (peek_interval_tier tg 1) as [l|e] eqn:Hl.
      - destruct Hwhy as [Hno|Hundef]; [exfalso; apply (Hno l); reflexivity|].
        rewrite (@lookup_on_tier _ _ tg 1 l (midpoint iv) Hl), Hundef.
        reflexivity.
      - destruct (get_interval_at_time tg 1 (midpoint iv)) as [wi|e'] eqn:Hwi.
        + apply lookup_answered in Hwi. destruct Hwi as (l & Hl' & _).
          congruence.
        + f_equal. eapply lookup_raises. exact Hwi. }
    eexists.
    apply (interval_step_unanswered cfg file formant tg tierIdx intervalIdx
             st Hp Hv Hwi).
Qed.

(** A phone "o" in a silence of the word tier: two rows, both with the
    Word 'PROBLEM'. The same phone after the end of the first tier: the
    lookup answers 0, the exception and no row. A midpoint in a hole of the
    first tier: two rows with the label of the interval after the hole. A
    first tier that is a point tier, and a midpoint that overflows: the
    exception and no row. A midpoint at the end of the first tier: the
    last interval holds it, and its label is the Word of the four rows. *)
Lemma C4_witness :
  (exists rows evs,
      interval_step (Demo.every 0.5%float) (lit "p113_int.wav")
                    Demo.half_voiced_formant Demo.silence_grid 2 1
                    (fresh float)
      = (extend (fresh float) rows evs, Ok tt)
      /\ length rows = 2%nat
      /\ Forall (fun r => Word r = PROBLEM) rows)
  /\ (get_interval_at_time Demo.short_tier_grid 1 2.5%float = Ok 0
      /\ exists evs,
           interval_step (Demo.every 0.5%float) (lit "p113_int.wav")
                         Demo.half_voiced_formant Demo.short_tier_grid 2 1
                         (fresh float)
           = (extend (fresh float) [] evs, Raise PraatError))
  /\ (get_interval_at_time Demo3.hole_grid 1 1.5%float = Ok 2
      /\ exists rows evs,
           interval_step (Demo.every 0.5%float) (lit "p113_int.wav")
                         Demo.half_voiced_formant Demo3.hole_grid 2 1
                         (fresh float)
           = (extend (fresh float) rows evs, Ok tt)
           /\ length rows = 2%nat
           /\ Forall (fun r => Word r = lit "b") rows)
  /\ (exists evs,
         interval_step (Demo.every 0.5%float) (lit "p113_int.wav")
                       Demo.half_voiced_formant Demo3.point_grid 2 1
                       (fresh float)
         = (extend (fresh float) [] evs, Raise PraatError))
  /\ (exists evs,
         interval_step (Demo.every 1e307%float) (lit "p113_int.wav")
                       Demo.half_voiced_formant Demo3.overflow_grid 2 1
                       (fresh float)
         = (extend (fresh float) [] evs, Raise PraatError))
  /\ (get_interval_at_time Demo3.end_grid 1 3%float = Ok 2
      /\ holds [Build_Interval 0%float 2%float (lit "a");
                Build_Interval 2%float 3%float (lit "b")]
               2 (Build_Interval 2%float 3%float (lit "b")) 3%float
      /\ exists rows evs,
           interval_step (Demo.every 0.5%float) (lit "p113_int.wav")
                         Demo.half_voiced_formant Demo3.end_grid 2 1
                         (fresh float)
           = (extend (fresh float) rows evs, Ok tt)
           /\ length rows = 4%nat
           /\ Forall (fun r => Word r = lit "b") rows).
Proof.
  split; [|split; [|split; [|split; [|split]]]].
  - destruct (proj1 (@C4_word_or_problem float binary64
                (Demo.every 0.5%float) (lit "p113_int.wav")
                Demo.half_voiced_formant Demo.silence_grid 2 1
                (Build_Interval 2%float 3%float (lit "o")) 2 (fresh float)
                eq_refl eq_refl eq_refl)
                [Build_Interval 0%float 4%float (lit "")] eq_refl eq_refl)
      as (_ & Hfound & _).
    destruct (Hfound (Build_Interval 0%float 4%float (lit "")) eq_refl)
      as (_ & rows & evs & Hrun & Hlen & HW).
    exists rows, evs. split; [exact Hrun|]. split; [exact Hlen | exact HW].
  - destruct (proj1 (@C4_word_or_problem float binary64
                (Demo.every 0.5%float) (lit "p113_int.wav")
                Demo.half_voiced_formant Demo.short_tier_grid 2 1
                (Build_Interval 2%float 3%float (lit "o")) 2 (fresh float)
                eq_refl eq_refl eq_refl)
                [Build_Interval 0%float 1%float (lit "no")] eq_refl eq_refl)
      as (Hwi & _ & _ & Hoff).
    split; [exact Hwi|]. exact (proj2 (Hoff eq_refl)).
  - destruct (proj1 (@C4_word_or_problem float binary64
                (Demo.every 0.5%float) (lit "p113_int.wav")
                Demo.half_voiced_formant Demo3.hole_grid 2 1
                (Build_Interval 1%float 2%float (lit "o")) 2 (fresh float)
                eq_refl eq_refl eq_refl)
                [Build_Interval 0%float 1%float (lit "a");
                 Build_Interval 2%float 4%float (lit "b")] eq_refl eq_refl)
      as (Hwi & Hfound & _).
    split; [exact Hwi|].
    destruct (Hfound (Build_Interval 2%float 4%float (lit "b")) eq_refl)
      as (_ & rows & evs & Hrun & Hlen & HW).
    exists rows, evs. split; [exact Hrun|]. split; [exact Hlen | exact HW].
  - apply (proj2 (@C4_word_or_problem float binary64
                (Demo.every 0.5%float) (lit "p113_int.wav")
                Demo.half_voiced_formant Demo3.point_grid 2 1
                (Build_Interval 2%float 3%float (lit "o")) 2 (fresh float)
                eq_refl eq_refl eq_refl)).
    left. intros l Hl. discriminate Hl.
  - apply (proj2 (@C4_word_or_problem float binary64
                (Demo.every 1e307%float) (lit "p113_int.wav")
                Demo.half_voiced_formant Demo3.overflow_grid 2 1
                (Build_Interval 1e308%float 1.5e308%float (lit "o")) 5
                (fresh float) eq_refl eq_refl eq_refl)).
    right. reflexivity.
  - destruct (proj1 (@C4_word_or_problem float binary64
                (Demo.every 0.5%float) (lit "p113_int.wav")
                Demo.half_voiced_formant Demo3.end_grid 2 1
                (Build_Interval 2%float 4%float (lit "o")) 4 (fresh float)
                eq_refl eq_refl eq_refl)
                [Build_Interval 0%float 2%float (lit "a");
                 Build_Interval 2%float 3%float (lit "b")] eq_refl eq_refl)
      as (Hwi & Hfound & _).
    split; [exact Hwi|].
    destruct (Hfound (Build_Interval 2%float 3%float (lit "b")) eq_refl)
      as (Hholds & rows & evs & Hrun & Hlen & HW).
    split.
    + apply Hholds. intros i a b Ha Hb.
      destruct i as [|[|i]]; cbn in Ha, Hb.
      * injection Ha as <-. injection Hb as <-. reflexivity.
      * discriminate.
      * discriminate.
    + exists rows, evs. split; [exact Hrun|]. split; [exact Hlen | exact HW].
Defined.

(** C4 as stated fails where the lookup finds no interval. In
    [Demo.short_tier_grid] the phone "o" runs from 2 s to 3 s, its midpoint
    2.5 s lies after the end of the first tier, and with a window of 0.5 s
    it has two segments. The specification's reading promises two rows with
    the Word 'PROBLEM'; the lookup answers 0, the label query on interval 0
    is refused, and neither the step nor the whole cell emits a row: the
    cell stops with the exception and never prints "Done". *)
Lemma C4_no_interval_raises :
  ~ rows_always_carry_word_context (F := float)
  /\ word_context Demo.short_tier_grid 2.5%float = PROBLEM
  /\ get_interval_at_time Demo.short_tier_grid 1 2.5%float = Ok 0
  /\ segment_count (Demo.every 0.5%float)
                   (Build_Interval 2%float 3%float (lit "o")) = Ok 2
  /\ interval_step (Demo.every 0.5%float) (lit "p113_int.wav")
                   Demo.half_voiced_formant Demo.short_tier_grid 2 1
                   (fresh float)
     = (extend (fresh float) []
               (token_calls 2 1 (Build_Interval 2%float 3%float (lit "o")) 0),
        Raise PraatError)
  /\ snd (extract_formants (Demo.every 0.5%float)
                           (Demo.reading Demo.short_tier_grid) (fresh float))
     = Raise PraatError
  /\ data (fst (extract_formants (Demo.every 0.5%float)
                                 (Demo.reading Demo.short_tier_grid)
                                 (fresh float)))
     = []
  /\ stdout (fst (extract_formants (Demo.every 0.5%float)
                                   (Demo.reading Demo.short_tier_grid)
                                   (fresh float)))
     = [Processing_file 1 (lit "p113_int.wav")].
Proof.
  split; [|repeat split; vm_compute; reflexivity].
  intros Hclaim.
  destruct (Hclaim (Demo.every 0.5%float) (lit "p113_int.wav")
                   Demo.half_voiced_formant Demo.short_tier_grid 2 1
                   (Build_Interval 2%float 3%float (lit "o")) 2 (fresh float)
                   eq_refl eq_refl eq_refl)
    as (rows & evs & Hrun & _).
  apply (f_equal snd) in Hrun. vm_compute in Hrun. discriminate.
Qed.


Lemma lookups_app (F : Type) (evs evs' : list (Event F)) :
  lookups (evs ++ evs') = lookups evs ++ lookups evs'.
Proof.
  induction evs as [|e evs IH]; [reflexivity|].
  destruct e; simpl; rewrite ?IH; reflexivity.
Qed.

Lemma lookups_on_first_tier (F : Type) (evs : list (Event F)) :
  Forall (@on_first_tier F) evs ->
  forall tierIdx time, In (tierIdx, time) (lookups evs) -> tierIdx = 1.
Proof.
  induction 1 as [|e evs He _ IH]; intros tierIdx time Hin; [destruct Hin|].
  destruct e; simpl in Hin; try (apply (IH _ _ Hin)).
  destruct Hin as [E|Hin]; [|apply (IH _ _ Hin)].
  injection E as <- _. exact He.
Qed.

Lemma lookups_of_samples (F : Type) (A : Arith F) (cfg : Config F)
      (start : F) (ks : list Z) :
  lookups (flat_map (sample_calls cfg start) ks) = [].
Proof. induction ks as [|k ks IH]; [reflexivity | exact IH]. Qed.

(** Every row of a file was given its Word by a lookup on the first tier
    of the grid of that file. *)
Lemma file_row_word (F : Type) (A : Arith F) (cfg : Config F) (w : World F)
      (file : str) (r : Row F) :
  In file (listdir w (wav_path cfg)) ->
  file_row cfg w file r -> word_from_first_tier cfg w r.
Proof.
  intros Hin (wav & tg & tier & tierIdx & intervalIdx
              & _ & _ & Htg & _ & _ & Htok).
  destruct Htok as (iv & wi & word & n & k
                    & Hp & _ & Hwi & Hword & _ & _ & ->).
  destruct (lookup_answered _ _ _ Hwi) as (l & Hl & _ & ->).
  destruct (first_tier_found _ Hl) as (first_name & others & Htiers).
  exists file, tg, first_name, l, others, tierIdx, intervalIdx, iv.
  repeat (split; [first [assumption | reflexivity]|]).
  rewrite (@label_on_tier _ tg 1 _ l Hl) in Hword. unfold word_on.
  destruct (peek l (time_to_index l (midpoint iv))) as [wiv|];
    [|discriminate].
  injection Hword as <-. reflexivity.
Qed.

(** The rows and the outcome of a token depend on its interval and on the
    intervals of the first tier only. *)
Lemma interval_step_first_tier (F : Type) (A : Arith F) (cfg : Config F)
      (file : str) (formant : Formant F) (tg : TextGrid F)
      (tierIdx intervalIdx : Z) (iv : Interval F) (l : list (Interval F))
      (st : State F) :
  peek_interval tg tierIdx intervalIdx = Ok iv ->
  peek_interval_tier tg 1 = Ok l ->
  exists evs,
    interval_step cfg file formant tg tierIdx intervalIdx st
    = (extend st
         (if is_vowel_label (text iv) then
            match word_on l (midpoint iv), segment_count cfg iv with
            | Some word, Ok n =>
                if defined (midpoint iv) then
                  map (fun k =>
                         {| Video_ID := slice file None (Some (-4));
                            Vowel := firstn 1 (text iv);
                            Vowel_onset_time := xmin iv;
                            Time_of_formant_measurements
                              := spot_of cfg (xmin iv) k;
                            Time_from_vowel_onset
                              := sub (spot_of cfg (xmin iv) k) (xmin iv);
                            F1 := formant 1 (spot_of cfg (xmin iv) k);
                            F2 := formant 2 (spot_of cfg (xmin iv) k);
                            Participant := slice file None (Some 4);
                            Task := slice file (Some 5) (Some (-4));
                            Word := word |})
                      (range 1 (n + 1))
                else []
            | _, _ => []
            end
          else []) evs,
       if is_vowel_label (text iv) then
         if defined (midpoint iv) then
           match word_on l (midpoint iv), segment_count cfg iv with
           | Some _, Ok _ => Ok tt
           | Some _, Raise e => Raise e
           | None, _ => Raise PraatError
           end
         else Raise PraatError
       else Ok tt).
Proof.
  intros Hp Hl.
  destruct (is_vowel_label (text iv)) eqn:Hv.
  2:{ eexists.
      apply (interval_step_other cfg file formant tg tierIdx intervalIdx
               st Hp Hv). }
  pose proof (@lookup_on_tier _ _ tg 1 l (midpoint iv) Hl) as Hwi.
  destruct (defined (midpoint iv)) eqn:Hdef.
  2:{ eexists.
      rewrite (interval_step_unanswered cfg file formant tg tierIdx
                 intervalIdx st Hp Hv Hwi).
      destruct (word_on l (midpoint iv)), (segment_count cfg iv);
        reflexivity. }
  pose proof (@label_on_tier _ tg 1 (time_to_index l (midpoint iv)) l Hl)
    as Hword.
  unfold word_on.
  destruct (peek l (time_to_index l (midpoint iv))) as [wiv|e] eqn:Hwiv.
  2:{ eexists.
      rewrite (interval_step_refused cfg file formant tg tierIdx
                 intervalIdx st Hp Hv Hwi Hword).
      f_equal. f_equal.
      unfold peek in Hwiv.
      destruct (time_to_index l (midpoint iv) <? 1); [congruence|].
      destruct (nth_error l _); congruence. }
  destruct (segment_count cfg iv) as [n|e] eqn:Hn.
  - eexists.
    rewrite (interval_step_vowel cfg file formant tg tierIdx intervalIdx
               st Hp Hv Hwi Hword Hn).
    reflexivity.
  - eexists.
    rewrite (interval_step_no_count cfg file formant tg tierIdx intervalIdx
               st Hp Hv Hwi Hword Hn).
    reflexivity.
Qed.

(** C5. In every run of the cell, whatever the listing, the files and the
    configured phone tier names, each "Get interval at time" request is
    sent to tier 1, and the Word of every row of [data] is the word on the
    first tier of the grid of its file, at the midpoint of the interval of
    the row, whatever the name of that tier. The rows and the outcome of a
    token are the same in two grids that have the same intervals on their
    first tier and the same interval for the token, whatever the names of
    their tiers, the tiers after the first and the place of the token.
    With the phone tier first and the word tier second, the Word of a row
    is therefore the phone label; with a tier of comments before the tier
    named "words", it is the comment. *)
Theorem C5_word_tier_is_first_tier :
  (forall (F : Type) (A : Arith F) (cfg : Config F) (w : World F)
          (st : State F),
      (exists evs,
          calls (fst (extract_formants cfg w st)) = calls st ++ evs
          /\ forall tierIdx time,
               In (tierIdx, time) (lookups evs) -> tierIdx = 1)
      /\ Forall (word_from_first_tier cfg w)
                (data (fst (extract_formants cfg w st))))
  /\ (forall (F : Type) (A : Arith F) (cfg : Config F) (file : str)
             (formant : Formant F) (tg tg' : TextGrid F)
             (tierIdx intervalIdx tierIdx' intervalIdx' : Z)
             (iv : Interval F) (l : list (Interval F)) (st : State F),
         peek_interval tg tierIdx intervalIdx = Ok iv ->
         peek_interval tg' tierIdx' intervalIdx' = Ok iv ->
         peek_interval_tier tg 1 = Ok l ->
         peek_interval_tier tg' 1 = Ok l ->
         data (fst (interval_step cfg file formant tg tierIdx intervalIdx
                                  st))
         = data (fst (interval_step cfg file formant tg' tierIdx'
                                    intervalIdx' st))
         /\ snd (interval_step cfg file formant tg tierIdx intervalIdx st)
            = snd (interval_step cfg file formant tg' tierIdx' intervalIdx'
                                 st))
  /\ map (@Word float)
         (data (fst (extract_formants (Demo.every 0.5%float)
                                      (Demo.reading Demo.swapped_grid)
                                      (fresh float))))
     = [lit "o"; lit "o"]
  /\ map (@Word float)
         (data (fst (extract_formants (Demo.every 0.5%float)
                                      (Demo.reading Demo3.comments_grid)
                                      (fresh float))))
     = [lit "noisy"; lit "noisy"].
Proof.
  split; [|split; [|split; vm_compute; reflexivity]].
  - intros F A cfg w st.
    destruct (extract_formants_run cfg w st)
      as (rows & evs & j & r & Hrun & HR & HP & _).
    rewrite Hrun. cbn [fst data calls]. split.
    + exists evs. split; [reflexivity|].
      apply lookups_on_first_tier. exact HP.
    + eapply Forall_impl; [|exact HR].
      intros row (file & Hin & Hrow). eapply file_row_word; eassumption.
  - intros F A cfg file formant tg tg' tierIdx intervalIdx tierIdx'
           intervalIdx' iv l st Hp Hp' Hl Hl'.
    destruct (@interval_step_first_tier F A cfg file formant tg tierIdx
                intervalIdx iv l st Hp Hl) as (evs & Hrun).
    destruct (@interval_step_first_tier F A cfg file formant tg' tierIdx'
                intervalIdx' iv l st Hp' Hl') as (evs' & Hrun').
    rewrite Hrun, Hrun'. split; reflexivity.
Qed.

(** A tier of comments before the tier named "words": the lookup of the
    run goes to tier 1, and the phone "o" gets the comment as its Word,
    as it does in a grid where the same tier is named "words". *)
Lemma C5_witness :
  (exists evs,
      calls (fst (extract_formants (Demo.every 0.5%float)
                                   (Demo.reading Demo3.comments_grid)
                                   (fresh float)))
      = calls (fresh float) ++ evs
      /\ lookups evs = [(1, 2.5%float)]
      /\ Forall (fun l => fst l = 1) (lookups evs))
  /\ data (fst (interval_step (Demo.every 0.5%float) (lit "p113_int.wav")
                              Demo.half_voiced_formant Demo3.comments_grid
                              3 2 (fresh float)))
     = data (fst (interval_step (Demo.every 0.5%float) (lit "p113_int.wav")
                                Demo.half_voiced_formant Demo3.comments_grid'
                                2 1 (fresh float)))
  /\ map (@Word float)
         (data (fst (interval_step (Demo.every 0.5%float)
                                   (lit "p113_int.wav")
                                   Demo.half_voiced_formant
                                   Demo3.comments_grid' 2 1 (fresh float))))
     = [lit "noisy"; lit "noisy"].
Proof.
  split; [|split; [|vm_compute; reflexivity]].
  - destruct (proj1 (proj1 C5_word_tier_is_first_tier float binary64
                (Demo.every 0.5%float) (Demo.reading Demo3.comments_grid)
                (fresh float))) as (evs & Hcalls & Hfirst).
    exists evs. split; [exact Hcalls|]. split.
    + cbn [calls fresh app] in Hcalls. rewrite <- Hcalls.
      vm_compute. reflexivity.
    + apply Forall_forall. intros [tierIdx time] Hin.
      exact (Hfirst tierIdx time Hin).
  - exact (proj1 (proj1 (proj2 C5_word_tier_is_first_tier) float binary64
             (Demo.every 0.5%float) (lit "p113_int.wav")
             Demo.half_voiced_formant Demo3.comments_grid
             Demo3.comments_grid' 3 2 2 1
             (Build_Interval 2%float 3%float (lit "o"))
             [Build_Interval 0%float 4%float (lit "noisy")] (fresh float)
             eq_refl eq_refl eq_refl eq_refl)).
Defined.
(** C10. For a vowel interval whose word lookup succeeds, the requests of
    the step are the five of [token_calls], among them exactly one "Get
    interval at time", on tier 1 at the midpoint, followed by the requests
    of the segment loop, which are all "Get value at time"; and every row
    of the token has the same Word, the same Vowel and the same onset. *)
Theorem C10_one_lookup_per_token :
  forall (F : Type) (A : Arith F) (cfg : Config F) (file : str)
         (formant : Formant F) (tg : TextGrid F) (tierIdx intervalIdx : Z)
         (iv : Interval F) (wi : Z) (word : str) (n : Z) (st : State F),
    peek_interval tg tierIdx intervalIdx = Ok iv ->
    is_vowel_label (text iv) = true ->
    get_interval_at_time tg 1 (midpoint iv) = Ok wi ->
    get_label_of_interval tg 1 wi = Ok word ->
    segment_count cfg iv = Ok n ->
    exists rows samples,
      interval_step cfg file formant tg tierIdx intervalIdx st
      = (extend st rows (token_calls tierIdx intervalIdx iv wi ++ samples),
         Ok tt)
      /\ lookups (token_calls tierIdx intervalIdx iv wi ++ samples)
         = [(1, midpoint iv)]
      /\ Forall (fun e => exists formantNumber time,
                     e = Get_value_at_time formantNumber time) samples
      /\ length rows = Z.to_nat n
      /\ Forall (fun r => Word r = (if truthy word then word else PROBLEM)
                          /\ Vowel r = firstn 1 (text iv)
                          /\ Vowel_onset_time r = xmin iv) rows.
Proof.
  intros F A cfg file formant tg tierIdx intervalIdx iv wi word n st
         Hp Hv Hwi Hword Hn.
  eexists _, _. split; [|split; [|split; [|split]]].
  - apply (interval_step_vowel cfg file formant tg tierIdx intervalIdx
             st Hp Hv Hwi Hword Hn).
  - rewrite lookups_app, lookups_of_samples. reflexivity.
  - induction (range 1 (n + 1)) as [|k ks IH]; [constructor|].
    cbn [flat_map sample_calls app]. repeat (constructor; [eauto|]).
    exact IH.
  - rewrite length_map. apply range_count.
  - apply Forall_map. apply Forall_forall. intros k _. cbn. auto.
Qed.

(** One phone under two words: the four samples are taken at 1, 2, 3 and
    4 s; the first lies in interval 1 of the word tier, "a", the others in
    interval 2, yet all four rows carry the word at the midpoint, "b". *)
Lemma C10_witness :
  exists rows samples,
    interval_step (Demo.every 1%float) (lit "p113_int.wav")
                  Demo.half_voiced_formant Demo.two_words_grid 2 1
                  (fresh float)
    = (extend (fresh float) rows
              (token_calls 2 1 (Build_Interval 0%float 4%float (lit "o")) 2
               ++ samples), Ok tt)
    /\ length rows = 4%nat
    /\ Forall (fun r => Word r = lit "b") rows
    /\ map (fun r => get_interval_at_time Demo.two_words_grid 1
                       (Time_of_formant_measurements r)) rows
       = [Ok 1; Ok 2; Ok 2; Ok 2].
Proof.
  destruct (@C10_one_lookup_per_token float binary64
              (Demo.every 1%float) (lit "p113_int.wav")
              Demo.half_voiced_formant Demo.two_words_grid 2 1
              (Build_Interval 0%float 4%float (lit "o")) 2 (lit "b") 4
              (fresh float) eq_refl eq_refl eq_refl eq_refl eq_refl)
    as (rows & samples & Hrun & _ & _ & Hlen & Hrows).
  exists rows, samples. split; [exact Hrun|]. split; [exact Hlen|].
  split.
  - eapply Forall_impl; [|exact Hrows]. intros r (Hw & _). exact Hw.
  - pose proof (f_equal (fun p => data (fst p)) Hrun) as Hdata.
    cbn [fst extend data fresh app] in Hdata. rewrite <- Hdata.
    vm_compute. reflexivity.
Defined.

(* ===================================================================== *)
(** ** Formant values, file pairing and file-derived fields (C7, C8, C9) *)
(* ===================================================================== *)

(** The outcome of an interval step and the number of rows it appends do
    not depend on the values of the Formant object. *)
Lemma interval_step_formant_free (F : Type) (A : Arith F) (cfg : Config F)
      (file : str) (formant formant' : Formant F) (tg : TextGrid F)
      (tierIdx intervalIdx : Z) (st : State F) :
  snd (interval_step cfg file formant tg tierIdx intervalIdx st)
  = snd (interval_step cfg file formant' tg tierIdx intervalIdx st)
  /\ length (data (fst (interval_step cfg file formant tg tierIdx
                                      intervalIdx st)))
     = length (data (fst (interval_step cfg file formant' tg tierIdx
                                        intervalIdx st))).
Proof.
  unfold interval_step, bind, request, lift.
  destruct (get_label_of_interval tg tierIdx intervalIdx) as [label|];
    [|auto].
  destruct (is_vowel_label label) eqn:Hv; [|auto].
  destruct (get_starting_point tg tierIdx intervalIdx) as [start|]; [|auto].
  destruct (get_end_point tg tierIdx intervalIdx) as [end_|]; [|auto].
  destruct (truediv (add end_ start) (of_int 2)) as [mid|]; [|auto].
  destruct (get_interval_at_time tg 1 mid) as [wi|]; [|auto].
  destruct (get_label_of_interval tg 1 wi) as [word|]; [|auto].
  destruct (truediv (sub end_ start) (segment_window cfg)) as [q|]; [|auto].
  destruct (trunc q) as [n|]; [|auto].
  rewrite !segment_loop_run by (apply vowel_label_nonempty; exact Hv).
  cbn. rewrite !length_app, !length_map. auto.
Qed.

(** C7. Every row of [data] after a run of the cell records as F1 and F2
    the values the Formant object of its file gives for formant 1 and
    formant 2 at the row's own sample time, unchanged. Whether an interval
    step fails and how many rows it appends does not depend on those
    values, so an undefined value suppresses no row: with a second formant
    that is undefined everywhere the six rows of the phone "o" are all
    there, each with NaN as F2. *)
Theorem C7_formant_values_pass_through :
  (forall (F : Type) (A : Arith F) (cfg : Config F) (w : World F)
          (st : State F),
      Forall (fun r =>
                exists file wav,
                  In file (listdir w (wav_path cfg))
                  /\ open_sound w (wav_path cfg ++ file) = Ok wav
                  /\ Video_ID r = slice file None (Some (-4))
                  /\ F1 r = formant_of cfg wav 1
                                       (Time_of_formant_measurements r)
                  /\ F2 r = formant_of cfg wav 2
                                       (Time_of_formant_measurements r))
             (data (fst (extract_formants cfg w st))))
  /\ (forall (F : Type) (A : Arith F) (cfg : Config F) (file : str)
             (formant formant' : Formant F) (tg : TextGrid F)
             (tierIdx intervalIdx : Z) (st : State F),
         snd (interval_step cfg file formant tg tierIdx intervalIdx st)
         = snd (interval_step cfg file formant' tg tierIdx intervalIdx st)
         /\ length (data (fst (interval_step cfg file formant tg tierIdx
                                             intervalIdx st)))
            = length (data (fst (interval_step cfg file formant' tg tierIdx
                                               intervalIdx st))))
  /\ map (fun r => (F1 r, PrimFloat.is_nan (F2 r)))
         (data (fst (extract_formants Demo.notebook Demo.one_pair
                                      (fresh float))))
     = repeat (438.5%float, true) 6.
Proof.
  split; [|split].
  - intros F A cfg w st.
    destruct (extract_formants_run cfg w st)
      as (rows & evs & j & r & Hrun & HR & _).
    rewrite Hrun. cbn [fst data].
    eapply Forall_impl; [|exact HR].
    intros row (file & Hfile & wav & tg & tier & tierIdx & intervalIdx
                & _ & Hwav & _ & _ & _ & Hrow).
    destruct Hrow as (iv & wi & word & n & k & _ & _ & _ & _ & _ & _ & ->).
    exists file, wav. cbn. auto.
  - intros. apply interval_step_formant_free.
  - vm_compute. reflexivity.
Qed.

Lemma wav_name_of_stem (file : str) :
  endswith file (lit ".wav") = true ->
  file = slice file None (Some (-4)) ++ lit ".wav".
Proof.
  intros Hw. apply endswith_app in Hw. destruct Hw as [stem ->].
  rewrite stem_of_app by reflexivity. reflexivity.
Qed.

(** C8. An audio file without its TextGrid is skipped: the file step only
    records the test for the TextGrid, appends no row, prints nothing,
    leaves the counter alone and raises nothing; after a run of the cell
    no row of [data] carries the stem of such a file, and every row
    carries the stem of a paired audio file of the listing. The lines
    printed are those of the paired files in the order of the listing,
    numbered from 1: all of them, then "Done", when the run ends without
    an exception. *)
Theorem C8_unpaired_audio_is_skipped :
  (forall (F : Type) (A : Arith F) (cfg : Config F) (w : World F)
          (file : str) (st : State F),
      endswith file (lit ".wav") = true ->
      path_exists w (textgrid_of cfg file) = false ->
      file_step cfg w file st
      = (extend st [] [Path_exists (textgrid_of cfg file)], Ok tt))
  /\ (forall (F : Type) (A : Arith F) (cfg : Config F) (w : World F)
             (st : State F),
         (forall r,
             In r (data (fst (extract_formants cfg w st))) ->
             exists file,
               In file (listdir w (wav_path cfg))
               /\ paired cfg w file = true
               /\ Video_ID r = slice file None (Some (-4)))
         /\ (forall file r,
                endswith file (lit ".wav") = true ->
                path_exists w (textgrid_of cfg file) = false ->
                In r (data (fst (extract_formants cfg w st))) ->
                Video_ID r <> slice file None (Some (-4))))
  /\ (forall (F : Type) (A : Arith F) (cfg : Config F) (w : World F)
             (st : State F),
         (exists j,
             stdout (fst (extract_formants cfg w st))
             = stdout st
               ++ progress 1 (firstn j (filter (paired cfg w)
                                               (listdir w (wav_path cfg))))
               ++ match snd (extract_formants cfg w st) with
                  | Ok _ => [Done]
                  | Raise _ => []
                  end)
         /\ (snd (extract_formants cfg w st) = Ok tt ->
             stdout (fst (extract_formants cfg w st))
             = stdout st
               ++ progress 1 (filter (paired cfg w)
                                     (listdir w (wav_path cfg)))
               ++ [Done])).
Proof.
  split; [|split].
  - intros F A cfg w file st Hwav Hex.
    unfold file_step, bind, request. rewrite Hwav, Hex.
    unfold ret, extend; cbn. rewrite app_nil_r. reflexivity.
  - intros F A cfg w st.
    destruct (extract_formants_run cfg w st)
      as (rows & evs & j & r & Hrun & HR & _).
    rewrite Hrun. cbn [fst data].
    assert (Hrows : forall r0,
               In r0 rows ->
               exists file,
                 In file (listdir w (wav_path cfg))
                 /\ paired cfg w file = true
                 /\ Video_ID r0 = slice file None (Some (-4))).
    { intros r0 Hin. rewrite Forall_forall in HR.
      destruct (HR r0 Hin)
        as (file & Hfile & wav & tg & tier & tierIdx & intervalIdx
            & Hp & _ & _ & _ & _ & Hrow).
      destruct Hrow as (iv & wi & word & n & k & _ & _ & _ & _ & _ & _ & ->).
      exists file. auto. }
    split; [exact Hrows|].
    intros file r0 Hwav Hex Hin Hid.
    destruct (Hrows r0 Hin) as (file' & _ & Hp & Hid').
    assert (file' = file).
    { unfold paired in Hp. apply andb_true_iff in Hp. destruct Hp as [Hwav' _].
      rewrite (wav_name_of_stem file Hwav), (wav_name_of_stem file' Hwav').
      congruence. }
    subst file'. unfold paired in Hp. rewrite Hwav, Hex in Hp. discriminate.
  - intros F A cfg w st.
    destruct (extract_formants_run cfg w st)
      as (rows & evs & j & r & Hrun & _ & _ & _ & Hok).
    rewrite Hrun. cbn [fst snd stdout]. split.
    + exists j. reflexivity.
    + intros ->. rewrite (Hok eq_refl), firstn_all. reflexivity.
Qed.

(** The listing of [Demo.one_pair]: "p113_wd.wav" has no TextGrid and is
    skipped, no row carries its stem, and the lines printed are that of
    "p113_int.wav", then "Done". *)
Lemma C8_witness :
  file_step Demo.notebook Demo.one_pair (lit "p113_wd.wav") (fresh float)
  = (extend (fresh float) [] [Path_exists (lit "data/p113_wd.TextGrid")],
     Ok tt)
  /\ Forall (fun r => Video_ID r <> lit "p113_wd")
            (data (fst (extract_formants Demo.notebook Demo.one_pair
                                         (fresh float))))
  /\ stdout (fst (extract_formants Demo.notebook Demo.one_pair
                                   (fresh float)))
     = [Processing_file 1 (lit "p113_int.wav"); Done].
Proof.
  split; [|split].
  - exact (proj1 C8_unpaired_audio_is_skipped float binary64
             Demo.notebook Demo.one_pair (lit "p113_wd.wav") (fresh float)
             eq_refl eq_refl).
  - apply Forall_forall. intros r Hin.
    exact (proj2 (proj1 (proj2 C8_unpaired_audio_is_skipped) float binary64
                    Demo.notebook Demo.one_pair (fresh float))
                 (lit "p113_wd.wav") r eq_refl eq_refl Hin).
  - exact (proj2 (proj2 (proj2 C8_unpaired_audio_is_skipped) float binary64
                    Demo.notebook Demo.one_pair (fresh float))
                 eq_refl).
Defined.

Lemma stem_split (file : str) (c : char) :
  nth_error (slice file None (Some (-4))) 4 = Some c ->
  slice file None (Some (-4))
  = firstn 4 file ++ c :: skipn 5 (slice file None (Some (-4))).
Proof.
  change (-4) with (- Z.of_nat 4). rewrite slice_drop_last by lia.
  set (stem := firstn (length file - 4) file). intros Hc.
  assert (Hlen : (4 < length stem)%nat)
    by (apply nth_error_Some; congruence).
  assert (Hpre : firstn 4 file = firstn 4 stem).
  { unfold stem in *. rewrite firstn_firstn.
    rewrite length_firstn in Hlen. f_equal. lia. }
  rewrite Hpre.
  rewrite <- (firstn_skipn 4 stem) at 1. f_equal.
  rewrite <- (firstn_skipn 4 stem) in Hc.
  rewrite nth_error_app2 in Hc by (rewrite length_firstn; lia).
  rewrite length_firstn in Hc.
  replace (4 - Nat.min 4 (length stem))%nat with 0%nat in Hc by lia.
  replace (skipn 5 stem) with (skipn 1 (skipn 4 stem))
    by (rewrite skipn_skipn; reflexivity).
  destruct (skipn 4 stem) as [|c' rest]; [discriminate|].
  injection Hc as ->. reflexivity.
Qed.

(** C9. Every row a file step appends has as Participant the first four
    characters of the file name and as Task the stem of the file name, the
    name without its last four characters, without its first five
    characters. When the stem has a character at index 4, the stem is the
    Participant, that character, and the Task, in this order; when the
    stem has five characters or fewer the Task is empty. *)
Theorem C9_participant_and_task :
  (forall (F : Type) (A : Arith F) (cfg : Config F) (w : World F)
          (file : str) (st : State F),
      exists rows,
        data (fst (file_step cfg w file st)) = data st ++ rows
        /\ Forall (fun r =>
                     Video_ID r = slice file None (Some (-4))
                     /\ Participant r = firstn 4 file
                     /\ Task r = skipn 5 (Video_ID r)
                     /\ (forall c, nth_error (Video_ID r) 4 = Some c ->
                                   Video_ID r = Participant r ++ c :: Task r)
                     /\ ((length (Video_ID r) <= 5)%nat -> Task r = []))
                  rows)
  /\ map (fun r => (Participant r, Task r))
         (data (fst (file_step Demo.notebook Demo.one_pair
                               (lit "p113_int.wav") (fresh float))))
     = repeat (lit "p113", lit "int") 6.
Proof.
  split; [|vm_compute; reflexivity].
  intros F A cfg w file st.
  assert (Hfields : forall r, file_row cfg w file r ->
             Video_ID r = slice file None (Some (-4))
             /\ Participant r = firstn 4 file
             /\ Task r = skipn 5 (Video_ID r)
             /\ (forall c, nth_error (Video_ID r) 4 = Some c ->
                           Video_ID r = Participant r ++ c :: Task r)
             /\ ((length (Video_ID r) <= 5)%nat -> Task r = [])).
  { intros r (wav & tg & tier & tierIdx & intervalIdx
              & _ & _ & _ & _ & _ & Hrow).
    destruct Hrow as (iv & wi & word & n & k & _ & _ & _ & _ & _ & _ & ->).
    cbn [Video_ID Participant Task sample_row].
    assert (HP : slice file None (Some 4) = firstn 4 file)
      by (apply (slice_prefix file 4)).
    assert (HT : slice file (Some 5) (Some (-4))
                 = skipn 5 (slice file None (Some (-4)))).
    { change (-4) with (- Z.of_nat 4). change 5 with (Z.of_nat 5).
      rewrite slice_middle, slice_drop_last by lia. reflexivity. }
    rewrite HP, HT. repeat split.
    - intros c Hc. apply stem_split. exact Hc.
    - intros Hlen. apply skipn_all2. exact Hlen. }
  destruct (paired cfg w file) eqn:Hp.
  - destruct (file_step_paired cfg w file st Hp)
      as (rows & evs & r & Hrun & HR & _).
    exists rows. rewrite Hrun. split; [reflexivity|].
    eapply Forall_impl; [|exact HR]. exact Hfields.
  - destruct (file_step_skip cfg w file st Hp) as (evs & Hrun & _).
    exists []. rewrite Hrun. cbn. split; [reflexivity | constructor].
Qed.

(** The file "p113_int.wav": participant "p113", task "int", and the
    underscore at index 4 in neither. *)
Lemma C9_witness :
  exists rows,
    data (fst (file_step Demo.notebook Demo.one_pair (lit "p113_int.wav")
                         (fresh float)))
    = data (fresh float) ++ rows
    /\ length rows = 6%nat
    /\ Forall (fun r => Video_ID r = lit "p113_int"
                        /\ Participant r = lit "p113"
                        /\ Task r = lit "int"
                        /\ Video_ID r
                           = Participant r ++ N_of_ascii "_"%char :: Task r)
              rows.
Proof.
  destruct (proj1 C9_participant_and_task float binary64
              Demo.notebook Demo.one_pair (lit "p113_int.wav") (fresh float))
    as (rows & Hdata & Hrows).
  exists rows. split; [exact Hdata|]. split.
  - cbn [data fresh app] in Hdata. rewrite <- Hdata. vm_compute. reflexivity.
  - eapply Forall_impl; [|exact Hrows].
    intros r (Hid & Hp & Ht & Hsplit & _).
    assert (Hid' : Video_ID r = lit "p113_int") by exact Hid.
    assert (Ht' : Task r = lit "int") by (rewrite Ht, Hid'; reflexivity).
    split; [exact Hid'|]. split; [exact Hp|]. split; [exact Ht'|].
    apply Hsplit. rewrite Hid'. reflexivity.
Defined.

(* ===================================================================== *)
(** ** Runs that do not depend on the state *)
(* ===================================================================== *)

Section Denotes.
Variable F : Type.
Implicit Types (st : State F) (rows : list (Row F)) (evs : list (Event F)).

Lemma denotes_ret {A} (a : A) : denotes (ret (F := F) a) [] [] (Ok a).
Proof. intros st. unfold ret. rewrite extend_nil. reflexivity. Qed.

Lemma denotes_request {A} (e : Event F) (r : result A) :
  denotes (request e r) [] [e] r.
Proof.
  intros st. unfold request, extend. rewrite app_nil_r. reflexivity.
Qed.

Lemma denotes_bind_ok {A B} (m : M F A) (k : A -> M F B) rows evs a
      rows' evs' (r : result B) :
  denotes m rows evs (Ok a) -> denotes (k a) rows' evs' r ->
  denotes (bind m k) (rows ++ rows') (evs ++ evs') r.
Proof.
  intros Hm Hk st. unfold bind. rewrite Hm, Hk, extend_extend. reflexivity.
Qed.

Lemma denotes_bind_raise {A B} (m : M F A) (k : A -> M F B) rows evs e :
  denotes m rows evs (Raise e) -> denotes (bind m k) rows evs (Raise e).
Proof. intros Hm st. unfold bind. rewrite Hm. reflexivity. Qed.

(** A loop yields the rows of its elements, in order. *)
Lemma yields_for_each {X} (l : list X) (body : X -> M F unit)
      (f : X -> list (Row F)) :
  (forall x, In x l -> yields (body x) (f x)) ->
  yields (for_each l body) (flat_map f l).
Proof.
  induction l as [|x l IH]; intros Hb.
  - exists [], [], (Ok tt). split; [apply denotes_ret|].
    split; [reflexivity | exists []; reflexivity].
  - destruct (Hb x (or_introl eq_refl))
      as (rows & evs & r & Hm & Hok & rest & Hrest).
    destruct (IH (fun y Hy => Hb y (or_intror Hy)))
      as (rows' & evs' & r' & Hm' & Hok' & rest' & Hrest').
    cbn [for_each flat_map]. destruct r as [[]|e].
    + exists (rows ++ rows'), (evs ++ evs'), r'. split; [|split].
      * eapply denotes_bind_ok; eassumption.
      * intros E. rewrite (Hok eq_refl), (Hok' E). reflexivity.
      * exists rest'. rewrite (Hok eq_refl), Hrest', app_assoc. reflexivity.
    + exists rows, evs, (Raise e). split; [|split].
      * apply denotes_bind_raise. exact Hm.
      * discriminate.
      * exists (rest ++ flat_map f l). rewrite Hrest, app_assoc. reflexivity.
Qed.

(** After a prefix that appends no row, the rows are those of the rest. *)
Lemma yields_after {A} (m : M F A) (k : A -> M F unit) evs a full :
  denotes m [] evs (Ok a) -> yields (k a) full -> yields (bind m k) full.
Proof.
  intros Hm (rows & evs' & r & Hk & Hok & Hrest).
  exists rows, (evs ++ evs'), r. split; [|auto].
  change rows with ([] ++ rows). eapply denotes_bind_ok; eassumption.
Qed.

(** A prefix that raises before any row yields a prefix of anything. *)
Lemma yields_raise {A} (m : M F A) (k : A -> M F unit) evs e full :
  denotes m [] evs (Raise e) -> yields (bind m k) full.
Proof.
  intros Hm. exists [], evs, (Raise e). split; [|split].
  - apply denotes_bind_raise. exact Hm.
  - discriminate.
  - exists full. reflexivity.
Qed.

Lemma yields_exact (m : M F unit) rows evs r :
  denotes m rows evs r -> yields m rows.
Proof.
  intros Hm. exists rows, evs, r. split; [exact Hm|].
  split; [reflexivity | exists []; symmetry; apply app_nil_r].
Qed.

End Denotes.

Section Rows.
Variable F : Type.
Context `{Arith F}.
Variables (cfg : Config F) (file : str) (formant : Formant F)
          (tg : TextGrid F).

(** The interval step appends the rows of the interval, all of them or
    none, from any state and in any outcome. *)
Lemma interval_step_denotes tierIdx intervalIdx :
  exists evs r,
    denotes (interval_step cfg file formant tg tierIdx intervalIdx)
            (interval_rows cfg file formant tg tierIdx intervalIdx) evs r.
Proof.
  unfold interval_rows.
  destruct (peek_interval tg tierIdx intervalIdx) as [iv|e] eqn:Hp.
  2:{ eexists _, _. intros st. apply interval_step_no_interval. exact Hp. }
  destruct (is_vowel_label (text iv)) eqn:Hv.
  2:{ eexists _, _. intros st. apply (interval_step_other _ _ _ _ _ _ _ Hp Hv). }
  destruct (get_interval_at_time tg 1 (midpoint iv)) as [wi|e] eqn:Hwi.
  2:{ eexists _, _. intros st.
      apply (interval_step_unanswered _ _ _ _ _ _ st Hp Hv Hwi). }
  destruct (get_label_of_interval tg 1 wi) as [word|e] eqn:Hword.
  2:{ eexists _, _. intros st.
      apply (interval_step_refused _ _ _ _ _ _ _ Hp Hv Hwi Hword). }
  destruct (segment_count cfg iv) as [n|e] eqn:Hn.
  - eexists _, _. intros st.
    apply (interval_step_vowel _ _ _ _ _ _ _ Hp Hv Hwi Hword Hn).
  - eexists _, _. intros st.
    eapply interval_step_no_count; eassumption.
Qed.

Lemma interval_step_yields tierIdx intervalIdx :
  yields (interval_step cfg file formant tg tierIdx intervalIdx)
         (interval_rows cfg file formant tg tierIdx intervalIdx).
Proof.
  destruct (interval_step_denotes tierIdx intervalIdx) as (evs & r & Hd).
  eapply yields_exact. exact Hd.
Qed.

(** The tier step yields the rows of the tier. *)
Lemma tier_step_yields tierIdx :
  yields (tier_step cfg file formant tg tierIdx)
         (tier_rows cfg file formant tg tierIdx).
Proof.
  unfold tier_step, tier_rows, get_tier_name, get_number_of_intervals,
    peek_interval_tier.
  destruct (peek_tier tg tierIdx) as [tier|e].
  2:{ eapply yields_raise. apply denotes_request. }
  eapply yields_after; [apply denotes_request|]. cbv beta.
  destruct (contains (phones_tiers cfg) (name tier)).
  2:{ eapply yields_exact. apply denotes_ret. }
  destruct tier as [tierName tierIntervals|tierName tierPoints].
  2:{ eapply yields_raise. apply denotes_request. }
  eapply yields_after; [apply denotes_request|]. cbv beta.
  apply yields_for_each. intros intervalIdx _. apply interval_step_yields.
Qed.

End Rows.

Section Batch.
Variable F : Type.
Context `{Arith F}.
Variables (cfg : Config F) (w : World F).

(** What follows the announcement of a paired file yields its rows. *)
Lemma file_body_yields file :
  paired cfg w file = true ->
  yields
    (wav <- request (Sound (wav_path cfg ++ file))
                    (open_sound w (wav_path cfg ++ file)) ;;
     formant <- request To_formant_burg
                  (Ok (wav (time_step cfg) (maximum_number_of_formants cfg)
                           (maximum_formant cfg) (window_length cfg)
                           (preemphasis_from cfg))) ;;
     tg <- request (Data_read (textgrid_of cfg file))
                   (read_data w (textgrid_of cfg file)) ;;
     numTiers <- request Get_number_of_tiers (get_number_of_tiers tg) ;;
     for_each (range 1 (numTiers + 1)) (tier_step cfg file formant tg))
    (file_rows cfg w file).
Proof.
  intros Hp. unfold file_rows. rewrite Hp.
  destruct (open_sound w (wav_path cfg ++ file)) as [wav|e].
  2:{ eapply yields_raise. apply denotes_request. }
  eapply yields_after; [apply denotes_request|]. cbv beta.
  eapply yields_after; [apply denotes_request|]. cbv beta.
  fold (formant_of cfg wav).
  destruct (read_data w (textgrid_of cfg file)) as [tg|e].
  2:{ eapply yields_raise. apply denotes_request. }
  eapply yields_after; [apply denotes_request|]. cbv beta.
  eapply yields_after; [apply denotes_request|]. cbv beta.
  apply yields_for_each. intros tierIdx _. apply tier_step_yields.
Qed.

(** The file step, from any state: a paired audio file is announced and
    yields its rows; any other entry appends nothing and does not fail. *)
Lemma file_step_denotes file :
  exists rows evs r,
    (forall st,
        file_step cfg w file st
        = (extend (if paired cfg w file then announced file st else st)
                  rows evs, r))
    /\ (r = Ok tt -> rows = file_rows cfg w file)
    /\ (exists rest, file_rows cfg w file = rows ++ rest)
    /\ (paired cfg w file = false -> r = Ok tt).
Proof.
  destruct (paired cfg w file) eqn:Hp.
  - destruct (file_body_yields file Hp)
      as (rows & evs & r & Hd & Hok & Hrest).
    exists rows, (Path_exists (textgrid_of cfg file) :: evs), r.
    split; [|split; [exact Hok | split; [exact Hrest | discriminate]]].
    intros st. pose proof Hp as Hp'. unfold paired in Hp'.
    apply andb_true_iff in Hp'. destruct Hp' as [Hwav Hex].
    unfold file_step. rewrite Hwav.
    unfold bind at 1. unfold request at 1. rewrite Hex.
    unfold bind at 1. unfold read_file_counter at 1.
    unfold bind at 1. unfold print at 1.
    unfold bind at 1. unfold write_file_counter at 1.
    cbn [data file_counter stdout calls].
    rewrite Hd. f_equal. unfold extend, announced; cbn.
    rewrite <- app_assoc. reflexivity.
  - assert (Hrows : file_rows cfg w file = [])
      by (unfold file_rows; rewrite Hp; reflexivity).
    rewrite Hrows. unfold paired in Hp. unfold file_step.
    destruct (endswith file (lit ".wav")); simpl in Hp.
    + exists [], [Path_exists (textgrid_of cfg file)], (Ok tt).
      split; [|split; [reflexivity | split; [exists []; reflexivity|]]];
        [|reflexivity].
      intros st. unfold bind, request. rewrite Hp.
      unfold ret, extend; cbn. rewrite app_nil_r. reflexivity.
    + exists [], [], (Ok tt).
      split; [|split; [reflexivity | split; [exists []; reflexivity|]]];
        [|reflexivity].
      intros st. unfold ret. rewrite extend_nil. reflexivity.
Qed.

(** The file loop, from any state. *)
Lemma file_loop_denotes files :
  exists rows evs j r,
    (forall st,
        for_each files (file_step cfg w) st
        = (advanced (filter (paired cfg w) files) j rows evs st, r))
    /\ (r = Ok tt ->
        rows = flat_map (file_rows cfg w) files
        /\ j = length (filter (paired cfg w) files))
    /\ (exists rest, flat_map (file_rows cfg w) files = rows ++ rest)
    /\ (j <= length (filter (paired cfg w) files))%nat
    /\ (forall e, r = Raise e -> (1 <= j)%nat).
Proof.
  induction files as [|file files IH].
  - exists [], [], 0%nat, (Ok tt). split; [|split; [|split; [|split]]].
    + intros st. simpl. unfold ret, advanced; simpl.
      rewrite Z.add_0_r, !app_nil_r. destruct st; reflexivity.
    + auto.
    + exists []. reflexivity.
    + simpl; lia.
    + discriminate.
  - destruct (file_step_denotes file)
      as (rows & evs & r & Hd & Hok & (rest & Hrest) & Hskip).
    destruct IH as (rows' & evs' & j & r' & Hd' & Hok' & (rest' & Hrest')
                    & Hj & Hraise).
    cbn [flat_map filter]. destruct (paired cfg w file) eqn:Hp.
    + destruct r as [[]|e].
      * exists (rows ++ rows'), (evs ++ evs'), (S j), r'.
        split; [|split; [|split; [|split]]].
        -- intros st. cbn [for_each]. unfold bind. rewrite Hd, Hd'.
           f_equal. unfold advanced, extend, announced; cbn.
           rewrite <- !app_assoc. f_equal. lia.
        -- intros E. destruct (Hok' E) as [-> ->].
           rewrite (Hok eq_refl). auto.
        -- exists rest'. rewrite (Hok eq_refl), Hrest', app_assoc.
           reflexivity.
        -- simpl; lia.
        -- intros; lia.
      * exists rows, evs, 1%nat, (Raise e).
        split; [|split; [|split; [|split]]].
        -- intros st. cbn [for_each]. unfold bind. rewrite Hd. f_equal.
        -- discriminate.
        -- exists (rest ++ flat_map (file_rows cfg w) files).
           rewrite Hrest, app_assoc. reflexivity.
        -- simpl; lia.
        -- intros; lia.
    + rewrite (Hskip eq_refl) in Hd, Hok.
      exists (rows ++ rows'), (evs ++ evs'), j, r'.
      split; [|split; [|split; [|split]]]; auto.
      * intros st. cbn [for_each]. unfold bind. rewrite Hd, Hd'.
        f_equal. unfold advanced, extend; cbn. rewrite <- !app_assoc.
        reflexivity.
      * intros E. destruct (Hok' E) as [-> ->].
        rewrite (Hok eq_refl). auto.
      * exists rest'. rewrite (Hok eq_refl), Hrest', app_assoc. reflexivity.
Qed.

(** The whole cell, from any state: what it leaves in [data] and in
    [file_counter], what it prints, what it requests and how it ends are
    fixed by the configuration and the world. *)
Lemma extract_formants_denotes :
  exists rows evs j r,
    (forall st,
        extract_formants cfg w st
        = ({| data := rows;
              file_counter := 1 + Z.of_nat j;
              stdout := stdout st
                        ++ progress 1
                             (firstn j (filter (paired cfg w)
                                               (listdir w (wav_path cfg))))
                        ++ match r with Ok _ => [Done] | Raise _ => [] end;
              calls := calls st ++ evs |}, r))
    /\ (r = Ok tt ->
        rows = all_rows cfg w
        /\ j = length (filter (paired cfg w) (listdir w (wav_path cfg))))
    /\ (exists rest, all_rows cfg w = rows ++ rest)
    /\ (j <= length (filter (paired cfg w) (listdir w (wav_path cfg))))%nat
    /\ (forall e, r = Raise e -> (1 <= j)%nat).
Proof.
  destruct (file_loop_denotes (listdir w (wav_path cfg)))
    as (rows & evs & j & r & Hd & Hok & Hrest & Hj & Hraise).
  exists rows, evs, j, r. split; [|auto].
  intros st. unfold extract_formants.
  unfold bind at 1. unfold reset_data at 1.
  unfold bind at 1. unfold write_file_counter at 1.
  cbn [data file_counter stdout calls].
  unfold bind. rewrite Hd. unfold advanced; cbn.
  destruct r as [[]|e]; unfold print; cbn; rewrite <- ?app_assoc, ?app_nil_r;
    reflexivity.
Qed.

End Batch.

(* ===================================================================== *)
(** ** The cell as a whole: order of the rows, reruns, empty batches *)
(* ===================================================================== *)

(** X1. When the cell ends without an exception, [data] is exactly the
    rows of the listing in the order of the loops: entry after entry of the
    listing, tier after tier among those named in [phones_tiers], interval
    after interval, segment after segment. When an exception stops it,
    [data] is a prefix of those rows: what was appended stays, nothing else
    is added. *)
Theorem X1_data_is_the_rows_in_loop_order :
  forall (F : Type) (A : Arith F) (cfg : Config F) (w : World F)
         (st : State F),
    (snd (extract_formants cfg w st) = Ok tt ->
     data (fst (extract_formants cfg w st)) = all_rows cfg w)
    /\ exists rest,
         all_rows cfg w = data (fst (extract_formants cfg w st)) ++ rest.
Proof.
  intros F A cfg w st.
  destruct (extract_formants_denotes cfg w)
    as (rows & evs & j & r & Hd & Hok & Hrest & _).
  rewrite Hd. cbn [fst snd data]. split; [|exact Hrest].
  intros E. apply Hok. exact E.
Qed.

(** Two paired files with the phones "o+" and "e12": the rows come file by
    file in the order of the listing and, within a file, interval by
    interval. *)
Lemma X1_witness :
  data (fst (extract_formants (Demo.every 1%float) Demo2.two_pairs
                              (fresh float)))
  = all_rows (Demo.every 1%float) Demo2.two_pairs
  /\ map (fun r => (Video_ID r, Vowel r))
         (all_rows (Demo.every 1%float) Demo2.two_pairs)
     = [(lit "p113_int", lit "o"); (lit "p113_int", lit "e");
        (lit "p115_int", lit "o"); (lit "p115_int", lit "e")].
Proof.
  split.
  - exact (proj1 (@X1_data_is_the_rows_in_loop_order float binary64
                    (Demo.every 1%float) Demo2.two_pairs (fresh float))
                 eq_refl).
  - vm_compute. reflexivity.
Defined.

(** X2. What a run of the cell leaves in [data] and in [file_counter], how
    it ends, and the lines and requests it adds do not depend on the state
    it starts from: [data] is emptied first, so running the cell again on
    the same files gives the same rows, not twice as many. *)
Theorem X2_a_rerun_gives_the_same_data :
  forall (F : Type) (A : Arith F) (cfg : Config F) (w : World F)
         (st st' : State F),
    data (fst (extract_formants cfg w st))
    = data (fst (extract_formants cfg w st'))
    /\ file_counter (fst (extract_formants cfg w st))
       = file_counter (fst (extract_formants cfg w st'))
    /\ snd (extract_formants cfg w st) = snd (extract_formants cfg w st')
    /\ (exists lines evs,
           stdout (fst (extract_formants cfg w st)) = stdout st ++ lines
           /\ stdout (fst (extract_formants cfg w st')) = stdout st' ++ lines
           /\ calls (fst (extract_formants cfg w st)) = calls st ++ evs
           /\ calls (fst (extract_formants cfg w st')) = calls st' ++ evs)
    /\ data (fst (extract_formants cfg w
                                   (fst (extract_formants cfg w st))))
       = data (fst (extract_formants cfg w st)).
Proof.
  intros F A cfg w st st'.
  destruct (extract_formants_denotes cfg w)
    as (rows & evs & j & r & Hd & _).
  rewrite !Hd. cbn [fst snd data file_counter stdout calls].
  repeat split. eexists _, evs. repeat split.
Qed.

Lemma filter_none {X} (p : X -> bool) (l : list X) :
  (forall x, In x l -> p x = false) -> filter p l = [].
Proof.
  induction l as [|x l IH]; intros Hl; [reflexivity|]. simpl.
  rewrite (Hl x (or_introl eq_refl)). apply IH.
  intros y Hy. apply Hl. right. exact Hy.
Qed.

Lemma flat_map_none {X Y} (f : X -> list Y) (l : list X) :
  (forall x, In x l -> f x = []) -> flat_map f l = [].
Proof.
  induction l as [|x l IH]; intros Hl; [reflexivity|]. simpl.
  rewrite (Hl x (or_introl eq_refl)). apply IH.
  intros y Hy. apply Hl. right. exact Hy.
Qed.

(** X3. When no entry of the listing is an audio file with its TextGrid,
    the cell ends without an exception, [data] is empty, [file_counter] is
    1, and the only line printed is "Done". *)
Theorem X3_no_paired_file_gives_an_empty_dataset :
  forall (F : Type) (A : Arith F) (cfg : Config F) (w : World F)
         (st : State F),
    (forall file, In file (listdir w (wav_path cfg)) ->
                  paired cfg w file = false) ->
    exists evs,
      extract_formants cfg w st
      = ({| data := []; file_counter := 1; stdout := stdout st ++ [Done];
            calls := calls st ++ evs |}, Ok tt).
Proof.
  intros F A cfg w st Hnone.
  destruct (extract_formants_denotes cfg w)
    as (rows & evs & j & r & Hd & Hok & _ & Hj & Hraise).
  rewrite (filter_none _ _ Hnone) in *. simpl in Hj.
  assert (j = 0%nat) by lia. subst j.
  destruct r as [[]|e]; [|specialize (Hraise e eq_refl); lia].
  destruct (Hok eq_refl) as [-> _].
  exists evs. rewrite Hd. unfold all_rows.
  rewrite flat_map_none; [reflexivity|].
  intros file Hin. unfold file_rows. rewrite (Hnone file Hin). reflexivity.
Qed.

(** A text file and an audio file without TextGrid: nothing but the test
    for that TextGrid, and "Done". *)
Lemma X3_witness :
  exists evs,
    extract_formants Demo.notebook Demo2.no_pair (fresh float)
    = ({| data := []; file_counter := 1;
          stdout := stdout (fresh float) ++ [Done];
          calls := calls (fresh float) ++ evs |}, Ok tt).
Proof.
  apply (@X3_no_paired_file_gives_an_empty_dataset float binary64
           Demo.notebook Demo2.no_pair (fresh float)).
  intros file [<-|[<-|[]]]; reflexivity.
Defined.

Lemma announcements_app (lines lines' : list Line) :
  announcements (lines ++ lines')
  = (announcements lines + announcements lines')%nat.
Proof.
  induction lines as [|[n f|] lines IH]; simpl; rewrite ?IH; reflexivity.
Qed.

Lemma announcements_progress (n : Z) (files : list str) :
  announcements (progress n files) = length files.
Proof.
  revert n; induction files as [|f files IH]; intros n; simpl;
    [reflexivity | rewrite IH; reflexivity].
Qed.

(** X4. [file_counter] counts the files whose processing was begun: after
    a run it is one more than the number of "Processing file" lines the
    run printed, including the line of a file that an exception
    interrupted; the numbers printed are 1, 2, ... in this order. *)
Theorem X4_counter_counts_the_files_begun :
  forall (F : Type) (A : Arith F) (cfg : Config F) (w : World F)
         (st : State F),
    exists lines files,
      stdout (fst (extract_formants cfg w st)) = stdout st ++ lines
      /\ file_counter (fst (extract_formants cfg w st))
         = 1 + Z.of_nat (announcements lines)
      /\ lines = progress 1 files
                 ++ match snd (extract_formants cfg w st) with
                    | Ok _ => [Done]
                    | Raise _ => []
                    end
      /\ announcements lines = length files.
Proof.
  intros F A cfg w st.
  destruct (extract_formants_denotes cfg w)
    as (rows & evs & j & r & Hd & _ & _ & Hj & _).
  rewrite Hd. cbn [fst snd stdout file_counter].
  eexists _, _. split; [reflexivity|].
  assert (Hn : announcements
                 (progress 1 (firstn j (filter (paired cfg w)
                                               (listdir w (wav_path cfg))))
                  ++ match r with Ok _ => [Done] | Raise _ => [] end)
               = length (firstn j (filter (paired cfg w)
                                          (listdir w (wav_path cfg))))).
  { rewrite announcements_app, announcements_progress.
    destruct r; simpl; lia. }
  split; [|split; [reflexivity | exact Hn]].
  rewrite Hn, length_firstn. f_equal. lia.
Qed.

(* ===================================================================== *)
(** ** Tiers without a configured name, a zero window, unreadable files *)
(* ===================================================================== *)

(** Tiers none of which has a configured name: one name query each. *)
Lemma tier_loop_unresolved (F : Type) (A : Arith F) (cfg : Config F)
      (file : str) (formant : Formant F) (tg : TextGrid F) (ks : list Z) :
  (forall tier, In tier (tiers tg) ->
                contains (phones_tiers cfg) (name tier) = false) ->
  (forall k, In k ks -> 1 <= k <= Z.of_nat (length (tiers tg))) ->
  denotes (for_each ks (tier_step cfg file formant tg))
          [] (map Get_tier_name ks) (Ok tt).
Proof.
  intros Hnames. induction ks as [|k ks IH]; intros Hks.
  - apply denotes_ret.
  - cbn [for_each map].
    change (@nil (Row F)) with (@nil (Row F) ++ []).
    change (Get_tier_name k :: map Get_tier_name ks)
      with ([Get_tier_name (F := F) k] ++ map Get_tier_name ks).
    eapply denotes_bind_ok; [|apply IH; intros; apply Hks; right; assumption].
    destruct (peek_in_range (tiers tg) (Hks k (or_introl eq_refl)))
      as (tier & Hpeek & Hin).
    unfold tier_step, get_tier_name, peek_tier. rewrite Hpeek.
    change (@nil (Row F)) with (@nil (Row F) ++ []).
    change [Get_tier_name (F := F) k] with ([Get_tier_name (F := F) k] ++ []).
    eapply denotes_bind_ok; [apply denotes_request|].
    cbv beta. rewrite (Hnames tier Hin). apply denotes_ret.
Qed.

(** X5. A paired audio file whose TextGrid has no tier named in
    [phones_tiers] is processed without an exception and contributes no
    row: its line is printed, its Sound and TextGrid are read, the name of
    each tier is asked once, and nothing else is asked of the grid. *)
Theorem X5_no_configured_tier_gives_no_row :
  forall (F : Type) (A : Arith F) (cfg : Config F) (w : World F)
         (file : str) (wav : SoundObject F) (tg : TextGrid F)
         (st : State F),
    paired cfg w file = true ->
    open_sound w (wav_path cfg ++ file) = Ok wav ->
    read_data w (textgrid_of cfg file) = Ok tg ->
    (forall tier, In tier (tiers tg) ->
                  contains (phones_tiers cfg) (name tier) = false) ->
    file_step cfg w file st
    = (extend (announced file st) []
              ([Path_exists (textgrid_of cfg file);
                Sound (wav_path cfg ++ file);
                To_formant_burg;
                Data_read (textgrid_of cfg file);
                Get_number_of_tiers]
               ++ map Get_tier_name
                      (range 1 (Z.of_nat (length (tiers tg)) + 1))),
       Ok tt).
Proof.
  intros F A cfg w file wav tg st Hp Hwav Htg Hnames.
  pose proof Hp as Hp'. unfold paired in Hp'.
  apply andb_true_iff in Hp'. destruct Hp' as [Hext Hex].
  unfold file_step. rewrite Hext.
  unfold bind at 1. unfold request at 1. rewrite Hex.
  unfold bind at 1. unfold read_file_counter at 1.
  unfold bind at 1. unfold print at 1.
  unfold bind at 1. unfold write_file_counter at 1.
  cbn [data file_counter stdout calls].
  rewrite Hwav, Htg. unfold bind, request, get_number_of_tiers.
  cbn [data file_counter stdout calls].
  rewrite (@tier_loop_unresolved F A cfg file _ tg _ Hnames).
  - unfold extend, announced; cbn. rewrite app_nil_r, <- !app_assoc.
    reflexivity.
  - intros k Hk. apply in_range in Hk. lia.
Qed.

(** A grid with the tiers "words" and "segments" under the configured
    name "phones": two name queries, no row. *)
Lemma X5_witness :
  file_step Demo.notebook (Demo.reading Demo2.other_names_grid)
            (lit "p113_int.wav") (fresh float)
  = (extend (announced (lit "p113_int.wav") (fresh float)) []
            [Path_exists (lit "data/p113_int.TextGrid");
             Sound (lit "data/p113_int.wav");
             To_formant_burg;
             Data_read (lit "data/p113_int.TextGrid");
             Get_number_of_tiers; Get_tier_name 1; Get_tier_name 2],
     Ok tt).
Proof.
  refine (@X5_no_configured_tier_gives_no_row float binary64
            Demo.notebook (Demo.reading Demo2.other_names_grid)
            (lit "p113_int.wav") Demo.half_voiced Demo2.other_names_grid
            (fresh float) eq_refl eq_refl eq_refl _).
  intros tier [<-|[<-|[]]]; reflexivity.
Defined.

(** X6. With a segment window equal to zero, a vowel interval whose word
    is found stops with ZeroDivisionError: the word lookup is made, the
    division [dur / segment_window] raises, and no row is appended. *)
Theorem X6_zero_window_raises :
  forall (F : Type) (A : Arith F) (cfg : Config F) (file : str)
         (formant : Formant F) (tg : TextGrid F) (tierIdx intervalIdx : Z)
         (iv : Interval F) (wi : Z) (word : str) (st : State F),
    peek_interval tg tierIdx intervalIdx = Ok iv ->
    is_vowel_label (text iv) = true ->
    get_interval_at_time tg 1 (midpoint iv) = Ok wi ->
    get_label_of_interval tg 1 wi = Ok word ->
    is_zero (segment_window cfg) = true ->
    interval_step cfg file formant tg tierIdx intervalIdx st
    = (extend st [] (token_calls tierIdx intervalIdx iv wi),
       Raise ZeroDivisionError).
Proof.
  intros F A cfg file formant tg tierIdx intervalIdx iv wi word st
         Hp Hv Hwi Hword Hz.
  eapply interval_step_no_count; try eassumption.
  unfold segment_count, truediv. rewrite Hz. reflexivity.
Qed.

(** A window of -0.0 in binary64 is a zero window too. *)
Lemma X6_witness :
  interval_step (Demo.every (-0)%float) (lit "p113_int.wav")
                Demo.half_voiced_formant Demo.no_grid 2 2 (fresh float)
  = (extend (fresh float) []
            (token_calls 2 2 (Build_Interval 0.19%float 0.22%float (lit "o"))
                         2),
     Raise ZeroDivisionError).
Proof.
  exact (@X6_zero_window_raises float binary64
           (Demo.every (-0)%float) (lit "p113_int.wav")
           Demo.half_voiced_formant Demo.no_grid 2 2
           (Build_Interval 0.19%float 0.22%float (lit "o")) 2 (lit "no")
           (fresh float) eq_refl eq_refl eq_refl eq_refl eq_refl).
Defined.

Lemma for_each_cons_raise (F : Type) {X} (x : X) (l : list X)
      (body : X -> M F unit) (st st' : State F) (e : exn) :
  body x st = (st', Raise e) -> for_each (x :: l) body st = (st', Raise e).
Proof. intros Hb. cbn [for_each]. unfold bind. rewrite Hb. reflexivity. Qed.

Lemma for_each_app (F : Type) {X} (l1 l2 : list X) (body : X -> M F unit)
      (st : State F) :
  for_each (l1 ++ l2) body st
  = match for_each l1 body st with
    | (st', Ok _) => for_each l2 body st'
    | (st', Raise e) => (st', Raise e)
    end.
Proof.
  revert st; induction l1 as [|x l1 IH]; intros st; [reflexivity|].
  cbn [for_each app]. unfold bind.
  destruct (body x st) as [st' [[]|e]]; [apply IH | reflexivity].
Qed.

(** A paired audio file whose Sound or TextGrid cannot be read. *)
Lemma file_step_unreadable (F : Type) (A : Arith F) (cfg : Config F)
      (w : World F) (file : str) (e : exn) :
  paired cfg w file = true ->
  (open_sound w (wav_path cfg ++ file) = Raise e
   \/ exists wav, open_sound w (wav_path cfg ++ file) = Ok wav
                  /\ read_data w (textgrid_of cfg file) = Raise e) ->
  exists evs,
    forall st,
      file_step cfg w file st = (extend (announced file st) [] evs, Raise e).
Proof.
  intros Hp Hfail. pose proof Hp as Hp'. unfold paired in Hp'.
  apply andb_true_iff in Hp'. destruct Hp' as [Hext Hex].
  destruct Hfail as [Hwav | (wav & Hwav & Htg)].
  - exists [Path_exists (textgrid_of cfg file); Sound (wav_path cfg ++ file)].
    intros st. unfold file_step. rewrite Hext.
    unfold bind, request, read_file_counter, print, write_file_counter.
    rewrite Hex. cbn [data file_counter stdout calls]. rewrite Hwav.
    unfold extend, announced; cbn. rewrite app_nil_r, <- !app_assoc.
    reflexivity.
  - exists [Path_exists (textgrid_of cfg file); Sound (wav_path cfg ++ file);
            To_formant_burg; Data_read (textgrid_of cfg file)].
    intros st. unfold file_step. rewrite Hext.
    unfold bind, request, read_file_counter, print, write_file_counter.
    rewrite Hex. cbn [data file_counter stdout calls]. rewrite Hwav, Htg.
    unfold extend, announced; cbn. rewrite app_nil_r, <- !app_assoc.
    reflexivity.
Qed.

Lemma progress_snoc (n : Z) (files : list str) (file : str) :
  progress n (files ++ [file])
  = progress n files ++ [Processing_file (n + Z.of_nat (length files)) file].
Proof.
  revert n; induction files as [|f files IH]; intros n.
  - simpl. rewrite Z.add_0_r. reflexivity.
  - cbn [app progress]. rewrite IH. cbn [app length].
    replace (n + 1 + Z.of_nat (length files))
      with (n + Z.of_nat (S (length files))) by lia.
    reflexivity.
Qed.

(** X7. A paired audio file whose Sound or TextGrid cannot be read stops
    the whole cell with the exception of the read, wherever it stands in
    the listing: when the entries before it were processed without an
    exception, [data] keeps their rows and gets none for the file, the
    line of the file is printed and the counter advanced, the entries
    after it are never examined, and "Done" is not printed. *)
Theorem X7_unreadable_file_stops_the_cell :
  forall (F : Type) (A : Arith F) (cfg : Config F) (w : World F)
         (before : list str) (file : str) (e : exn) (st0 : State F),
    snd (for_each before (file_step cfg w) st0) = Ok tt ->
    paired cfg w file = true ->
    (open_sound w (wav_path cfg ++ file) = Raise e
     \/ exists wav, open_sound w (wav_path cfg ++ file) = Ok wav
                    /\ read_data w (textgrid_of cfg file) = Raise e) ->
    exists evs,
      (forall rest st,
          for_each (before ++ file :: rest) (file_step cfg w) st
          = ({| data := data st ++ flat_map (file_rows cfg w) before;
                file_counter
                  := file_counter st
                     + Z.of_nat (length (filter (paired cfg w) before)) + 1;
                stdout
                  := stdout st
                     ++ progress (file_counter st)
                                 (filter (paired cfg w) before ++ [file]);
                calls := calls st ++ evs |}, Raise e))
      /\ (forall rest st,
             listdir w (wav_path cfg) = before ++ file :: rest ->
             extract_formants cfg w st
             = ({| data := flat_map (file_rows cfg w) before;
                   file_counter
                     := 2 + Z.of_nat (length (filter (paired cfg w) before));
                   stdout
                     := stdout st
                        ++ progress 1 (filter (paired cfg w) before
                                       ++ [file]);
                   calls := calls st ++ evs |}, Raise e)).
Proof.
  intros F A cfg w before file e st0 Hbefore Hp Hfail.
  destruct (file_loop_denotes cfg w before)
    as (rows & evs0 & j & r0 & Hd0 & Hok & _).
  rewrite Hd0 in Hbefore. cbn [snd] in Hbefore. subst r0.
  destruct (Hok eq_refl) as [-> ->].
  destruct (@file_step_unreadable F A cfg w file e Hp Hfail) as (evs1 & Hd1).
  exists (evs0 ++ evs1).
  assert (Hloop : forall rest st,
             for_each (before ++ file :: rest) (file_step cfg w) st
             = ({| data := data st ++ flat_map (file_rows cfg w) before;
                   file_counter
                     := file_counter st
                        + Z.of_nat (length (filter (paired cfg w) before))
                        + 1;
                   stdout
                     := stdout st
                        ++ progress (file_counter st)
                                    (filter (paired cfg w) before ++ [file]);
                   calls := calls st ++ evs0 ++ evs1 |}, Raise e)).
  { intros rest st. rewrite for_each_app, Hd0.
    erewrite for_each_cons_raise by apply Hd1.
    f_equal. unfold extend, announced, advanced; cbn.
    rewrite firstn_all, progress_snoc, !app_nil_r, <- !app_assoc.
    reflexivity. }
  split; [exact Hloop|].
  intros rest st Hlist. unfold extract_formants.
  unfold bind at 1. unfold reset_data at 1.
  unfold bind at 1. unfold write_file_counter at 1.
  cbn [data file_counter stdout calls].
  unfold bind. rewrite Hlist, Hloop. cbn [data file_counter stdout calls app].
  f_equal. f_equal; try reflexivity. lia.
Qed.

(** Three paired audio files and a text file; the Sound of the second
    audio file cannot be read. The two rows of the first file stay in
    [data], two lines are printed, and the third file is never tested. *)
Lemma X7_witness :
  exists evs,
    extract_formants (Demo.every 1%float) Demo3.second_unreadable
                     (fresh float)
    = ({| data := file_rows (Demo.every 1%float) Demo3.second_unreadable
                            (lit "p113_int.wav");
          file_counter := 3;
          stdout := [Processing_file 1 (lit "p113_int.wav");
                     Processing_file 2 (lit "p115_int.wav")];
          calls := evs |}, Raise PraatError)
    /\ length (file_rows (Demo.every 1%float) Demo3.second_unreadable
                         (lit "p113_int.wav")) = 2%nat
    /\ Forall (fun ev => ev <> Path_exists (lit "data/p120_int.TextGrid"))
              evs.
Proof.
  destruct (@X7_unreadable_file_stops_the_cell float binary64
              (Demo.every 1%float) Demo3.second_unreadable
              [lit "p113_int.wav"; lit "notes.txt"] (lit "p115_int.wav")
              PraatError (fresh float) eq_refl eq_refl (or_introl eq_refl))
    as (evs & _ & Hcell).
  exists evs.
  pose proof (Hcell [lit "p120_int.wav"] (fresh float) eq_refl) as Hrun.
  split; [|split; [vm_compute; reflexivity|]].
  - rewrite Hrun. vm_compute. reflexivity.
  - apply (f_equal (fun p => calls (fst p))) in Hrun.
    cbn [fst calls fresh app] in Hrun. rewrite <- Hrun.
    vm_compute. repeat (constructor; [discriminate|]). constructor.
Defined.

(* ===================================================================== *)
(** ** Where the samples of a token lie *)
(* ===================================================================== *)

Section Tiling.
Local Open Scope Q_scope.

Lemma Qtruncate_of_nonneg (q : Q) : 0 <= q -> Qtruncate q = Qfloor q.
Proof.
  destruct q as [a d]. unfold Qle, Qtruncate, Qfloor; simpl. intros Ha.
  apply Z.quot_div_nonneg; lia.
Qed.

Lemma Qtruncate_positive (q : Q) : (1 <= Qtruncate q)%Z -> 0 <= q.
Proof.
  destruct q as [a d]. unfold Qle, Qtruncate; simpl. intros Hq.
  destruct (Z.le_gt_cases 0 a) as [Ha|Ha]; [lia|]. exfalso.
  rewrite <- (Z.opp_involutive a), Z.quot_opp_l in Hq by lia.
  assert (0 <= Z.quot (- a) (Z.pos d))%Z by (apply Z.quot_pos; lia). lia.
Qed.

Lemma Qtruncate_lower (q : Q) (k : Z) :
  (1 <= k <= Qtruncate q)%Z -> inject_Z k <= q.
Proof.
  intros Hk. assert (Hq : 0 <= q) by (apply Qtruncate_positive; lia).
  rewrite (Qtruncate_of_nonneg Hq) in Hk.
  eapply Qle_trans; [|apply Qfloor_le]. rewrite <- Zle_Qle. lia.
Qed.

Lemma Qtruncate_upper (q : Q) :
  (1 <= Qtruncate q)%Z -> q < inject_Z (Qtruncate q) + 1.
Proof.
  intros Hk. assert (Hq : 0 <= q) by (apply Qtruncate_positive; lia).
  rewrite (Qtruncate_of_nonneg Hq).
  change 1 with (inject_Z 1). rewrite <- inject_Z_plus. apply Qlt_floor.
Qed.

Lemma Qtruncate_none (q : Q) : (Qtruncate q <= 0)%Z -> q < 1.
Proof.
  intros Hk. destruct (Qlt_le_dec q 1) as [Hlt|Hge]; [exact Hlt|]. exfalso.
  assert (Hq : 0 <= q) by (eapply Qle_trans; [|exact Hge]; discriminate).
  rewrite (Qtruncate_of_nonneg Hq) in Hk.
  pose proof (Qfloor_resp_le _ _ Hge) as Hfl. change (Qfloor 1) with 1%Z in Hfl.
  lia.
Qed.

Variable cfg : Config Q.
Hypothesis window_positive : 0 < segment_window cfg.

Lemma times_window (a b : Q) :
  a <= b / segment_window cfg -> a * segment_window cfg <= b.
Proof.
  intros Hab.
  assert (Hne : ~ segment_window cfg == 0).
  { intros Hz. rewrite Hz in window_positive.
    exact (Qlt_irrefl 0 window_positive). }
  setoid_replace b with (b / segment_window cfg * segment_window cfg)
    by (field; exact Hne).
  apply Qmult_le_compat_r; [exact Hab | apply Qlt_le_weak; assumption].
Qed.

Lemma below_window (a b : Q) :
  b / segment_window cfg < a -> b < a * segment_window cfg.
Proof.
  intros Hab.
  assert (Hne : ~ segment_window cfg == 0).
  { intros Hz. rewrite Hz in window_positive.
    exact (Qlt_irrefl 0 window_positive). }
  setoid_replace b with (b / segment_window cfg * segment_window cfg)
    by (field; exact Hne).
  apply Qmult_lt_compat_r; assumption.
Qed.

(** The sample of segment [k], for [k] up to the segment count, is not
    after the end of the interval. *)
Lemma spot_of_within (iv : Interval Q) (k : Z) :
  (1 <= k <= Qtruncate ((xmax iv - xmin iv) / segment_window cfg))%Z ->
  spot_of cfg (xmin iv) k <= xmax iv.
Proof.
  intros Hk. unfold spot_of; cbn.
  pose proof (Qtruncate_lower _ Hk) as Hle. apply times_window in Hle.
  setoid_replace (xmax iv) with (xmin iv + (xmax iv - xmin iv)) by ring.
  apply Qplus_le_r. exact Hle.
Qed.

(** The sample of the last segment is less than a window before the end. *)
Lemma spot_of_last (iv : Interval Q) :
  (1 <= Qtruncate ((xmax iv - xmin iv) / segment_window cfg))%Z ->
  xmax iv - segment_window cfg
  < spot_of cfg (xmin iv)
            (Qtruncate ((xmax iv - xmin iv) / segment_window cfg)).
Proof.
  intros Hn. unfold spot_of; cbn.
  pose proof (Qtruncate_upper _ Hn) as Hlt. apply below_window in Hlt.
  set (n := inject_Z (Qtruncate ((xmax iv - xmin iv) / segment_window cfg)))
    in *.
  apply Qplus_lt_l with (z := segment_window cfg - xmin iv).
  setoid_replace (xmax iv - segment_window cfg
                  + (segment_window cfg - xmin iv))
    with (xmax iv - xmin iv) by ring.
  setoid_replace (xmin iv + n * segment_window cfg
                  + (segment_window cfg - xmin iv))
    with ((n + 1) * segment_window cfg) by ring.
  exact Hlt.
Qed.

End Tiling.

(** X8. The sample times of a token are [start + k * segment_window] for
    [k] from 1 to the segment count, and nothing compares them with the end
    of the interval. In exact arithmetic with a positive window they all
    lie after the start and not after the end, the last one is less than
    one window before the end, and the interval gives no row exactly when
    it is shorter than one window. In binary64 a sample can fall after the
    end of its interval: the phone "o" from 0.002 s to 0.027 s has five
    segments of 0.005 s, and the fifth is sampled at
    0.027000000000000003 s. *)
Theorem X8_samples_are_not_clamped :
  (forall (cfg : Config Q) (file : str) (formant : Formant Q)
          (tg : TextGrid Q) (tierIdx intervalIdx : Z) (iv : Interval Q)
          (wi : Z) (word : str) (st : State Q),
      peek_interval tg tierIdx intervalIdx = Ok iv ->
      is_vowel_label (text iv) = true ->
      get_interval_at_time tg 1 (midpoint iv) = Ok wi ->
      get_label_of_interval tg 1 wi = Ok word ->
      (0 < segment_window cfg)%Q ->
      exists rows evs,
        interval_step cfg file formant tg tierIdx intervalIdx st
        = (extend st rows evs, Ok tt)
        /\ Forall (fun r =>
                     (xmin iv < Time_of_formant_measurements r)%Q
                     /\ (Time_of_formant_measurements r <= xmax iv)%Q) rows
        /\ (forall r,
               nth_error rows (length rows - 1) = Some r ->
               (xmax iv - segment_window cfg
                < Time_of_formant_measurements r)%Q)
        /\ (rows = [] <-> (xmax iv - xmin iv < segment_window cfg)%Q))
  /\ segment_count Demo.notebook
                   (Build_Interval 0.002%float 0.027%float (lit "o")) = Ok 5
  /\ snd (interval_step Demo.notebook (lit "p113_int.wav")
                        Demo.half_voiced_formant Demo3.late_grid 2 1
                        (fresh float))
     = Ok tt
  /\ map (@Time_of_formant_measurements float)
         (data (fst (interval_step Demo.notebook (lit "p113_int.wav")
                                   Demo.half_voiced_formant Demo3.late_grid
                                   2 1 (fresh float))))
     = [0.0070000000000000001%float; 0.012%float; 0.017000000000000001%float;
        0.021999999999999999%float; 0.027000000000000003%float]
  /\ PrimFloat.ltb 0.027%float 0.027000000000000003%float = true.
Proof.
  split; [|repeat split; vm_compute; reflexivity].
  intros cfg file formant tg tierIdx intervalIdx iv wi word st
         Hp Hv Hwi Hword Hw.
  pose proof (@exact_segment_count cfg Hw iv) as Hn.
  set (n := Qtruncate ((xmax iv - xmin iv) / segment_window cfg)) in *.
  eexists _, _. split; [|split; [|split]].
  - apply (interval_step_vowel cfg file formant tg tierIdx intervalIdx
             st Hp Hv Hwi Hword Hn).
  - apply Forall_map. apply Forall_forall. intros k Hk.
    apply in_range in Hk. cbn [Time_of_formant_measurements sample_row].
    split.
    + apply (@spot_of_after_start cfg Hw). lia.
    + apply (@spot_of_within cfg Hw). fold n. lia.
  - intros r Hr. rewrite length_map, range_count in Hr.
    rewrite nth_error_sample_rows in Hr.
    destruct (Nat.ltb_spec (Z.to_nat n - 1) (Z.to_nat n)) as [Hlt|Hge];
      [|discriminate].
    remember (1 + Z.of_nat (Z.to_nat n - 1))%Z as k eqn:Ek.
    injection Hr as <-. cbn [Time_of_formant_measurements sample_row].
    assert (k = n) by lia. subst k. rewrite H.
    apply (@spot_of_last cfg Hw). fold n. lia.
  - split.
    + intros Hnil. apply (f_equal (@length _)) in Hnil.
      rewrite length_map, range_count in Hnil. simpl in Hnil.
      assert (Hq : ((xmax iv - xmin iv) / segment_window cfg < 1)%Q)
        by (apply Qtruncate_none; fold n; lia).
      pose proof Hq as Hlt. apply (@below_window cfg Hw) in Hlt.
      rewrite Qmult_1_l in Hlt. exact Hlt.
    + intros Hlt. apply length_zero_iff_nil.
      rewrite length_map, range_count. apply Qtruncate_below_one.
      apply (@quotient_below_one cfg Hw). exact Hlt.
Qed.

(** The phone "o" from 19/100 to 22/100 with a window of 5/1000: six
    samples, the last one at the end of the interval. *)
Lemma X8_witness :
  exists rows evs,
    interval_step DemoQ.notebook (lit "p113_int.wav") DemoQ.flat
                  DemoQ.no_grid 2 2 (fresh Q)
    = (extend (fresh Q) rows evs, Ok tt)
    /\ length rows = 6%nat
    /\ Forall (fun r =>
                 ((19 # 100) < Time_of_formant_measurements r)%Q
                 /\ (Time_of_formant_measurements r <= (22 # 100))%Q) rows.
Proof.
  destruct (proj1 X8_samples_are_not_clamped
              DemoQ.notebook (lit "p113_int.wav") DemoQ.flat
              DemoQ.no_grid 2 2 DemoQ.o_interval 2 (lit "no") (fresh Q)
              eq_refl eq_refl eq_refl eq_refl eq_refl)
    as (rows & evs & Hrun & Hin & _).
  exists rows, evs. split; [exact Hrun|]. split; [|exact Hin].
  apply (f_equal (fun p => length (data (fst p)))) in Hrun.
  cbn [fst extend data fresh app] in Hrun. rewrite <- Hrun.
  vm_compute. reflexivity.
Defined.

(* ===================================================================== *)
(** ** Which files the cell touches *)
(* ===================================================================== *)

Section Asks.
Variable F : Type.
Variable P : Event F -> Prop.

Lemma asks_ret {A} (a : A) : asks P (ret (F := F) a).
Proof. intros st. exists []. rewrite app_nil_r. auto. Qed.

Lemma asks_state {A} (m : M F A) :
  (forall st, calls (fst (m st)) = calls st) -> asks P m.
Proof. intros Hm st. exists []. rewrite app_nil_r, Hm. auto. Qed.

Lemma asks_request {A} (e : Event F) (r : result A) :
  P e -> asks P (request e r).
Proof. intros He st. exists [e]. simpl. auto. Qed.

Lemma asks_bind {A B} (m : M F A) (k : A -> M F B) :
  asks P m ->
  (forall a st, snd (m st) = Ok a ->
                exists evs, calls (fst (k a (fst (m st))))
                            = calls (fst (m st)) ++ evs /\ Forall P evs) ->
  asks P (bind m k).
Proof.
  intros Hm Hk st. unfold bind. destruct (Hm st) as (evs & Hc & HP).
  assert (Hk' := fun a => Hk a st).
  destruct (m st) as [st' [a|e]]; simpl in *.
  - destruct (Hk' a eq_refl) as (evs' & Hc' & HP').
    exists (evs ++ evs'). rewrite Hc', Hc, app_assoc. split; [reflexivity|].
    apply Forall_app; auto.
  - exists evs. auto.
Qed.

Lemma asks_seq {A B} (m : M F A) (k : A -> M F B) :
  asks P m -> (forall a, asks P (k a)) -> asks P (bind m k).
Proof. intros Hm Hk. apply asks_bind; [exact Hm | intros a st _; apply Hk]. Qed.

Lemma asks_request_bind {A B} (e : Event F) (r : result A)
      (k : A -> M F B) :
  P e -> (forall a, r = Ok a -> asks P (k a)) -> asks P (bind (request e r) k).
Proof.
  intros He Hk. apply asks_bind; [apply asks_request; exact He|].
  intros a st Ha. apply Hk. exact Ha.
Qed.

Lemma asks_for_each {X} (l : list X) (body : X -> M F unit) :
  (forall x, In x l -> asks P (body x)) -> asks P (for_each l body).
Proof.
  induction l as [|x l IH]; intros Hb; simpl.
  - apply asks_ret.
  - apply asks_seq; [apply Hb; left; reflexivity|].
    intros _. apply IH. intros y Hy. apply Hb. right. exact Hy.
Qed.

(** A statement that only asks object queries asks nothing that [P]
    forbids, when [P] allows every object query. *)
Lemma asks_of_steps {A} (R : Row F -> Prop) (m : M F A) :
  (forall e, object_query e -> P e) ->
  steps R (@object_query F) m -> asks P m.
Proof.
  intros HP Hm st. destruct (Hm st) as (rows & evs & Hst & _ & Hq).
  exists evs. rewrite Hst. split; [reflexivity|].
  eapply Forall_impl; [|exact Hq]. exact HP.
Qed.

End Asks.

Section Queries.
Variable F : Type.
Context `{Arith F}.
Variables (cfg : Config F) (file : str) (formant : Formant F)
          (tg : TextGrid F).

(** Below the file level only the TextGrid and the Formant object are
    queried. *)
Lemma tier_step_queries tierIdx :
  steps (fun _ => True) (@object_query F)
        (tier_step cfg file formant tg tierIdx).
Proof.
  unfold tier_step. ask tierName Hname.
  destruct (contains (phones_tiers cfg) tierName); [|apply steps_ret].
  ask numIntervals Hnum.
  apply steps_for_each. intros intervalIdx _.
  unfold interval_step. ask label Hlabel.
  destruct (is_vowel_label label) eqn:Hv; [|apply steps_ret].
  ask start Hstart. ask end_ Hend. pure mid Hmid.
  ask wi Hwi. ask word Hword. pure q Hq. pure n Hn.
  apply steps_for_each. intros k _ st.
  rewrite segment_step_run by (apply vowel_label_nonempty; exact Hv).
  eexists _, _. split; [reflexivity|]. split; repeat constructor.
Qed.

End Queries.

(** X9. The cell tests the existence of a TextGrid only for entries of the
    listing that end in ".wav", and opens a Sound or reads a TextGrid only
    for entries that are audio files whose TextGrid exists; it asks for no
    other path. *)
Theorem X9_only_paired_files_are_read :
  forall (F : Type) (A : Arith F) (cfg : Config F) (w : World F)
         (st : State F),
    exists evs,
      calls (fst (extract_formants cfg w st)) = calls st ++ evs
      /\ Forall (file_request cfg w) evs.
Proof.
  intros F A cfg w.
  assert (Hq : forall e : Event F, object_query e -> file_request cfg w e)
    by (intros [] Hq; try exact I; destruct Hq).
  change (asks (file_request cfg w) (extract_formants cfg w)).
  unfold extract_formants.
  apply asks_seq; [apply asks_state; reflexivity|]. intros _.
  apply asks_seq; [apply asks_state; reflexivity|]. intros _.
  apply asks_seq; [|intros _; apply asks_state; reflexivity].
  apply asks_for_each. intros file Hin. unfold file_step.
  destruct (endswith file (lit ".wav")) eqn:Hext; [|apply asks_ret].
  apply asks_request_bind; [exists file; auto|]. intros ex Hex.
  injection Hex as <-.
  destruct (path_exists w (textgrid_of cfg file)) eqn:Hexists;
    [|apply asks_ret].
  assert (Hp : paired cfg w file = true)
    by (unfold paired; rewrite Hext, Hexists; reflexivity).
  apply asks_seq; [apply asks_state; reflexivity|]. intros counter.
  apply asks_seq; [apply asks_state; reflexivity|]. intros _.
  apply asks_seq; [apply asks_state; reflexivity|]. intros _.
  apply asks_request_bind; [exists file; auto|]. intros wav _.
  apply asks_request_bind; [exact I|]. intros formant _.
  apply asks_request_bind; [exists file; auto|]. intros tg _.
  apply asks_request_bind; [exact I|]. intros numTiers _.
  apply asks_for_each. intros tierIdx _.
  eapply asks_of_steps; [exact Hq | apply tier_step_queries].
Qed.

(** In [Demo.one_pair] the only Sound opened and the only TextGrid read
    are those of "p113_int.wav"; the TextGrid of "p113_wd.wav" is tested
    and, as it does not exist, never read. *)
Lemma X9_witness :
  exists evs,
    calls (fst (extract_formants Demo.notebook Demo.one_pair (fresh float)))
    = calls (fresh float) ++ evs
    /\ Forall (file_request Demo.notebook Demo.one_pair) evs
    /\ filter (fun e => match e with
                        | Path_exists _ | Sound _ | Data_read _ => true
                        | _ => false
                        end) evs
       = [Path_exists (lit "data/p113_int.TextGrid");
          Sound (lit "data/p113_int.wav");
          Data_read (lit "data/p113_int.TextGrid");
          Path_exists (lit "data/p113_wd.TextGrid")].
Proof.
  destruct (@X9_only_paired_files_are_read float binary64
              Demo.notebook Demo.one_pair (fresh float))
    as (evs & Hcalls & Hreq).
  exists evs. split; [exact Hcalls|]. split; [exact Hreq|].
  cbn [calls fresh app] in Hcalls. rewrite <- Hcalls.
  vm_compute. reflexivity.
Defined.

(* ===================================================================== *)
(** ** Offsets from the onset *)
(* ===================================================================== *)

Lemma spot_of_step (cfg : Config Q) (start : Q) (k : Z) :
  (spot_of cfg start (k + 1) - spot_of cfg start k == segment_window cfg)%Q.
Proof.
  unfold spot_of. change (@of_int Q exact (k + 1)) with (inject_Z (k + 1)).
  rewrite inject_Z_plus. cbn. ring.
Qed.

(** X10. In exact arithmetic the offset recorded with the row of segment
    [k] is exactly [k] windows, and two consecutive rows of a token are
    one window apart. The cell computes the offset as [spot - start], not
    as [k * segment_window]: in binary64 the two differ by rounding, and
    the offset of the notebook's first row, sampled one window of 0.005 s
    after 0.19 s, is 0.0050000000000000044. *)
Theorem X10_offsets_are_multiples_of_the_window :
  (forall (cfg : Config Q) (file : str) (formant : Formant Q)
          (tg : TextGrid Q) (tierIdx intervalIdx : Z) (iv : Interval Q)
          (wi : Z) (word : str) (n : Z) (st : State Q),
      peek_interval tg tierIdx intervalIdx = Ok iv ->
      is_vowel_label (text iv) = true ->
      get_interval_at_time tg 1 (midpoint iv) = Ok wi ->
      get_label_of_interval tg 1 wi = Ok word ->
      segment_count cfg iv = Ok n ->
      exists rows evs,
        interval_step cfg file formant tg tierIdx intervalIdx st
        = (extend st rows evs, Ok tt)
        /\ (forall k r,
               1 <= k <= n ->
               nth_error rows (Z.to_nat (k - 1)) = Some r ->
               (Time_from_vowel_onset r
                == inject_Z k * segment_window cfg)%Q)
        /\ (forall i r r',
               nth_error rows i = Some r ->
               nth_error rows (S i) = Some r' ->
               (Time_of_formant_measurements r'
                - Time_of_formant_measurements r
                == segment_window cfg)%Q
               /\ (Time_from_vowel_onset r' - Time_from_vowel_onset r
                   == segment_window cfg)%Q))
  /\ map (@Time_from_vowel_onset float)
         (firstn 1
            (data (fst (interval_step Demo.notebook (lit "p113_int.wav")
                                      Demo.half_voiced_formant Demo.no_grid
                                      2 2 (fresh float)))))
     = [0.0050000000000000044%float]
  /\ PrimFloat.eqb 0.0050000000000000044%float
                   (PrimFloat.mul (float_of_Z 1) 0.005%float) = false.
Proof.
  split; [|split; vm_compute; reflexivity].
  intros cfg file formant tg tierIdx intervalIdx iv wi word n st
         Hp Hv Hwi Hword Hn.
  eexists _, _. split; [|split].
  - apply (interval_step_vowel cfg file formant tg tierIdx intervalIdx
             st Hp Hv Hwi Hword Hn).
  - intros k r Hk Hr. rewrite nth_error_sample_rows in Hr.
    destruct (Nat.ltb_spec (Z.to_nat (k - 1)) (Z.to_nat n)); [|lia].
    replace (1 + Z.of_nat (Z.to_nat (k - 1))) with k in Hr by lia.
    injection Hr as <-. cbn. ring.
  - intros i r r' Hi Hj. rewrite nth_error_sample_rows in Hi, Hj.
    destruct (i <? _)%nat; [|discriminate].
    destruct (S i <? _)%nat; [|discriminate].
    remember (1 + Z.of_nat i) as ki eqn:Eki.
    remember (1 + Z.of_nat (S i)) as kj eqn:Ekj.
    injection Hi as <-; injection Hj as <-.
    assert (Ek : kj = ki + 1) by lia. subst kj. clear Eki.
    cbn [Time_of_formant_measurements Time_from_vowel_onset sample_row].
    rewrite Ek.
    pose proof (spot_of_step cfg (xmin iv) ki) as Hstep.
    split; [exact Hstep|].
    change (@sub Q exact) with Qminus.
    setoid_replace (spot_of cfg (xmin iv) (ki + 1) - xmin iv
                    - (spot_of cfg (xmin iv) ki - xmin iv))%Q
      with (spot_of cfg (xmin iv) (ki + 1) - spot_of cfg (xmin iv) ki)%Q
      by ring.
    exact Hstep.
Qed.

(** The token of the notebook in exact arithmetic: the first offset is
    exactly 5/1000. *)
Lemma X10_witness :
  exists rows evs,
    interval_step DemoQ.notebook (lit "p113_int.wav") DemoQ.flat
                  DemoQ.no_grid 2 2 (fresh Q)
    = (extend (fresh Q) rows evs, Ok tt)
    /\ forall r, nth_error rows 0 = Some r ->
                 (Time_from_vowel_onset r == 5 # 1000)%Q.
Proof.
  destruct (proj1 X10_offsets_are_multiples_of_the_window
              DemoQ.notebook (lit "p113_int.wav") DemoQ.flat
              DemoQ.no_grid 2 2 DemoQ.o_interval 2 (lit "no") 6 (fresh Q)
              eq_refl eq_refl eq_refl eq_refl eq_refl)
    as (rows & evs & Hrun & Hoff & _).
  exists rows, evs. split; [exact Hrun|].
  intros r Hr. rewrite (Hoff 1 r ltac:(lia) Hr). reflexivity.
Defined.

(* ===================================================================== *)
(** ** From a row back to its file *)
(* ===================================================================== *)

(** X11. The Video ID of a row gives back its audio file: the Video ID
    followed by ".wav" is an entry of the listing, it is a paired audio
    file, and the row is one of the rows of that file. Two rows with the
    same Video ID therefore come from the same file, and have the same
    Participant and the same Task. *)
Theorem X11_video_id_names_the_file :
  forall (F : Type) (A : Arith F) (cfg : Config F) (w : World F)
         (st : State F),
    (forall r,
        In r (data (fst (extract_formants cfg w st))) ->
        In (Video_ID r ++ lit ".wav") (listdir w (wav_path cfg))
        /\ paired cfg w (Video_ID r ++ lit ".wav") = true
        /\ file_row cfg w (Video_ID r ++ lit ".wav") r)
    /\ (forall r r',
           In r (data (fst (extract_formants cfg w st))) ->
           In r' (data (fst (extract_formants cfg w st))) ->
           Video_ID r = Video_ID r' ->
           Participant r = Participant r' /\ Task r = Task r').
Proof.
  intros F A cfg w st.
  destruct (extract_formants_run cfg w st)
    as (rows & evs & j & res & Hrun & HR & _).
  rewrite Hrun. cbn [fst data]. rewrite Forall_forall in HR.
  assert (Hback : forall r, In r rows ->
             In (Video_ID r ++ lit ".wav") (listdir w (wav_path cfg))
             /\ paired cfg w (Video_ID r ++ lit ".wav") = true
             /\ file_row cfg w (Video_ID r ++ lit ".wav") r
             /\ Participant r = slice (Video_ID r ++ lit ".wav") None (Some 4)
             /\ Task r = slice (Video_ID r ++ lit ".wav") (Some 5)
                               (Some (-4))).
  { intros r Hin. destruct (HR r Hin) as (file & Hfile & Hrow).
    pose proof Hrow as (wav & tg & tier & tierIdx & intervalIdx
                        & Hp & _ & _ & _ & _ & Htok).
    destruct Htok as (iv & wi & word & n & k & _ & _ & _ & _ & _ & _ & ->).
    cbn [Video_ID Participant Task sample_row].
    assert (Hname : slice file None (Some (-4)) ++ lit ".wav" = file).
    { symmetry. apply wav_name_of_stem. unfold paired in Hp.
      apply andb_true_iff in Hp. tauto. }
    rewrite Hname. auto. }
  split.
  - intros r Hin. destruct (Hback r Hin) as (H1 & H2 & H3 & _). auto.
  - intros r r' Hin Hin' Hid.
    destruct (Hback r Hin) as (_ & _ & _ & HP & HT).
    destruct (Hback r' Hin') as (_ & _ & _ & HP' & HT').
    rewrite HP, HT, HP', HT', Hid. auto.
Qed.

(** The rows of [Demo2.two_pairs] carry the Video IDs "p113_int" and
    "p115_int", and each leads back to its file. *)
Lemma X11_witness :
  Forall (fun r => In (Video_ID r ++ lit ".wav")
                      [lit "p113_int.wav"; lit "p115_int.wav"])
         (data (fst (extract_formants (Demo.every 1%float) Demo2.two_pairs
                                      (fresh float))))
  /\ length (data (fst (extract_formants (Demo.every 1%float)
                                         Demo2.two_pairs (fresh float))))
     = 4%nat.
Proof.
  split; [|vm_compute; reflexivity].
  apply Forall_forall. intros r Hin.
  destruct (proj1 (@X11_video_id_names_the_file float binary64
                     (Demo.every 1%float) Demo2.two_pairs (fresh float))
                  r Hin) as (Hlist & Hp & _).
  cbn [listdir Demo2.two_pairs] in Hlist.
  destruct Hlist as [E|[E|[E|[E|[]]]]]; rewrite <- E in *;
    try (left; reflexivity); try (right; left; reflexivity);
    vm_compute in Hp; discriminate.
Defined.
